(* ===== verification/_CoqProject ===== *)
-Q . S2P
Prelude.v
Monad.v
Effects.v
DemoLedger.v
Retry.v
Trace.v
Balances.v
RangeSizing.v
AssetBalancer.v
PoolMetadata.v
BalanceLog.v
CloudWatch.v
Storage.v
LogRuntime.v
AlertDelivery.v
Alerts.v
Lifecycle.v
DecisionLoop.v
