(* ===== verification/Prelude.v ===== *)
(** * A verification development of the Meteora liquidity rebalancer

    The program ([src/src/utils/logger.ts] lines 176-629, class
    [MeteoraRebalancer]; the driver [examples/example.ts], staged as
    [src/unnamed/part_000] lines 124-222; the alert helpers
    [src/utils/alerts.ts], staged as [src/Dockerfile] lines 81-158) keeps
    one concentrated-liquidity position on a Meteora DLMM pool centred on
    the current price.  Each decision cycle reads the pool's active bin; when
    it lies outside the cached bin range [currLowerBinId, currUpperBinId] the
    position is relocated: liquidity is removed, the two assets are swapped
    to a 50/50 value split, and a new position is opened with a bin width
    derived once from configuration.

    ** Parts of the program and where they are modelled

    - [Prelude] (this file): the JavaScript exception values the code throws
      and inspects ([exn], [is_error_with]), [String.prototype.includes]
      ([includes]), the boolean comparisons on rationals the code's [>] and
      [<] become, the hint database [rebal] and the shared tactics.
    - [Monad]: a state and exception monad [M S A = S -> res A * S] with
      [catch] for [try]/[catch], its notation and laws.  Every [async]
      method of the class is a computation of this monad over a [World].
    - [Effects]: the external collaborators the class calls (wallet
      balance, Jupiter swap, Meteora positions, active bin, add/remove
      liquidity, the pool-metadata HTTP endpoint, timers) as the type class
      [Chain L] over an abstract ledger [L]; [process.env] as the record
      [Env] (with the defaults of [NATIVE_TOKEN_FEE_BUFFER] and
      [NATIVE_TOKEN_MIN_BALANCE]); the class's data fields as the record
      [Rebalancer] and its constructor [new_rebalancer]; logs and alerts as
      [Event]s appended to a trace; the [World] (ledger, environment,
      object, trace); one wrapper per collaborator call that records the
      call in the trace.
    - [DemoLedger]: an executable instance [LedgerChain] of [Chain]
      (balances, an active bin reported only at a positive price, position
      slots, and a script of injected faults), an instance whose every
      call fails, one whose positions query shows a fixed list or lags,
      and one whose positions query is down; the demo worlds and
      environments the witnesses run on.
    - [Retry]: [retry] and [retryGetPositions] (logger.ts 254-299).
    - [Trace]: what a computation may append to the trace ([emits P c]:
      every event it appends satisfies [P]) and that it leaves the object's
      fields alone ([keeps_self]), with one lemma per combinator, so that
      trace facts about whole methods follow by [emits_tac]/[keeps_tac];
      and how many successful adds a computation makes ([adds_spec n P c]:
      at most [n], and an error it throws after adding satisfies [P]),
      with rules for [bind] and [catch].
    - [Balances]: [getUsableBalances] (logger.ts 230-248), the JS object
      keyed by asset symbol modelled as a [gmap string Q].
    - [RangeSizing]: the bin width computed in [loadInitialState]
      (logger.ts 357-361) in binary64 ([SpecFloat]): [Number(...)] of the
      configured decimal, the product and the quotient rounded to nearest
      even, [Math.ceil], and [Infinity] for a zero bin step.
    - [AssetBalancer]: the pure swap decision [plan_swap] and the whole
      [rebalancePosition] method (logger.ts 397-499), with the abstract
      50/50 contract [balanced].
    - [PoolMetadata]: [getPoolDetails] with JavaScript's [split('-')]
      (logger.ts 301-342).
    - [BalanceLog]: the [BalanceLogger] class on its local-file backend
      (logger.ts 16-47, 127-175): the lines [logBalances],
      [logCurrentPrice] and [logAction] append, with JavaScript's
      [Number::toString] for the amounts, and [getLastBalance], which reads
      the last total-balance line back through [getLastLogByPrefix], the
      regular expression of [extractBalanceFromLog] and [parseFloat].
    - [CloudWatch]: the [CloudWatchStorage] backend (logger.ts 50-125):
      the log stream as a list of stamped events, [append] with the clock
      as a parameter, and [getLastLogByPrefix] (the service's page, the
      filter, [Array.prototype.sort] newest first as a stable insertion
      sort, the first message), with [getLastBalance] over it.
    - [Storage]: the [StorageBackend] interface (logger.ts 11-14) as the
      type class [StorageBackend] with the class [StorageBackend_ok] of
      its laws (the spec's append-only sink queryable by
      latest-before-timestamp); the local file, the CloudWatch stream and
      the run-time choice [Backend] between them as instances of both; the
      logger's methods written once over any backend; the constructors
      [new BalanceLogger()] and [new CloudWatchStorage()] with
      [createLogStreamIfNeeded] (lines 55-90, 127-175), given the
      service's answer and with the [Date] functions as the class
      [DateLib].
    - [LogRuntime]: the promises the code starts and does not await (the
      stream creation, every logger call of the class) as pending tasks
      of a [Runtime], settled in any order by the step relation
      [rt_step], over a model of the CloudWatch Logs service (group and
      stream existence, [CreateLogStream], [PutLogEvents]); runtimes that
      differ only in the order of pending promises are an [Equivalence]
      and bisimilar.
    - [AlertDelivery]: the alerts module itself (alerts.ts 86-129): its
      initialisation from the Telegram variables, [ALERT_ICONS] and the
      message prefix, and [sendAlert] in the monad of [Monad] over its
      console and Telegram output, with the API's answer as an input.
    - [Alerts]: [checkLossThreshold] and [sendPerformanceReport]
      (alerts.ts 131-158), which the rebalancer itself never calls.
    - [Lifecycle]: [verifyNativeTokenBalanceForFees],
      [verifyNativeTokenBufferForPositions], [addLiquidity],
      [removeLiquidity], [loadInitialState] (logger.ts 344-395, 501-585).
    - [DecisionLoop]: [rebalance] (logger.ts 587-628) and the driver's
      [runRebalanceLoop], [main] and [main().catch] (part_000 131-222).

    The class's methods call one another as in the code: [rebalance] calls
    [retry] around the active-bin read, then [removeLiquidity],
    [rebalancePosition], [verifyNativeTokenBufferForPositions] and
    [addLiquidity]; its [catch] calls [loadInitialState]; every one of them
    reaches the collaborators only through the [Effects] wrappers, so the
    theorems hold for every ledger implementation.

    ** What the theorems show
    - decision loop: a cycle that reports [true] removed the old position
      before any swap or add and then opened a new one; a bin in range does
      nothing; the error policy of [rebalance]; [n] polling cycles open at
      most [n] positions (the add counting of [Trace]); an escaped re-sync error
      stops the driver; configuration errors exit with code 1 before any
      ledger access; the driver's insufficient-native handler is dead;
      the spec's three scenarios also run on [LedgerChain] as a regression
      lemma;
    - lifecycle: [loadInitialState] reports a change exactly on the path
      that made a successful add and moves no funds otherwise, and adopts
      the first reported position's bounds, and opens a second position
      when the positions query is down; the fee-reserve guard of
      [addLiquidity], that it deposits exactly the usable balances (the
      fee reserve is never deposited), and that it keeps the stale range
      when the new position is not visible;
    - retry: success is passed through, an insufficient-funds error aborts
      at once, an ordinary failure is attempted exactly [retries] times
      with [retries - 1] delays, and [retryGetPositions] gives up with [];
    - balancer: the 50/50 refinement, that every swap sells at most the
      usable amount (the native fee reserve is never swapped away), that
      each swap is logged with the amount sold and the amount the swap
      call returned, rounded as [toFixed(6)] rounds them, and that the
      balances are read again before the settlement delay;
    - sizing: whenever [Math.ceil] of the binary64 quotient is a finite
      [c], the stored width is [min(c, 34)], with the WARNING alert exactly
      when [c > 34] and no lower clamp; a lemma evaluates the divergence
      from exact arithmetic at [r = 0.07, binStep = 25];
    - balances and metadata: the native reserve, the keys and values of
      [getUsableBalances]'s result, the full behaviour of [getPoolDetails]
      (it never throws; each failure is alerted and gives undefined), how
      pool names are split;
    - alerts: [sendAlert] resolves whatever Telegram answers (the
      never-failing alert event of [Effects] is sound), logs the prefixed
      message and sends it exactly when both Telegram variables are set;
      [checkLossThreshold] alerts exactly on a fall of at least
      [-threshold] of a positive previous value;
    - balance log: the total-balance record written by [logBalances] is
      read back exactly by [getLastBalance] from any file the logger
      wrote, for amounts JavaScript prints in plain notation; an amount in
      exponent notation comes back as its mantissa or loses the record;
    - CloudWatch backend: its sort-based query is equivalent to the
      reference "last matching event" on strictly increasing timestamps
      within the service's 1000-event page; a message put last is read back
      exactly; the streams the logger writes are well formed; and a lemma
      evaluates three inputs where it returns another record than the
      reference;
    - storage interface: both backends satisfy the contract (the
      CloudWatch instance on a stream that exists; the runs where it does
      not are those of [LogRuntime]), the balance round trip is proved
      against the contract alone (a refinement); building the logger never
      alerts (the set-up alert is dead code);
    - logger promises: once the stream exists no interleaving adds an
      unhandled rejection or an alert; with the log group missing nothing
      is created or alerted and every append is an unhandled rejection;
      while the stream does not exist, a pending append is stored or lost
      depending on whether the pending creation settles first.

    ** Numbers
    JavaScript numbers are modelled as exact rationals [Q] (amounts and
    prices) and bin indices as [Z]: the balancer's theorems state what the
    code computes in exact arithmetic, an abstraction of binary64 (in
    doubles an imbalance below the rounding error can trigger a swap where
    [Q] finds equal values), while [RangeSizing], where rounding changes
    the integer the code stores, is modelled in binary64 itself.  Division by zero is
    where [Q] and IEEE doubles part ways ([x / 0] is [0] in [Q],
    [Infinity] in JavaScript), so the theorems about divisions assume a
    positive price or bin step, as the pool guarantees.

    ** Loops and fuel
    [retry] and [retryGetPositions] recurse structurally on the number of
    attempts left (5 and 10 in the code), so they terminate by
    construction and need no fuel; the unbounded polling loop of the
    driver is [runRebalanceLoop n], a structural recursion on a number of
    cycles [n]: every finite prefix of the agent's run is one of its
    values, which is what the safety and stopping theorems need.

    ** Not modelled
    Console output outside the logger's constructors and [sendAlert],
    message formatting (the alert and action texts; the rounding of
    [toFixed(6)] is kept for the swap log, its digits are not), the
    Telegram API (an input of [sendAlert]), the CloudWatch service itself beyond
    the documented semantics of [GetLogEvents], [CreateLogStream] and
    [PutLogEvents] (throttling, credentials and size limits are not
    modelled), failures of the local file system, and [Date] (the class
    [DateLib]); the link from the
    trace's [EvLog] events to the file, which would need the shortest
    round-trip digits of a double; the SIGINT/SIGTERM handlers of the
    driver; and the
    collaborators' internals, which are abstracted by [Chain] ([DemoLedger]
    gives one executable instance, written from the spec). *)

From Stdlib Require Export QArith Qround Qminmax Lqa ZArith String Ascii.
From stdpp Require Export base gmap strings.

Local Open Scope Q_scope.

Declare Scope rebal_scope.
Delimit Scope rebal_scope with rebal.

(** ** JavaScript exceptions *)

(** What a [throw] carries: an [Error] with its message, or [undefined]
    (what [retry] throws when it made no attempt). *)
Inductive exn :=
| JsError (message : string)
| JsUndefined.

#[export] Instance exn_eq_dec : EqDecision exn.
Proof. solve_decision. Defined.

(** [s.includes(needle)]. *)
Fixpoint includes (s needle : string) : bool :=
  String.prefix needle s ||
  match s with
  | EmptyString => false
  | String _ s' => includes s' needle
  end.

(** [error instanceof Error && error.message.includes(needle)]. *)
Definition is_error_with (e : exn) (needle : string) : bool :=
  match e with
  | JsError m => includes m needle
  | JsUndefined => false
  end.

(** ** Comparisons on numbers *)

(** The code's [x < y] on numbers. *)
Definition Qltb (x y : Q) : bool := negb (Qle_bool y x).

Lemma Qltb_spec x y : Qltb x y = true <-> x < y.
Proof.
  unfold Qltb. rewrite negb_true_iff.
  split; intros H.
  - apply Qnot_le_lt. intros Hle. apply Qle_bool_iff in Hle. congruence.
  - destruct (Qle_bool y x) eqn:E; [|reflexivity].
    apply Qle_bool_iff in E. exfalso. apply (Qlt_not_le x y); assumption.
Qed.

Lemma Qltb_false x y : Qltb x y = false <-> y <= x.
Proof.
  unfold Qltb. rewrite negb_false_iff. apply Qle_bool_iff.
Qed.

Lemma Qltb_compat x x' y y' : x == x' -> y == y' -> Qltb x y = Qltb x' y'.
Proof.
  intros Hx Hy. destruct (Qltb x' y') eqn:E.
  - apply Qltb_spec in E. apply Qltb_spec. rewrite Hx, Hy. exact E.
  - apply Qltb_false in E. apply Qltb_false. rewrite Hx, Hy. exact E.
Qed.

(** [Math.max(0, x)]. *)
Definition Qmax0 (x : Q) : Q := Qmax 0 x.

Lemma Qmax0_nonneg x : 0 <= Qmax0 x.
Proof. apply Q.le_max_l. Qed.

Lemma Qmax0_of_nonneg x : 0 <= x -> Qmax0 x == x.
Proof. intros H. unfold Qmax0. apply Q.max_r. exact H. Qed.

Lemma Qmax0_of_nonpos x : x <= 0 -> Qmax0 x == 0.
Proof. intros H. unfold Qmax0. apply Q.max_l. exact H. Qed.

(** ** Automation shared by the components *)

Create HintDb rebal.
Create Rewrite HintDb rebal_rw.

(** Turn the code's boolean number comparisons into propositions. *)
Ltac qcmp :=
  repeat match goal with
  | H : Qltb _ _ = true |- _ => apply Qltb_spec in H
  | H : Qltb _ _ = false |- _ => apply Qltb_false in H
  | H : (_ <? _)%Z = true |- _ => apply Z.ltb_lt in H
  | H : (_ <? _)%Z = false |- _ => apply Z.ltb_ge in H
  | H : (_ <=? _)%Z = true |- _ => apply Z.leb_le in H
  | H : (_ <=? _)%Z = false |- _ => apply Z.leb_gt in H
  end.

(** Case on a boolean test of the goal, keeping its equation. *)
Ltac case_test t := let E := fresh "E" in destruct t eqn:E; qcmp.

#[export] Hint Resolve Qmax0_nonneg : rebal.
