(* ===== verification/Monad.v ===== *)
(** * A state and exception monad for the [async] methods

    An [async] method of [MeteoraRebalancer] reads and writes the object's
    fields and the outside world and may throw.  It is modelled as a
    function from a state to a result ([Ok] value or [Throw] exception)
    and the final state.  [bind] is [await] followed by the rest of the
    method, [catch] is [try { .. } catch (error) { .. }].  The laws are
    stated pointwise (for every start state) so that no extensionality is
    needed. *)

From S2P Require Import Prelude.

Inductive res (A : Type) :=
| Ok (a : A)
| Throw (e : exn).
Arguments Ok {A} a.
Arguments Throw {A} e.

Definition M (S A : Type) : Type := S -> res A * S.

Section Ops.
Context {S : Type}.

Definition ret {A} (a : A) : M S A := fun s => (Ok a, s).

Definition bind {A B} (c : M S A) (f : A -> M S B) : M S B :=
  fun s => match c s with
           | (Ok a, s') => f a s'
           | (Throw e, s') => (Throw e, s')
           end.

Definition throw {A} (e : exn) : M S A := fun s => (Throw e, s).

(** [try { c } catch (error) { h(error) }] *)
Definition catch {A} (c : M S A) (h : exn -> M S A) : M S A :=
  fun s => match c s with
           | (Ok a, s') => (Ok a, s')
           | (Throw e, s') => h e s'
           end.

Definition get : M S S := fun s => (Ok s, s).
Definition put (s : S) : M S unit := fun _ => (Ok tt, s).
Definition modify (f : S -> S) : M S unit := fun s => (Ok tt, f s).
Definition gets {A} (f : S -> A) : M S A := fun s => (Ok (f s), s).
End Ops.

Notation "x <- c ;; k" := (bind c (fun x => k))
  (at level 100, c at next level, right associativity) : rebal_scope.
Notation "c ;; k" := (bind c (fun _ => k))
  (at level 100, right associativity) : rebal_scope.

Open Scope rebal_scope.

(** ** Laws *)

Section Laws.
Context {S : Type}.

Lemma bind_ret_l {A B} (a : A) (f : A -> M S B) s :
  bind (ret a) f s = f a s.
Proof. reflexivity. Qed.

Lemma bind_ret_r {A} (c : M S A) s : bind c ret s = c s.
Proof. unfold bind, ret. destruct (c s) as [[] ?]; reflexivity. Qed.

Lemma bind_assoc {A B C} (c : M S A) (f : A -> M S B) (g : B -> M S C) s :
  bind (bind c f) g s = bind c (fun a => bind (f a) g) s.
Proof. unfold bind. destruct (c s) as [[] ?]; reflexivity. Qed.

(** Running a [bind] once the first computation is known. *)
Lemma run_bind_ok {A B} (c : M S A) (f : A -> M S B) s a s' :
  c s = (Ok a, s') -> bind c f s = f a s'.
Proof. intros H. unfold bind. rewrite H. reflexivity. Qed.

Lemma run_bind_throw {A B} (c : M S A) (f : A -> M S B) s e s' :
  c s = (Throw e, s') -> bind c f s = (Throw e, s').
Proof. intros H. unfold bind. rewrite H. reflexivity. Qed.

Lemma run_catch_ok {A} (c : M S A) h s a s' :
  c s = (Ok a, s') -> catch c h s = (Ok a, s').
Proof. intros H. unfold catch. rewrite H. reflexivity. Qed.

Lemma run_catch_throw {A} (c : M S A) h s e s' :
  c s = (Throw e, s') -> catch c h s = h e s'.
Proof. intros H. unfold catch. rewrite H. reflexivity. Qed.

Lemma catch_throw {A} e (h : exn -> M S A) s : catch (throw e) h s = h e s.
Proof. reflexivity. Qed.

Lemma catch_ret {A} (a : A) (h : exn -> M S A) s : catch (ret a) h s = (Ok a, s).
Proof. reflexivity. Qed.

(** Which step produced a result. *)
Lemma bind_ok_inv {A B} (c : M S A) (f : A -> M S B) s b s' :
  bind c f s = (Ok b, s') -> exists a s1, c s = (Ok a, s1) /\ f a s1 = (Ok b, s').
Proof.
  unfold bind. destruct (c s) as [[a|e] s1]; [eauto | discriminate].
Qed.

Lemma bind_throw_inv {A B} (c : M S A) (f : A -> M S B) s e s' :
  bind c f s = (Throw e, s') ->
  c s = (Throw e, s') \/ exists a s1, c s = (Ok a, s1) /\ f a s1 = (Throw e, s').
Proof.
  unfold bind. destruct (c s) as [[a|e'] s1]; [eauto | intros [= -> ->]; auto].
Qed.

Lemma catch_ok_inv {A} (c : M S A) h s a s' :
  catch c h s = (Ok a, s') ->
  c s = (Ok a, s') \/ exists e s1, c s = (Throw e, s1) /\ h e s1 = (Ok a, s').
Proof.
  unfold catch. destruct (c s) as [[a'|e] s1]; [intros [= -> ->]; auto | eauto].
Qed.

Lemma catch_throw_inv {A} (c : M S A) h s e s' :
  catch c h s = (Throw e, s') -> exists e0 s1, c s = (Throw e0, s1) /\ h e0 s1 = (Throw e, s').
Proof.
  unfold catch. destruct (c s) as [[a'|e0] s1]; [discriminate | eauto].
Qed.

(** Computations that never throw. *)
Definition total {A} (c : M S A) : Prop := forall s, exists a s', c s = (Ok a, s').

Lemma total_ret {A} (a : A) : total (ret a).
Proof. intros s. eauto. Qed.

Lemma total_bind {A B} (c : M S A) (f : A -> M S B) :
  total c -> (forall a, total (f a)) -> total (bind c f).
Proof.
  intros Hc Hf s. destruct (Hc s) as [a [s1 E]].
  rewrite (run_bind_ok _ _ _ _ _ E). apply Hf.
Qed.

Lemma total_catch {A} (c : M S A) h : (forall e, total (h e)) -> total (catch c h).
Proof.
  intros Hh s. unfold catch. destruct (c s) as [[a|e] s1]; [eauto | apply Hh].
Qed.

(** A property of the final state that every step preserves. *)
Definition preserves {A} (P : S -> Prop) (c : M S A) : Prop :=
  forall s, P s -> P (snd (c s)).

Lemma preserves_ret {A} P (a : A) : preserves P (ret a).
Proof. intros s H. exact H. Qed.

Lemma preserves_throw {A} P e : preserves P (@throw S A e).
Proof. intros s H. exact H. Qed.

Lemma preserves_bind {A B} P (c : M S A) (f : A -> M S B) :
  preserves P c -> (forall a, preserves P (f a)) -> preserves P (bind c f).
Proof.
  intros Hc Hf s Hs. unfold bind.
  specialize (Hc s Hs). destruct (c s) as [[a|e] s']; simpl in *; auto.
  apply Hf. exact Hc.
Qed.

Lemma preserves_catch {A} P (c : M S A) h :
  preserves P c -> (forall e, preserves P (h e)) -> preserves P (catch c h).
Proof.
  intros Hc Hh s Hs. unfold catch.
  specialize (Hc s Hs). destruct (c s) as [[a|e] s']; simpl in *; auto.
  apply Hh. exact Hc.
Qed.

Lemma preserves_modify P (f : S -> S) :
  (forall s, P s -> P (f s)) -> preserves P (modify f).
Proof. intros Hf s Hs. apply Hf. exact Hs. Qed.

Lemma preserves_gets {A} P (f : S -> A) : preserves P (gets f).
Proof. intros s H. exact H. Qed.
End Laws.

#[export] Hint Resolve preserves_ret preserves_throw preserves_bind
  preserves_catch preserves_gets : rebal.

(** Step through the monadic program in the goal. *)
Ltac mstep :=
  repeat (unfold bind, catch, ret, throw, get, put, modify, gets; simpl).
