(* ===== verification/Effects.v ===== *)
(** * The collaborators, the rebalancer's fields and the event trace

    [MeteoraRebalancer] talks to the outside through the Edwin SDK (wallet,
    Jupiter, Meteora), [fetch] and timers.  Their contract is the type class
    [Chain L] over an abstract ledger state [L]: every call may change the
    ledger (time passes, transactions land) and may fail.  The object's
    data fields are the record [Rebalancer] and [process.env] the record
    [Env]; the program's whole state is a [World]: ledger, environment,
    object, and the trace of events (collaborator calls with their outcome,
    delays, alerts, balance-log entries), which is what the ordering
    theorems are stated on. *)

From S2P Require Import Prelude Monad.

Local Open Scope Q_scope.
Open Scope rebal_scope.

(** ** Data exchanged with the collaborators *)

(** [type PoolDetails] (logger.ts 185-191). *)
Record PoolDetails := mkPoolDetails {
  binStep : Z;
  assetAMintAddress : string;
  assetBMintAddress : string;
  assetASymbol : string;
  assetBSymbol : string
}.

(** [BinLiquidity] as the code uses it: [binId] and [pricePerToken]. *)
Record BinLiquidity := mkBin { binId : Z; pricePerToken : Q }.

(** An element of [getPositionsFromPool]'s result: [position.positionData]. *)
Record PositionData := mkPositionData { lowerBinId : Z; upperBinId : Z }.
Record Position := mkPosition { positionData : PositionData }.

(** [removeLiquidity]'s result: two pairs [A, B]. *)
Record RemoveLiquidityResult := mkRemoved {
  liquidityRemoved : Q * Q;
  feesClaimed : Q * Q
}.

(** The JSON body of [GET https://dlmm-api.meteora.ag/pair/<pool>]. *)
Record PairData := mkPairData {
  bin_step : Z;
  mint_x : string;
  mint_y : string;
  name : string
}.

(** A [fetch] response: [response.ok], [response.status], [response.json()]. *)
Record HttpResponse := mkResponse { ok : bool; status : Z; body : PairData }.

(** ** The collaborators' contract *)

Class Chain (L : Type) := {
  (** [wallet.getBalance(mint?)]; [None] asks for the native balance. *)
  getBalance : option string -> M L Q;
  (** [meteora.getActiveBin({poolAddress})] *)
  getActiveBin : string -> M L BinLiquidity;
  (** [meteora.getPositionsFromPool({poolAddress})] *)
  getPositionsFromPool : string -> M L (list Position);
  (** [jupiter.swap({inputMint, outputMint, amount})] returns the output amount. *)
  jupiterSwap : string -> string -> Q -> M L Q;
  (** [meteora.addLiquidity({poolAddress, amount, amountB, rangeInterval})] *)
  meteoraAddLiquidity : string -> Q -> Q -> option Z -> M L unit;
  (** [meteora.removeLiquidity({shouldClosePosition, poolAddress})] *)
  meteoraRemoveLiquidity : bool -> string -> M L RemoveLiquidityResult;
  (** [fetch(url)] of the pool's metadata. *)
  fetchPair : string -> M L HttpResponse;
  (** time passing in [setTimeout(resolve, ms)] *)
  sleep : Z -> L -> L
}.

(** ** The process environment and the object's fields *)

(** The variables the program reads from [process.env].  The driver's
    three are strings, [None] when unset.  The rebalancer's three are read
    through [Number(...)]: [None] when the variable is unset or empty, and
    for [METEORA_POSITION_RANGE_PER_SIDE_RELATIVE] also when [Number] of it
    is [NaN] (the constructor's test); the two fee variables are taken to
    be numeric when set. *)
Record Env := mkEnv {
  SOLANA_PRIVATE_KEY : option string;
  METEORA_POOL_ADDRESS : option string;
  SOLANA_RPC_URL : option string;
  METEORA_POSITION_RANGE_PER_SIDE_RELATIVE : option Q;
  NATIVE_TOKEN_FEE_BUFFER_var : option Q;
  NATIVE_TOKEN_MIN_BALANCE_var : option Q
}.

(** [const NATIVE_TOKEN_FEE_BUFFER = Number(process.env.NATIVE_TOKEN_FEE_BUFFER || 0.1)] *)
Definition NATIVE_TOKEN_FEE_BUFFER (e : Env) : Q :=
  default (1 # 10) (NATIVE_TOKEN_FEE_BUFFER_var e).

(** [const NATIVE_TOKEN_MIN_BALANCE = Number(process.env.NATIVE_TOKEN_MIN_BALANCE || 0.01)] *)
Definition NATIVE_TOKEN_MIN_BALANCE (e : Env) : Q :=
  default (1 # 100) (NATIVE_TOKEN_MIN_BALANCE_var e).

(** The private fields of [MeteoraRebalancer] that hold data (logger.ts
    198-206); the SDK handles [meteora], [jupiter], [wallet] and
    [balanceLogger] are the [Chain] instance and the trace.  A width of
    [None] is [undefined], or [NaN], which only an unset range variable
    produces and the constructor rules out. *)
Record Rebalancer := mkRebalancer {
  poolAddress : string;
  _poolDetails : option PoolDetails;
  currLowerBinId : Z;
  currUpperBinId : Z;
  meteoraRangeInterval : option Z
}.

(** [new MeteoraRebalancer(wallet, poolAddress)] (logger.ts 211-223): the
    range variable must be set and numeric; the fields start at
    [undefined], [0], [0], [undefined]. *)
Definition new_rebalancer (e : Env) (poolAddress : string) : res Rebalancer :=
  match METEORA_POSITION_RANGE_PER_SIDE_RELATIVE e with
  | None => Throw (JsError "METEORA_POSITION_RANGE_PER_SIDE_RELATIVE must be set and be a valid number")
  | Some _ => Ok (mkRebalancer poolAddress None 0%Z 0%Z None)
  end.

(** The field assignments of [loadInitialState] and [addLiquidity]:
    [this._poolDetails = ...], [this.meteoraRangeInterval = ...] and
    [this.currLowerBinId = ...; this.currUpperBinId = ...]. *)
Definition set_poolDetails (d : option PoolDetails) (r : Rebalancer) : Rebalancer :=
  mkRebalancer (poolAddress r) d (currLowerBinId r) (currUpperBinId r)
    (meteoraRangeInterval r).

Definition set_bin_range (lo hi : Z) (r : Rebalancer) : Rebalancer :=
  mkRebalancer (poolAddress r) (_poolDetails r) lo hi (meteoraRangeInterval r).

Definition set_rangeInterval (i : option Z) (r : Rebalancer) : Rebalancer :=
  mkRebalancer (poolAddress r) (_poolDetails r) (currLowerBinId r)
    (currUpperBinId r) i.

(** ** Events *)

Inductive Call :=
| CGetBalance (mint : option string)
| CGetActiveBin (pool : string)
| CGetPositions (pool : string)
| CSwap (inputMint outputMint : string) (amount : Q)
| CAddLiquidity (pool : string) (amount amountB : Q) (rangeInterval : option Z)
| CRemoveLiquidity (pool : string)
| CFetchPair (pool : string).

(** [enum AlertType] (alerts.ts). *)
Inductive AlertType := LOSS | PERFORMANCE_REPORT | ERROR | WARNING | INFO.

(** The alerts the class sends, by the site that sends them. *)
Inductive Alert :=
| AlertGetPoolDetails (e : exn)
| AlertLowNativeBalance
| AlertRangeClipped (rangeInterval : option Z) (* [None]: [Infinity] *)
| AlertInsufficientNative (nativeBalance : Q)
| AlertRebalance (e : exn)
| AlertInitializing
| AlertExpectedError (e : exn)
| AlertNotEnoughNativeToStart
| AlertLoss (percentageChange previousValue currentValue : Q)
| AlertPerformanceReport (currentValue change : Q) (percentChange : option Q).

Inductive Action :=
| ActSwapped (amountIn : Q) (symbolIn : string) (amountOut : Q) (symbolOut : string)
| ActOutOfRange (activeBin lower upper : Z)
| ActWithdrew (pool : string) (amountA : Q) (symbolA : string) (amountB : Q) (symbolB : string).

(** [BalanceLogger.logAction], [logBalances], [logCurrentPrice]. *)
Inductive LogEntry :=
| LogAction (a : Action)
| LogBalances (amountA amountB : Q) (prefix symbolA symbolB : string)
| LogCurrentPrice (price : Q) (symbolA symbolB : string).

Inductive Event :=
| EvCall (c : Call) (succeeded : bool)
| EvDelay (ms : Z)
| EvAlert (t : AlertType) (a : Alert)
| EvLog (l : LogEntry).

(** [BalanceLogger.TOTAL_BALANCE_PREFIX] (logger.ts 129). *)
Definition TOTAL_BALANCE_PREFIX : string := "Total usable balances after rebalancing".

(** ** The world *)

Record World (L : Type) := mkWorld {
  ledger : L;
  env : Env;
  self : Rebalancer;
  trace : list Event
}.
Arguments mkWorld {L} _ _ _ _.
Arguments env {L} _.
Arguments ledger {L} _.
Arguments self {L} _.
Arguments trace {L} _.

Definition is_ok {A} (r : res A) : bool :=
  match r with Ok _ => true | Throw _ => false end.

Section Wrappers.
Context {L : Type} `{Chain L}.

Definition emit (ev : Event) : M (World L) unit :=
  modify (fun w => mkWorld (ledger w) (env w) (self w) (trace w ++ [ev])).

(** A collaborator call: run it on the ledger and record it. *)
Definition ext {A} (c : Call) (op : M L A) : M (World L) A :=
  fun w => let (r, l') := op (ledger w) in
           (r, mkWorld l' (env w) (self w) (trace w ++ [EvCall c (is_ok r)])).

(** [await new Promise((resolve) => setTimeout(resolve, ms))] *)
Definition delay (ms : Z) : M (World L) unit :=
  fun w => (Ok tt, mkWorld (sleep ms (ledger w)) (env w) (self w) (trace w ++ [EvDelay ms])).

Definition sendAlert (t : AlertType) (a : Alert) : M (World L) unit :=
  emit (EvAlert t a).

(** A [balanceLogger] call: the class never awaits one, so the method
    goes on whatever its promise does ([LogRuntime] models the promise). *)
Definition log (l : LogEntry) : M (World L) unit := emit (EvLog l).

Definition this : M (World L) Rebalancer := gets self.

(** A read of [process.env]. *)
Definition process_env : M (World L) Env := gets env.

Definition update_this (f : Rebalancer -> Rebalancer) : M (World L) unit :=
  modify (fun w => mkWorld (ledger w) (env w) (f (self w)) (trace w)).

(** The [poolDetails] getter (logger.ts 301-306). *)
Definition poolDetails : M (World L) PoolDetails :=
  fun w => match _poolDetails (self w) with
           | Some d => (Ok d, w)
           | None => (Throw (JsError "Pool details not initialized. Make sure to call MeteoraRebalancer.loadInitialState()"), w)
           end.

Definition wallet_getBalance (mint : option string) : M (World L) Q :=
  ext (CGetBalance mint) (getBalance mint).
Definition meteora_getActiveBin (pool : string) : M (World L) BinLiquidity :=
  ext (CGetActiveBin pool) (getActiveBin pool).
Definition meteora_getPositionsFromPool (pool : string) : M (World L) (list Position) :=
  ext (CGetPositions pool) (getPositionsFromPool pool).
Definition jupiter_swap (i o : string) (amount : Q) : M (World L) Q :=
  ext (CSwap i o amount) (jupiterSwap i o amount).
Definition meteora_addLiquidity (pool : string) (a b : Q) (ri : option Z) : M (World L) unit :=
  ext (CAddLiquidity pool a b ri) (meteoraAddLiquidity pool a b ri).
Definition meteora_removeLiquidity (pool : string) : M (World L) RemoveLiquidityResult :=
  ext (CRemoveLiquidity pool) (meteoraRemoveLiquidity true pool).
Definition fetch_pair (pool : string) : M (World L) HttpResponse :=
  ext (CFetchPair pool) (fetchPair pool).
End Wrappers.

(** ** Facts about the wrappers *)

Section WrapperFacts.
Context {L : Type} `{Chain L}.

(** Every wrapper only appends to the trace. *)
Definition extends {A} (c : M (World L) A) : Prop :=
  forall w, exists suffix, trace (snd (c w)) = trace w ++ suffix.

Lemma ext_extends {A} c (op : M L A) : extends (ext c op).
Proof.
  intros w. unfold ext. destruct (op (ledger w)). simpl. eauto.
Qed.

Lemma emit_extends ev : extends (emit ev).
Proof. intros w. simpl. eauto. Qed.

Lemma delay_extends ms : extends (delay ms).
Proof. intros w. simpl. eauto. Qed.

(** The object's fields are untouched by a collaborator call. *)
Lemma ext_self {A} c (op : M L A) w : self (snd (ext c op w)) = self w.
Proof. unfold ext. destruct (op (ledger w)). reflexivity. Qed.

Lemma ext_run {A} c (op : M L A) w :
  ext c op w = (fst (op (ledger w)),
                mkWorld (snd (op (ledger w))) (env w) (self w)
                  (trace w ++ [EvCall c (is_ok (fst (op (ledger w))))])).
Proof. unfold ext. destruct (op (ledger w)). reflexivity. Qed.

Lemma run_ext_ok {A B} c (op : M L A) (f : A -> M (World L) B) w a l' :
  op (ledger w) = (Ok a, l') ->
  bind (ext c op) f w = f a (mkWorld l' (env w) (self w) (trace w ++ [EvCall c true])).
Proof. intros Hop. unfold bind, ext. rewrite Hop. reflexivity. Qed.

Lemma run_ext_throw {A B} c (op : M L A) (f : A -> M (World L) B) w e l' :
  op (ledger w) = (Throw e, l') ->
  bind (ext c op) f w = (Throw e, mkWorld l' (env w) (self w) (trace w ++ [EvCall c false])).
Proof. intros Hop. unfold bind, ext. rewrite Hop. reflexivity. Qed.

Lemma run_emit {B} ev (f : unit -> M (World L) B) w :
  bind (emit ev) f w = f tt (mkWorld (ledger w) (env w) (self w) (trace w ++ [ev])).
Proof. reflexivity. Qed.

Lemma run_delay {B} ms (f : unit -> M (World L) B) w :
  bind (delay ms) f w =
    f tt (mkWorld (sleep ms (ledger w)) (env w) (self w) (trace w ++ [EvDelay ms])).
Proof. reflexivity. Qed.

Lemma run_poolDetails {B} (f : PoolDetails -> M (World L) B) w d :
  _poolDetails (self w) = Some d -> bind poolDetails f w = f d w.
Proof. intros Hd. unfold bind, poolDetails. rewrite Hd. reflexivity. Qed.
End WrapperFacts.

(** Run the collaborator call at the head of the goal with its known outcome. *)
Ltac run_ok H := erewrite run_ext_ok; [|exact H]; cbv beta.
Ltac run_fail H := erewrite run_ext_throw; [|exact H].
