(* ===== verification/DemoLedger.v ===== *)
(** * A concrete ledger: an executable instance of [Chain]

    The theorems of the components hold for every [Chain]; this instance
    lets them run on concrete inputs.  It keeps wallet balances by mint, the
    native balance, the pool's active bin, the open positions with the
    amounts deposited in them, and a fault script: each collaborator call
    takes the next entry, and [Some e] makes that call fail with [e] (a
    dropped RPC, a rejected transaction) without touching the ledger.
    Swaps execute at the active bin's price; adding liquidity opens a
    position of [rangeInterval] bins on each side of the active bin;
    removing liquidity closes the first position and pays back its
    deposits; the active bin is reported only at a positive price.  This
    is the behaviour the spec expects of the collaborators, not a model of
    code under [src/].  Variants: every call failing ([DownChain]), a
    positions query that shows a fixed list ([ShowingChain]) or is down
    ([OutageChain]); and the demo worlds and environments. *)

From S2P Require Import Prelude Monad Effects.

Local Open Scope Q_scope.

Record Slot := mkSlot { slot_position : Position; slot_a : Q; slot_b : Q }.

Record Ledger := mkLedger {
  l_mintA : string;
  l_mintB : string;
  l_balances : gmap string Q;
  l_native : Q;
  l_active : BinLiquidity;
  l_slots : list Slot;
  l_pair : HttpResponse;
  l_faults : list (option exn)
}.

Definition l_balance (l : Ledger) (mint : string) : Q :=
  default 0 (l_balances l !! mint).

Definition with_balances (l : Ledger) (m : gmap string Q) : Ledger :=
  mkLedger (l_mintA l) (l_mintB l) m (l_native l) (l_active l) (l_slots l)
    (l_pair l) (l_faults l).

Definition with_slots (l : Ledger) (s : list Slot) : Ledger :=
  mkLedger (l_mintA l) (l_mintB l) (l_balances l) (l_native l) (l_active l) s
    (l_pair l) (l_faults l).

Definition with_faults (l : Ledger) (f : list (option exn)) : Ledger :=
  mkLedger (l_mintA l) (l_mintB l) (l_balances l) (l_native l) (l_active l)
    (l_slots l) (l_pair l) f.

Definition credit (l : Ledger) (mint : string) (x : Q) : Ledger :=
  with_balances l (<[mint := l_balance l mint + x]> (l_balances l)).

(** Pop the next fault, then run [ok] on the ledger. *)
Definition faulty {A} (ok : M Ledger A) : M Ledger A :=
  fun l => match l_faults l with
           | Some e :: rest => (Throw e, with_faults l rest)
           | None :: rest => ok (with_faults l rest)
           | [] => ok l
           end.

Definition insufficient : exn := JsError "insufficient funds".

Definition l_swap (i o : string) (amount : Q) : M Ledger Q :=
  fun l =>
    if Qltb (l_balance l i) amount then (Throw insufficient, l)
    else
      let p := pricePerToken (l_active l) in
      let out := if String.eqb i (l_mintA l) then amount * p else amount / p in
      (Ok out, credit (credit l i (- amount)) o out).

Definition l_add (a b : Q) (ri : option Z) : M Ledger unit :=
  fun l =>
    if Qltb (l_balance l (l_mintA l)) a || Qltb (l_balance l (l_mintB l)) b
    then (Throw insufficient, l)
    else
      let w := default 0%Z ri in
      let c := binId (l_active l) in
      let pos := mkPosition (mkPositionData (c - w) (c + w)) in
      let l1 := credit (credit l (l_mintA l) (- a)) (l_mintB l) (- b) in
      (Ok tt, with_slots l1 (l_slots l1 ++ [mkSlot pos a b])).

Definition l_remove : M Ledger RemoveLiquidityResult :=
  fun l =>
    match l_slots l with
    | [] => (Throw (JsError "No positions found in this pool"), l)
    | s :: rest =>
        let l1 := credit (credit l (l_mintA l) (slot_a s)) (l_mintB l) (slot_b s) in
        (Ok (mkRemoved (slot_a s, slot_b s) (0, 0)), with_slots l1 rest)
    end.

#[export] Instance LedgerChain : Chain Ledger := {
  getBalance mint := faulty (fun l =>
    (Ok (match mint with Some m => l_balance l m | None => l_native l end), l));
  getActiveBin _ := faulty (fun l =>
    if Qltb 0 (pricePerToken (l_active l)) then (Ok (l_active l), l)
    else (Throw (JsError "No active bin"), l));
  getPositionsFromPool _ := faulty (fun l => (Ok (map slot_position (l_slots l)), l));
  jupiterSwap i o amount := faulty (l_swap i o amount);
  meteoraAddLiquidity _ a b ri := faulty (l_add a b ri);
  meteoraRemoveLiquidity _ _ := faulty l_remove;
  fetchPair _ := faulty (fun l => (Ok (l_pair l), l));
  sleep _ l := l
}.

(** A SOL/USDC pool at price 2, bin 100, with no position and no fault. *)
Definition demo_pair : HttpResponse :=
  mkResponse true 200 (mkPairData 25 "SOLMINT" "USDCMINT" "SOL-USDC").

Definition demo_ledger (solBal usdcBal native : Q) (bin : Z) (slots : list Slot)
    (faults : list (option exn)) : Ledger :=
  mkLedger "SOLMINT" "USDCMINT"
    (<["USDCMINT" := usdcBal]> (<["SOLMINT" := solBal]> ∅))
    native (mkBin bin 2) slots demo_pair faults.

(** The process environment of the demo runs: all variables set, a
    5% range per side, the default fee reserve and minimum balance. *)
Definition demo_env : Env :=
  mkEnv (Some "KEY") (Some "POOL") (Some "https://rpc.example.org")
    (Some (5 # 100)) None None.

Definition demo_details : PoolDetails :=
  mkPoolDetails 25 "SOLMINT" "USDCMINT" "SOL" "USDC".

Definition demo_self (lo hi : Z) : Rebalancer :=
  mkRebalancer "POOL" (Some demo_details) lo hi (Some 20%Z).

Definition demo_world (l : Ledger) (lo hi : Z) : World Ledger :=
  mkWorld l demo_env (demo_self lo hi) [].

(** A freshly constructed rebalancer: no pool details, range [0, 0]. *)
Definition fresh_world (l : Ledger) : World Ledger :=
  mkWorld l demo_env (mkRebalancer "POOL" None 0 0 None) [].

(** A ledger whose every call fails with an ordinary RPC error. *)
Definition rpc_down : exn := JsError "503 Service Unavailable".

Definition DownChain : Chain unit := {|
  getBalance _ := fun l => (Throw rpc_down, l);
  getActiveBin _ := fun l => (Throw rpc_down, l);
  getPositionsFromPool _ := fun l => (Throw rpc_down, l);
  jupiterSwap _ _ _ := fun l => (Throw rpc_down, l);
  meteoraAddLiquidity _ _ _ _ := fun l => (Throw rpc_down, l);
  meteoraRemoveLiquidity _ _ := fun l => (Throw rpc_down, l);
  fetchPair _ := fun l => (Throw rpc_down, l);
  sleep _ l := l
|}.

Definition down_world : World unit := mkWorld tt demo_env (demo_self 100 120) [].

(** The same ledger seen through an indexer whose positions query always
    reports [ps], whatever the ledger holds. *)
Definition ShowingChain (ps : list Position) : Chain Ledger := {|
  getBalance := @getBalance _ LedgerChain;
  getActiveBin := @getActiveBin _ LedgerChain;
  getPositionsFromPool _ := fun l => (Ok ps, l);
  jupiterSwap := @jupiterSwap _ LedgerChain;
  meteoraAddLiquidity := @meteoraAddLiquidity _ LedgerChain;
  meteoraRemoveLiquidity := @meteoraRemoveLiquidity _ LedgerChain;
  fetchPair := @fetchPair _ LedgerChain;
  sleep := @sleep _ LedgerChain
|}.

(** A lagging indexer: the positions query never shows a position. *)
Definition LaggingChain : Chain Ledger := ShowingChain [].

(** A position on the bins [[100, 120]]. *)
Definition position_100_120 : Position := mkPosition (mkPositionData 100 120).

(** The same ledger while the positions indexer is down: every positions
    query fails with an ordinary RPC error, every other call works. *)
Definition OutageChain : Chain Ledger := {|
  getBalance := @getBalance _ LedgerChain;
  getActiveBin := @getActiveBin _ LedgerChain;
  getPositionsFromPool _ := fun l => (Throw rpc_down, l);
  jupiterSwap := @jupiterSwap _ LedgerChain;
  meteoraAddLiquidity := @meteoraAddLiquidity _ LedgerChain;
  meteoraRemoveLiquidity := @meteoraRemoveLiquidity _ LedgerChain;
  fetchPair := @fetchPair _ LedgerChain;
  sleep := @sleep _ LedgerChain
|}.

(** A slot holding the position [[100, 120]] with 5 and 10 deposited. *)
Definition slot_100_120 : Slot := mkSlot position_100_120 5 10.

(** The position was closed outside the agent and the metadata endpoint is
    down when the agent re-synchronises. *)
Definition closed_externally : World Ledger :=
  demo_world (demo_ledger 5 10 1 130 []
                [None; None; None; None; None; None; Some (JsError "fetch failed")]) 100 120.

(** The demo environment without the wallet key, and without the range
    fraction. *)
Definition env_no_key : Env :=
  mkEnv None (Some "POOL") (Some "https://rpc.example.org") (Some (5 # 100)) None None.

Definition env_no_range : Env :=
  mkEnv (Some "KEY") (Some "POOL") (Some "https://rpc.example.org") None None None.

(** The demo ledger reports an active bin only at a positive price. *)
Lemma LedgerChain_price_pos pool (l : Ledger) bin l' :
  getActiveBin (Chain := LedgerChain) pool l = (Ok bin, l') -> 0 < pricePerToken bin.
Proof.
  cbn. unfold faulty. destruct (l_faults l) as [|[e|] rest]; cbn; [| discriminate |];
    destruct (Qltb 0 _) eqn:E; intros Hr; try discriminate; injection Hr as <- _;
    apply Qltb_spec; exact E.
Qed.
