(* ===== verification/Retry.v ===== *)
(** * The retry executor: [retry] and [retryGetPositions]

    [retry(fn, retries = 5, delayMs = 5000)] (logger.ts 254-271) runs [fn]
    up to [retries] times with a fixed delay between attempts; an error
    whose message includes ["insufficient funds"] aborts at once with a new
    [Error('Insufficient funds')]; after the last failure the last error is
    rethrown.  [retryGetPositions(retries = 5, delayMs = 5000)]
    (logger.ts 277-299) polls the pool's positions until the list is
    non-empty and returns the last (empty) observation otherwise; it swallows
    every error but the funding one.  Both loops count attempts down, so the
    recursion is structural on the attempts left. *)

From S2P Require Import Prelude Monad Effects DemoLedger.

Local Open Scope Q_scope.
Open Scope rebal_scope.

Section Retry.
Context {L : Type} `{Chain L}.

Definition insufficient_funds (e : exn) : bool :=
  is_error_with e "insufficient funds".

(** [if (attempt < retries - 1) await delay(delayMs)], with [left] the
    attempts left after the current one. *)
Definition delay_if_more (left : nat) (delayMs : Z) : M (World L) unit :=
  if Nat.ltb 0 left then delay delayMs else ret tt.

(** The [for] loop of [retry], from the attempt with [left] attempts to
    go (this one included) and the error seen last. *)
Fixpoint retry_loop {A} (fn : M (World L) A) (delayMs : Z) (left : nat)
    (lastError : exn) : M (World L) A :=
  match left with
  | O => throw lastError
  | S left' =>
      catch fn (fun error =>
        if insufficient_funds error then throw (JsError "Insufficient funds")
        else delay_if_more left' delayMs ;; retry_loop fn delayMs left' error)
  end.

Definition retry {A} (fn : M (World L) A) (retries : nat) (delayMs : Z) : M (World L) A :=
  retry_loop fn delayMs retries JsUndefined.

(** The loop of [retryGetPositions]. *)
Fixpoint retryGetPositions_loop (delayMs : Z) (left : nat) (lastResult : list Position)
    : M (World L) (list Position) :=
  match left with
  | O => ret lastResult
  | S left' =>
      pool <- gets (fun w => poolAddress (self w)) ;;
      outcome <- catch (positions <- meteora_getPositionsFromPool pool ;; ret (Some positions))
                       (fun error => if insufficient_funds error
                                     then throw (JsError "Insufficient funds")
                                     else ret None) ;;
      match outcome with
      | Some positions =>
          if Nat.ltb 0 (length positions) then ret positions
          else delay_if_more left' delayMs ;; retryGetPositions_loop delayMs left' positions
      | None => delay_if_more left' delayMs ;; retryGetPositions_loop delayMs left' lastResult
      end
  end.

Definition retryGetPositions (retries : nat) (delayMs : Z) : M (World L) (list Position) :=
  retryGetPositions_loop delayMs retries [].
End Retry.

(** ** Counting events *)

Definition is_call_event (ev : Event) : bool :=
  match ev with EvCall _ _ => true | _ => false end.

Definition is_delay_event (ev : Event) : bool :=
  match ev with EvDelay _ => true | _ => false end.

Definition count_events (p : Event -> bool) (tr : list Event) : nat :=
  length (List.filter p tr).

Lemma count_events_app p tr1 tr2 :
  count_events p (tr1 ++ tr2) = (count_events p tr1 + count_events p tr2)%nat.
Proof. unfold count_events. rewrite List.filter_app, length_app. reflexivity. Qed.

Lemma count_events_one p ev :
  count_events p [ev] = if p ev then 1%nat else 0%nat.
Proof. unfold count_events. simpl. destruct (p ev); reflexivity. Qed.

(** Close an equation between event counts of traces built by appending. *)
Ltac count_tac :=
  cbn [trace] in *; rewrite ?count_events_app, ?count_events_one; simpl; lia.

(** ** Properties of [retry] *)

Section RetryFacts.
Context {L : Type} `{Chain L}.

Lemma retry_loop_ok {A} (fn : M (World L) A) d n e w a w' :
  fn w = (Ok a, w') -> retry_loop fn d (S n) e w = (Ok a, w').
Proof. intros Hfn. simpl. apply run_catch_ok. exact Hfn. Qed.

Lemma retry_loop_transient {A} (fn : M (World L) A) d n e0 w e w' :
  fn w = (Throw e, w') -> insufficient_funds e = false ->
  retry_loop fn d (S n) e0 w = bind (delay_if_more n d) (fun _ => retry_loop fn d n e) w'.
Proof.
  intros Hfn Hins. simpl. rewrite (run_catch_throw _ _ _ _ _ Hfn), ?Hins.
  reflexivity.
Qed.

(** Functional behaviour on success: when an attempt succeeds, [retry]
    returns its value at once, in the state the attempt left, with no
    further attempt or delay. *)
Theorem retry_success_passthrough {A} (fn : M (World L) A) retries delayMs w a w' :
  (0 < retries)%nat -> fn w = (Ok a, w') ->
  retry fn retries delayMs w = (Ok a, w').
Proof.
  intros Hpos Hfn. destruct retries as [|n]; [lia|].
  apply retry_loop_ok. exact Hfn.
Qed.

(** C14. A failure whose message mentions ["insufficient funds"] aborts
    [retry] after that single attempt, whatever the attempt budget: the
    result is [Error('Insufficient funds')] in the state the attempt left
    (no delay, no further call). *)
Theorem retry_insufficient_funds_aborts {A} (fn : M (World L) A) retries delayMs w e w' :
  (0 < retries)%nat -> fn w = (Throw e, w') -> insufficient_funds e = true ->
  retry fn retries delayMs w = (Throw (JsError "Insufficient funds"), w').
Proof.
  intros Hpos Hfn Hins. destruct retries as [|n]; [lia|].
  unfold retry. simpl. rewrite (run_catch_throw _ _ _ _ _ Hfn), Hins.
  reflexivity.
Qed.
(** A pool that shows positions [p :: ps] to every query: the first poll
    returns them. *)
Lemma retryGetPositions_shows p ps
  (shows : forall pool l, fst (getPositionsFromPool pool l) = Ok (p :: ps))
  n d last (w w' : World L) r :
  retryGetPositions_loop d (S n) last w = (Ok r, w') -> r = p :: ps.
Proof.
  intros Hr. cbn [retryGetPositions_loop] in Hr.
  unfold bind at 1, gets, meteora_getPositionsFromPool in Hr.
  unfold bind, catch in Hr. rewrite ext_run, shows in Hr.
  cbn in Hr. unfold ret in Hr. congruence.
Qed.
End RetryFacts.

(** Exhausting the budget: an operation that fails with an ordinary error
    every time and records exactly one call per attempt. *)
Section Exhaust.
Context {L : Type} `{Chain L} {A : Type} (fn : M (World L) A).

Hypothesis fn_fails : forall w,
  exists e, fst (fn w) = Throw e /\ insufficient_funds e = false.
Hypothesis fn_one_call : forall w,
  exists c b, trace (snd (fn w)) = trace w ++ [EvCall c b].

Lemma delay_if_more_counts n d w :
  count_events is_call_event (trace (snd (delay_if_more n d w))) =
    count_events is_call_event (trace w) /\
  count_events is_delay_event (trace (snd (delay_if_more n d w))) =
    (count_events is_delay_event (trace w) + if Nat.ltb 0 n then 1 else 0)%nat.
Proof.
  unfold delay_if_more. destruct (Nat.ltb 0 n); simpl; split; count_tac.
Qed.

(** C15. Bounded attempts: an operation that keeps failing with an
    ordinary error is attempted exactly [retries] times with
    [retries - 1] delays in between, and [retry] then throws the error
    of the last attempt (the final state is the one that attempt left). *)
Theorem retry_exhausts (n : nat) delayMs w :
  let R := retry fn (S n) delayMs w in
  (exists e wl, fst R = Throw e /\ fn wl = (Throw e, snd R)) /\
  count_events is_call_event (trace (snd R)) =
    (count_events is_call_event (trace w) + S n)%nat /\
  count_events is_delay_event (trace (snd R)) =
    (count_events is_delay_event (trace w) + n)%nat.
Proof.
  unfold retry. generalize JsUndefined as e0.
  revert w. induction n as [|n IH]; intros w e0.
  - destruct (fn_fails w) as [e [He Hins]].
    destruct (fn_one_call w) as [c [b Htr]].
    destruct (fn w) as [r w1] eqn:Hfn. simpl in He, Htr. subst r.
    rewrite (retry_loop_transient _ _ _ _ _ _ _ Hfn Hins). simpl.
    split; [exists e, w; rewrite Hfn; auto|].
    rewrite Htr. count_tac.
  - destruct (fn_fails w) as [e [He Hins]].
    destruct (fn_one_call w) as [c [b Htr]].
    destruct (fn w) as [r w1] eqn:Hfn. simpl in He, Htr. subst r.
    rewrite (retry_loop_transient _ _ _ _ _ _ _ Hfn Hins).
    unfold bind. destruct (delay_if_more (S n) delayMs w1) as [[] w2] eqn:Hd.
    + destruct (IH w2 e) as [Hlast [Hc Hdl]].
      pose proof (delay_if_more_counts (S n) delayMs w1) as [Hc1 Hd1].
      rewrite Hd in Hc1, Hd1. simpl in Hc1, Hd1.
      split; [exact Hlast|]. rewrite Hc, Hdl, Hc1, Hd1, Htr. count_tac.
    + unfold delay_if_more in Hd. simpl in Hd. discriminate.
Qed.
End Exhaust.

(** ** Properties of [retryGetPositions] *)

Section PositionsFacts.
Context {L : Type} `{Chain L}.

(** The ledger never shows a position and never fails on funds. *)
Hypothesis query_empty : forall pool l,
  fst (getPositionsFromPool pool l) = Ok [] \/
  exists e, fst (getPositionsFromPool pool l) = Throw e /\ insufficient_funds e = false.

Lemma retryGetPositions_step d n w :
  exists w1,
    retryGetPositions_loop d (S n) [] w =
      bind (delay_if_more n d) (fun _ => retryGetPositions_loop d n []) w1 /\
    count_events is_call_event (trace w1) = S (count_events is_call_event (trace w)) /\
    count_events is_delay_event (trace w1) = count_events is_delay_event (trace w).
Proof.
  destruct (query_empty (poolAddress (self w)) (ledger w)) as [Hq|[e [Hq Hins]]];
    simpl; unfold meteora_getPositionsFromPool, bind, catch, gets, ret, throw;
    rewrite ext_run, Hq; simpl; rewrite ?Hins;
    (eexists; split; [reflexivity|]; split; count_tac).
Qed.

(** The empty observation is what comes back. *)
Lemma retryGetPositions_empty (n : nat) delayMs w :
  fst (retryGetPositions (S n) delayMs w) = Ok [].
Proof.
  unfold retryGetPositions. revert w. induction n as [|n IH]; intros w.
  - destruct (retryGetPositions_step delayMs 0 w) as [w1 [-> _]]. reflexivity.
  - destruct (retryGetPositions_step delayMs (S n) w) as [w1 [-> _]].
    change (bind (delay_if_more (S n) delayMs) _ w1)
      with (retryGetPositions_loop delayMs (S n) []
              (mkWorld (sleep delayMs (ledger w1)) (env w1) (self w1)
                 (trace w1 ++ [EvDelay delayMs]))).
    apply IH.
Qed.

(** [retryGetPositions] returns the last, empty, observation instead
    of failing: when every query reports no position or fails with an
    ordinary error, it queries exactly [retries] times with
    [retries - 1] delays and returns the empty list. *)
Theorem retryGetPositions_exhausts (n : nat) delayMs w :
  let R := retryGetPositions (S n) delayMs w in
  fst R = Ok [] /\
  count_events is_call_event (trace (snd R)) =
    (count_events is_call_event (trace w) + S n)%nat /\
  count_events is_delay_event (trace (snd R)) =
    (count_events is_delay_event (trace w) + n)%nat.
Proof.
  unfold retryGetPositions. revert w.
  induction n as [|n IH]; intros w.
  - destruct (retryGetPositions_step delayMs 0 w) as [w1 [-> [Hc Hd]]].
    simpl. split; [reflexivity|]. lia.
  - destruct (retryGetPositions_step delayMs (S n) w) as [w1 [-> [Hc Hd]]].
    set (w2 := mkWorld (sleep delayMs (ledger w1)) (env w1) (self w1)
                 (trace w1 ++ [EvDelay delayMs])).
    change (bind (delay_if_more (S n) delayMs) _ w1)
      with (retryGetPositions_loop delayMs (S n) [] w2).
    destruct (IH w2) as [Hr [Hc' Hd']].
    split; [exact Hr|]. rewrite Hc', Hd'. subst w2. cbn [trace].
    rewrite !count_events_app, !count_events_one. simpl. lia.
Qed.
End PositionsFacts.

(** ** Witnesses *)

#[local] Existing Instance DownChain.

Lemma retry_success_passthrough_witness :
  retry (meteora_getActiveBin "POOL") 5 5000 (demo_world (demo_ledger 10 0 1 110 [] []) 100 120)
  = (Ok (mkBin 110 2), mkWorld (demo_ledger 10 0 1 110 [] []) demo_env (demo_self 100 120)
                         [EvCall (CGetActiveBin "POOL") true]).
Proof.
  apply retry_success_passthrough; [lia | reflexivity].
Defined.

Lemma retry_insufficient_funds_aborts_witness :
  retry (jupiter_swap "SOLMINT" "USDCMINT" 50) 5 5000 (demo_world (demo_ledger 10 0 1 110 [] []) 100 120)
  = (Throw (JsError "Insufficient funds"),
     mkWorld (demo_ledger 10 0 1 110 [] []) demo_env (demo_self 100 120)
       [EvCall (CSwap "SOLMINT" "USDCMINT" 50) false]).
Proof.
  apply (retry_insufficient_funds_aborts _ _ _ _ insufficient); [lia | reflexivity | reflexivity].
Defined.

Lemma retry_exhausts_witness :
  let R := retry (meteora_getActiveBin "POOL") 5 5000 down_world in
  (exists e wl, fst R = Throw e /\ meteora_getActiveBin "POOL" wl = (Throw e, snd R)) /\
  count_events is_call_event (trace (snd R)) = 5%nat /\
  count_events is_delay_event (trace (snd R)) = 4%nat.
Proof.
  apply (retry_exhausts (H := DownChain) (meteora_getActiveBin "POOL")).
  - intros w. exists rpc_down. split; reflexivity.
  - intros w. do 2 eexists. reflexivity.
Defined.

Lemma retryGetPositions_exhausts_witness :
  let R := retryGetPositions (L := unit) 3 5000 down_world in
  fst R = Ok [] /\
  count_events is_call_event (trace (snd R)) = 3%nat /\
  count_events is_delay_event (trace (snd R)) = 2%nat.
Proof.
  apply (retryGetPositions_exhausts (H := DownChain)).
  intros pool l. right. exists rpc_down. split; reflexivity.
Defined.
