(* ===== verification/Trace.v ===== *)
(** * Reasoning about the events a computation appends

    [emits P c] says that, from any world, [c] only appends events that
    satisfy [P] to the trace.  The lemmas follow the structure of the
    monad ([bind], [catch], branches) and of the wrappers and loops
    ([ext], [delay], [retry], [retryGetPositions]), so that a statement
    like "this operation makes no swap and no liquidity change" is proved
    by [emits_tac] following the code.  The event classes used by the
    ordering theorems are defined here, and the counting of successful
    add-liquidity calls: [adds_spec n P c] (at most [n] adds, and an error
    thrown after an add satisfies [P]) with its rules for [bind] and
    [catch], and [throws_only P c] for the errors a computation throws. *)

From S2P Require Import Prelude Monad Effects Retry.

Local Open Scope Q_scope.
Open Scope rebal_scope.

(** ** Classes of events *)

(** A call that moves funds: swap, add or remove liquidity. *)
Definition moves_funds (ev : Event) : bool :=
  match ev with
  | EvCall (CSwap _ _ _) _ | EvCall (CAddLiquidity _ _ _ _) _
  | EvCall (CRemoveLiquidity _) _ => true
  | _ => false
  end.

(** A call that puts funds to a new use: swap or add liquidity. *)
Definition swaps_or_adds (ev : Event) : bool :=
  match ev with
  | EvCall (CSwap _ _ _) _ | EvCall (CAddLiquidity _ _ _ _) _ => true
  | _ => false
  end.

Section Emits.
Context {L : Type} `{Chain L}.

Definition emits {A} (P : Event -> Prop) (c : M (World L) A) : Prop :=
  forall w, exists sfx, trace (snd (c w)) = trace w ++ sfx /\ Forall P sfx.

Lemma emits_ret {A} P (a : A) : emits P (ret a).
Proof. intros w. exists []. split; [by rewrite app_nil_r | constructor]. Qed.

Lemma emits_throw {A} P e : emits P (@throw _ A e).
Proof. intros w. exists []. split; [by rewrite app_nil_r | constructor]. Qed.

Lemma emits_gets {A} P (f : World L -> A) : emits P (gets f).
Proof. intros w. exists []. split; [by rewrite app_nil_r | constructor]. Qed.

Lemma emits_this P : emits P this.
Proof. apply emits_gets. Qed.

Lemma emits_poolDetails P : emits P poolDetails.
Proof.
  intros w. unfold poolDetails. exists [].
  destruct (_poolDetails (self w)); (split; [by rewrite app_nil_r | constructor]).
Qed.

Lemma emits_update_this P f : emits P (update_this f).
Proof. intros w. exists []. split; [by rewrite app_nil_r | constructor]. Qed.

Lemma emits_emit (P : Event -> Prop) ev : P ev -> emits P (emit ev).
Proof. intros HP w. exists [ev]. split; [reflexivity | by constructor]. Qed.

Lemma emits_ext {A} (P : Event -> Prop) c (op : M L A) :
  (forall b, P (EvCall c b)) -> emits P (ext c op).
Proof.
  intros HP w. rewrite ext_run. exists [EvCall c (is_ok (fst (op (ledger w))))].
  split; [reflexivity | by constructor].
Qed.

Lemma emits_delay (P : Event -> Prop) ms : P (EvDelay ms) -> emits P (delay ms).
Proof. intros HP w. exists [EvDelay ms]. split; [reflexivity | by constructor]. Qed.

Lemma emits_bind {A B} P (c : M (World L) A) (f : A -> M (World L) B) :
  emits P c -> (forall a, emits P (f a)) -> emits P (bind c f).
Proof.
  intros Hc Hf w. unfold bind. destruct (Hc w) as [s1 [E1 F1]].
  destruct (c w) as [[a|e] w1]; simpl in *.
  - destruct (Hf a w1) as [s2 [E2 F2]]. exists (s1 ++ s2).
    split; [by rewrite E2, E1, <- app_assoc | by apply Forall_app].
  - exists s1. split; assumption.
Qed.

Lemma emits_catch {A} P (c : M (World L) A) h :
  emits P c -> (forall e, emits P (h e)) -> emits P (catch c h).
Proof.
  intros Hc Hh w. unfold catch. destruct (Hc w) as [s1 [E1 F1]].
  destruct (c w) as [[a|e] w1]; simpl in *.
  - exists s1. split; assumption.
  - destruct (Hh e w1) as [s2 [E2 F2]]. exists (s1 ++ s2).
    split; [by rewrite E2, E1, <- app_assoc | by apply Forall_app].
Qed.

Lemma emits_weaken {A} (P Q : Event -> Prop) (c : M (World L) A) :
  (forall ev, P ev -> Q ev) -> emits P c -> emits Q c.
Proof.
  intros HPQ Hc w. destruct (Hc w) as [s [E F]]. exists s.
  split; [exact E | eapply Forall_impl; eauto].
Qed.

Lemma emits_delay_if_more (P : Event -> Prop) n d :
  P (EvDelay d) -> emits P (delay_if_more n d).
Proof.
  intros HP. unfold delay_if_more. destruct (Nat.ltb 0 n);
    [apply emits_delay; exact HP | apply emits_ret].
Qed.

Lemma emits_retry {A} (P : Event -> Prop) (fn : M (World L) A) n d e :
  emits P fn -> P (EvDelay d) -> emits P (retry_loop fn d n e).
Proof.
  intros Hfn Hd. revert e. induction n as [|n IH]; intros e; simpl.
  - apply emits_throw.
  - apply emits_catch; [exact Hfn|]. intros e'.
    destruct (insufficient_funds e'); [apply emits_throw|].
    apply emits_bind; [apply emits_delay_if_more; exact Hd | intros; apply IH].
Qed.

Lemma emits_retryGetPositions (P : Event -> Prop) n d last :
  (forall pool b, P (EvCall (CGetPositions pool) b)) -> P (EvDelay d) ->
  emits P (retryGetPositions_loop d n last).
Proof.
  intros Hq Hd. revert last. induction n as [|n IH]; intros last; simpl.
  - apply emits_ret.
  - apply emits_bind; [apply emits_gets|]. intros pool.
    apply emits_bind.
    + apply emits_catch.
      * apply emits_bind; [apply emits_ext; auto | intros; apply emits_ret].
      * intros e. destruct (insufficient_funds e); [apply emits_throw | apply emits_ret].
    + intros [ps|].
      * destruct (Nat.ltb 0 (length ps)); [apply emits_ret|].
        apply emits_bind; [apply emits_delay_if_more; exact Hd | intros; apply IH].
      * apply emits_bind; [apply emits_delay_if_more; exact Hd | intros; apply IH].
Qed.
End Emits.

Ltac head_of t := match t with ?f _ => head_of f | _ => t end.

(** Follow the code: split binds and catches, case on tests and results,
    and discharge the leaves with the lemmas above. *)
Ltac emits_tac :=
  repeat match goal with
  | |- emits _ (bind _ _) => apply emits_bind; [|intros]
  | |- emits _ (catch _ _) => apply emits_catch; [|intros]
  | |- emits _ (ret _) => apply emits_ret
  | |- emits _ (throw _) => apply emits_throw
  | |- emits _ (gets _) => apply emits_gets
  | |- emits _ this => apply emits_this
  | |- emits _ process_env => apply emits_gets
  | |- emits _ poolDetails => apply emits_poolDetails
  | |- emits _ (update_this _) => apply emits_update_this
  | |- emits _ (emit _) => apply emits_emit
  | |- emits _ (sendAlert _ _) => apply emits_emit
  | |- emits _ (log _) => apply emits_emit
  | |- emits _ (delay _) => apply emits_delay
  | |- emits _ (ext _ _) => apply emits_ext; intros
  | |- emits _ (retry _ _ _) => apply emits_retry
  | |- emits _ (retryGetPositions _ _) => apply emits_retryGetPositions; intros
  | |- emits _ (if ?b then _ else _) => destruct b
  | |- emits _ (match ?x with _ => _ end) => destruct x
  | |- emits _ (let _ := _ in _) => cbv zeta
  | |- emits _ ?c => let h := head_of c in progress unfold h
  end.

(** ** What one run appends, using the values earlier steps returned *)

Section EmitsAt.
Context {L : Type} `{Chain L}.

Definition emits_at {A} (P : Event -> Prop) (c : M (World L) A) (w : World L) : Prop :=
  exists sfx, trace (snd (c w)) = trace w ++ sfx /\ Forall P sfx.

Lemma emits_at_of {A} P (c : M (World L) A) w : emits P c -> emits_at P c w.
Proof. intros Hc. exact (Hc w). Qed.

Lemma emits_at_bind {A B} P (c : M (World L) A) (f : A -> M (World L) B) w :
  emits_at P c w -> (forall a w1, c w = (Ok a, w1) -> emits_at P (f a) w1) ->
  emits_at P (bind c f) w.
Proof.
  intros [s1 [E1 F1]] Hf. unfold emits_at, bind. destruct (c w) as [[a|e] w1] eqn:Ec; simpl in *.
  - destruct (Hf a w1 eq_refl) as [s2 [E2 F2]]. exists (s1 ++ s2).
    split; [by rewrite E2, E1, <- app_assoc | by apply Forall_app].
  - exists s1. split; assumption.
Qed.

Lemma emits_at_catch {A} P (c : M (World L) A) h w :
  emits_at P c w -> (forall e w1, c w = (Throw e, w1) -> emits_at P (h e) w1) ->
  emits_at P (catch c h) w.
Proof.
  intros [s1 [E1 F1]] Hh. unfold emits_at, catch. destruct (c w) as [[a|e] w1] eqn:Ec; simpl in *.
  - exists s1. split; assumption.
  - destruct (Hh e w1 eq_refl) as [s2 [E2 F2]]. exists (s1 ++ s2).
    split; [by rewrite E2, E1, <- app_assoc | by apply Forall_app].
Qed.
End EmitsAt.

Lemma run_emits {L} `{Chain L} {A} (P : Event -> Prop) (c : M (World L) A) w r w1 :
  emits P c -> c w = (r, w1) -> exists s, trace w1 = trace w ++ s /\ Forall P s.
Proof. intros Hc Hr. destruct (Hc w) as [s [E F]]. rewrite Hr in E. eauto. Qed.

(** From a run [H : c w = (r, w1)], the suffix [c] appended and that its
    events satisfy [P]. *)
Ltac emits_of H P :=
  let s := fresh "s" in let E := fresh "Etr" in let F := fresh "F" in
  apply (run_emits P) in H as [s [E F]]; [|emits_tac; try reflexivity].

#[export] Hint Resolve emits_ret emits_throw emits_gets emits_this emits_poolDetails
  emits_update_this : rebal.

(** ** Computations that leave the object's fields unchanged *)

Section Keeps.
Context {L : Type} `{Chain L}.

Definition keeps_self {A} (c : M (World L) A) : Prop :=
  forall w, self (snd (c w)) = self w.

Lemma keeps_ret {A} (a : A) : keeps_self (ret a).
Proof. intros w. reflexivity. Qed.

Lemma keeps_throw {A} e : keeps_self (@throw _ A e).
Proof. intros w. reflexivity. Qed.

Lemma keeps_gets {A} (f : World L -> A) : keeps_self (gets f).
Proof. intros w. reflexivity. Qed.

Lemma keeps_poolDetails : keeps_self poolDetails.
Proof. intros w. unfold poolDetails. destruct (_poolDetails (self w)); reflexivity. Qed.

Lemma keeps_emit ev : keeps_self (emit ev).
Proof. intros w. reflexivity. Qed.

Lemma keeps_ext {A} c (op : M L A) : keeps_self (ext c op).
Proof. intros w. apply ext_self. Qed.

Lemma keeps_delay ms : keeps_self (delay ms).
Proof. intros w. reflexivity. Qed.

Lemma keeps_bind {A B} (c : M (World L) A) (f : A -> M (World L) B) :
  keeps_self c -> (forall a, keeps_self (f a)) -> keeps_self (bind c f).
Proof.
  intros Hc Hf w. unfold bind. specialize (Hc w).
  destruct (c w) as [[a|e] w1]; simpl in *; [rewrite Hf|]; exact Hc.
Qed.

Lemma keeps_catch {A} (c : M (World L) A) h :
  keeps_self c -> (forall e, keeps_self (h e)) -> keeps_self (catch c h).
Proof.
  intros Hc Hh w. unfold catch. specialize (Hc w).
  destruct (c w) as [[a|e] w1]; simpl in *; [|rewrite Hh]; exact Hc.
Qed.

Lemma keeps_delay_if_more n d : keeps_self (delay_if_more n d).
Proof. unfold delay_if_more. destruct (Nat.ltb 0 n); [apply keeps_delay | apply keeps_ret]. Qed.

Lemma keeps_retry {A} (fn : M (World L) A) n d e :
  keeps_self fn -> keeps_self (retry_loop fn d n e).
Proof.
  intros Hfn. revert e. induction n as [|n IH]; intros e; simpl; [apply keeps_throw|].
  apply keeps_catch; [exact Hfn|]. intros e'.
  destruct (insufficient_funds e'); [apply keeps_throw|].
  apply keeps_bind; [apply keeps_delay_if_more | intros; apply IH].
Qed.

Lemma keeps_retryGetPositions n d last : keeps_self (retryGetPositions_loop d n last).
Proof.
  revert last. induction n as [|n IH]; intros last; simpl; [apply keeps_ret|].
  apply keeps_bind; [apply keeps_gets|]. intros pool.
  apply keeps_bind.
  - apply keeps_catch.
    + apply keeps_bind; [apply keeps_ext | intros; apply keeps_ret].
    + intros e. destruct (insufficient_funds e); [apply keeps_throw | apply keeps_ret].
  - intros [ps|]; [destruct (Nat.ltb 0 (length ps)); [apply keeps_ret|]|];
      (apply keeps_bind; [apply keeps_delay_if_more | intros; apply IH]).
Qed.

(** A retried collaborator call that returns ends with its one successful
    call. *)
Lemma retry_ext_ok_last {A} c (op : M L A) d n e w a w' :
  retry_loop (ext c op) d n e w = (Ok a, w') ->
  exists sfx, trace w' = trace w ++ sfx ++ [EvCall c true].
Proof.
  revert e w. induction n as [|n IH]; intros e w Hr; simpl in Hr; [discriminate|].
  unfold catch in Hr. rewrite ext_run in Hr.
  destruct (op (ledger w)) as [[a'|e'] l'] eqn:E; simpl in Hr.
  - injection Hr as <- <-. exists []. reflexivity.
  - destruct (insufficient_funds e'); [discriminate|].
    unfold bind, delay_if_more in Hr. destruct (Nat.ltb 0 n); simpl in Hr;
      destruct (IH _ _ Hr) as [sfx Hs]; simpl in Hs.
    + exists ([EvCall c false; EvDelay d] ++ sfx). rewrite Hs, <- !app_assoc. reflexivity.
    + exists (EvCall c false :: sfx). rewrite Hs, <- !app_assoc. reflexivity.
Qed.

(** A retried collaborator call returns what one of its calls returned. *)
Lemma retry_ext_ok_result {A} c (op : M L A) d n e w a w' :
  retry_loop (ext c op) d n e w = (Ok a, w') -> exists l l', op l = (Ok a, l').
Proof.
  revert e w. induction n as [|n IH]; intros e w Hr; simpl in Hr; [discriminate|].
  unfold catch in Hr. rewrite ext_run in Hr.
  destruct (op (ledger w)) as [[a'|e'] l'] eqn:E; simpl in Hr.
  - injection Hr as <- _. eauto.
  - destruct (insufficient_funds e'); [discriminate|].
    unfold bind, delay_if_more in Hr. destruct (Nat.ltb 0 n); simpl in Hr; exact (IH _ _ Hr).
Qed.

(** A retried collaborator call that returns has made a successful call. *)
Lemma retry_ext_ok_event {A} c (op : M L A) d n e w a w' :
  retry_loop (ext c op) d n e w = (Ok a, w') ->
  exists sfx, trace w' = trace w ++ sfx /\ In (EvCall c true) sfx.
Proof.
  intros Hr. apply retry_ext_ok_last in Hr as [sfx Hs].
  exists (sfx ++ [EvCall c true]). split; [exact Hs|].
  apply in_or_app. right. left. reflexivity.
Qed.
End Keeps.

Ltac keeps_tac :=
  repeat match goal with
  | |- keeps_self (bind _ _) => apply keeps_bind; [|intros]
  | |- keeps_self (catch _ _) => apply keeps_catch; [|intros]
  | |- keeps_self (ret _) => apply keeps_ret
  | |- keeps_self (throw _) => apply keeps_throw
  | |- keeps_self (gets _) => apply keeps_gets
  | |- keeps_self this => apply keeps_gets
  | |- keeps_self process_env => apply keeps_gets
  | |- keeps_self poolDetails => apply keeps_poolDetails
  | |- keeps_self (emit _) => apply keeps_emit
  | |- keeps_self (sendAlert _ _) => apply keeps_emit
  | |- keeps_self (log _) => apply keeps_emit
  | |- keeps_self (delay _) => apply keeps_delay
  | |- keeps_self (ext _ _) => apply keeps_ext
  | |- keeps_self (retry _ _ _) => apply keeps_retry
  | |- keeps_self (retryGetPositions _ _) => apply keeps_retryGetPositions
  | |- keeps_self (if ?b then _ else _) => destruct b
  | |- keeps_self (match ?x with _ => _ end) => destruct x
  | |- keeps_self (let _ := _ in _) => cbv zeta
  | |- keeps_self ?c => let h := head_of c in progress unfold h
  end.

(** ** Counting the positions a computation opens *)

(** A successful add-liquidity call. *)
Definition is_add_ok (ev : Event) : bool :=
  match ev with EvCall (CAddLiquidity _ _ _ _) ok => ok | _ => false end.

Definition no_add (ev : Event) : Prop := is_add_ok ev = false.

Definition adds (s : list Event) : nat := count_events is_add_ok s.

Lemma adds_app s t : adds (s ++ t) = (adds s + adds t)%nat.
Proof. apply count_events_app. Qed.

Lemma adds_none s : Forall no_add s -> adds s = 0%nat.
Proof.
  induction 1 as [|ev s Hev _ IH]; [reflexivity|].
  unfold adds, count_events in *. simpl. unfold no_add in Hev. now rewrite Hev.
Qed.

Section Adds.
Context {L : Type} `{Chain L}.

(** [c] appends at most [n] successful adds, and an error it throws after
    one of them satisfies [P]. *)
Definition adds_spec {A} (n : nat) (P : exn -> Prop) (c : M (World L) A) : Prop :=
  forall w, exists s, trace (snd (c w)) = trace w ++ s /\ (adds s <= n)%nat /\
    (forall e, fst (c w) = Throw e -> adds s = 0%nat \/ P e).

(** Every error [c] throws satisfies [P]. *)
Definition throws_only {A} (P : exn -> Prop) (c : M (World L) A) : Prop :=
  forall w e, fst (c w) = Throw e -> P e.

Lemma adds_spec_emits {A} n P (c : M (World L) A) : emits no_add c -> adds_spec n P c.
Proof.
  intros Hc w. destruct (Hc w) as [s [E F]]. exists s. rewrite (adds_none _ F).
  split; [exact E|]. split; [lia|]. intros; left; reflexivity.
Qed.

(** A first step that opens nothing. *)
Lemma adds_spec_bind0 {A B} n P (c : M (World L) A) (f : A -> M (World L) B) :
  emits no_add c -> (forall a, adds_spec n P (f a)) -> adds_spec n P (bind c f).
Proof.
  intros Hc Hf w. destruct (Hc w) as [s1 [E1 F1]]. pose proof (adds_none _ F1) as A1.
  unfold bind. destruct (c w) as [[a|e] w1] eqn:Ec; simpl in E1 |- *.
  - destruct (Hf a w1) as [s2 [E2 [A2 T2]]]. exists (s1 ++ s2).
    rewrite E2, E1, app_assoc. split; [reflexivity|]. rewrite adds_app, A1.
    split; [lia|]. intros e He. destruct (T2 e He) as [Z|Pe]; [left; lia | right; exact Pe].
  - exists s1. split; [exact E1|]. rewrite A1. split; [lia|]. intros; left; reflexivity.
Qed.

(** A step that opens at most one position, followed by steps that open
    none and throw only [P]-errors. *)
Lemma adds_spec_bind_last {A B} (Pc P : exn -> Prop) (c : M (World L) A) (f : A -> M (World L) B) :
  adds_spec 1 Pc c -> (forall e, Pc e -> P e) ->
  (forall a, emits no_add (f a)) -> (forall a, throws_only P (f a)) ->
  adds_spec 1 P (bind c f).
Proof.
  intros Hc HP Hf Ht w. destruct (Hc w) as [s1 [E1 [A1 T1]]].
  unfold bind. destruct (c w) as [[a|e] w1] eqn:Ec; simpl in E1, T1 |- *.
  - destruct (Hf a w1) as [s2 [E2 F2]]. exists (s1 ++ s2). rewrite E2, E1, app_assoc.
    split; [reflexivity|]. rewrite adds_app, (adds_none _ F2). split; [lia|].
    intros e He. right. exact (Ht a w1 e He).
  - exists s1. split; [exact E1|]. split; [exact A1|]. intros e' He'. injection He' as <-.
    destruct (T1 e eq_refl) as [Z|Pe]; [left; exact Z | right; exact (HP e Pe)].
Qed.

(** [try c catch h] adds at most once when the handler adds at most once
    and adds nothing after the errors [Pc] that [c] may throw once it has
    added. *)
Lemma adds_spec_catch {A} (Pc P : exn -> Prop) (c : M (World L) A) (h : exn -> M (World L) A) :
  adds_spec 1 Pc c -> (forall e, Pc e -> emits no_add (h e)) ->
  (forall e, adds_spec 1 P (h e)) ->
  adds_spec 1 (fun _ => True) (catch c h).
Proof.
  intros Hc Hno Hh w. destruct (Hc w) as [s1 [E1 [A1 T1]]].
  unfold catch. destruct (c w) as [[a|e] w1] eqn:Ec; simpl in E1, T1 |- *.
  - exists s1. auto.
  - destruct (T1 e eq_refl) as [Z|Pe].
    + destruct (Hh e w1) as [s2 [E2 [A2 _]]]. exists (s1 ++ s2).
      rewrite E2, E1, app_assoc, adds_app, Z. auto.
    + destruct (Hno e Pe w1) as [s2 [E2 F2]]. exists (s1 ++ s2).
      rewrite E2, E1, app_assoc, adds_app, (adds_none _ F2). split; [reflexivity|]. split; [lia|auto].
Qed.

(** Sequencing adds the bounds. *)
Lemma adds_spec_bind_sum {A B} m n (c : M (World L) A) (f : A -> M (World L) B) :
  adds_spec m (fun _ => True) c -> (forall a, adds_spec n (fun _ => True) (f a)) ->
  adds_spec (m + n) (fun _ => True) (bind c f).
Proof.
  intros Hc Hf w. destruct (Hc w) as [s1 [E1 [A1 _]]].
  unfold bind. destruct (c w) as [[a|e] w1] eqn:Ec; simpl in E1 |- *.
  - destruct (Hf a w1) as [s2 [E2 [A2 _]]]. exists (s1 ++ s2).
    rewrite E2, E1, app_assoc, adds_app. split; [reflexivity|]. split; [lia|auto].
  - exists s1. split; [exact E1|]. split; [lia|auto].
Qed.

(** A handler that adds nothing keeps the bound. *)
Lemma adds_spec_catch_emits {A} n (c : M (World L) A) (h : exn -> M (World L) A) :
  adds_spec n (fun _ => True) c -> (forall e, emits no_add (h e)) ->
  adds_spec n (fun _ => True) (catch c h).
Proof.
  intros Hc Hh w. destruct (Hc w) as [s1 [E1 [A1 _]]].
  unfold catch. destruct (c w) as [[a|e] w1] eqn:Ec; simpl in E1 |- *.
  - exists s1. auto.
  - destruct (Hh e w1) as [s2 [E2 F2]]. exists (s1 ++ s2).
    rewrite E2, E1, app_assoc, adds_app, (adds_none _ F2). split; [reflexivity|]. split; [lia|auto].
Qed.

Lemma throws_only_ret {A} P (a : A) : throws_only P (ret a).
Proof. intros w e E. discriminate E. Qed.

Lemma throws_only_throw {A} (P : exn -> Prop) e : P e -> throws_only P (@throw _ A e).
Proof. intros Pe w e' E. injection E as <-. exact Pe. Qed.

Lemma throws_only_modify P f : throws_only P (@modify (World L) f).
Proof. intros w e E. discriminate E. Qed.

Lemma throws_only_gets {A} P (f : World L -> A) : throws_only P (gets f).
Proof. intros w e E. discriminate E. Qed.

Lemma throws_only_delay P ms : throws_only P (delay ms).
Proof. intros w e E. discriminate E. Qed.

Lemma throws_only_bind {A B} P (c : M (World L) A) (f : A -> M (World L) B) :
  throws_only P c -> (forall a, throws_only P (f a)) -> throws_only P (bind c f).
Proof.
  intros Hc Hf w e. unfold bind. destruct (c w) as [[a|e0] w1] eqn:Ec; simpl.
  - apply Hf.
  - intros E. injection E as <-. apply (Hc w). now rewrite Ec.
Qed.

(** Errors of the protected block are caught: only the handler's count. *)
Lemma throws_only_catch {A} P (c : M (World L) A) h :
  (forall e, throws_only P (h e)) -> throws_only P (catch c h).
Proof.
  intros Hh w e. unfold catch. destruct (c w) as [[a|e0] w1]; simpl; [discriminate|].
  apply Hh.
Qed.
End Adds.

Ltac throws_tac :=
  repeat match goal with
  | |- throws_only _ (bind _ _) => apply throws_only_bind; [|intros]
  | |- throws_only _ (catch _ _) => apply throws_only_catch; intros
  | |- throws_only _ (ret _) => apply throws_only_ret
  | |- throws_only _ (throw _) => apply throws_only_throw
  | |- throws_only _ (gets _) => apply throws_only_gets
  | |- throws_only _ this => apply throws_only_gets
  | |- throws_only _ process_env => apply throws_only_gets
  | |- throws_only _ (update_this _) => apply throws_only_modify
  | |- throws_only _ (emit _) => apply throws_only_modify
  | |- throws_only _ (sendAlert _ _) => apply throws_only_modify
  | |- throws_only _ (log _) => apply throws_only_modify
  | |- throws_only _ (delay _) => apply throws_only_delay
  | |- throws_only _ (if ?b then _ else _) => destruct b
  | |- throws_only _ (match ?x with _ => _ end) => destruct x
  | |- throws_only _ ?c => let h := head_of c in progress unfold h
  end.

Section RetryAdds.
Context {L : Type} `{Chain L}.

Lemma adds_call_false c : adds [EvCall c false] = 0%nat.
Proof. destruct c; reflexivity. Qed.

Lemma adds_call_false_delay c d : adds [EvCall c false; EvDelay d] = 0%nat.
Proof. destruct c; reflexivity. Qed.

(** A retried collaborator call makes at most one successful call, and
    none when it ends by throwing. *)
Lemma retry_ext_adds {A} c (op : M L A) d n e :
  adds_spec 1 (fun _ => False) (retry_loop (ext c op) d n e).
Proof.
  revert e. induction n as [|n IH]; intros e w; simpl.
  - exists []. rewrite app_nil_r. split; [reflexivity|]. split; [rewrite ?adds_app, ?adds_call_false; unfold adds, count_events in *; simpl; lia|].
    intros; left; reflexivity.
  - unfold catch. rewrite ext_run. destruct (op (ledger w)) as [[a'|e'] l'] eqn:E; simpl.
    + exists [EvCall c true]. split; [reflexivity|]. split.
      * unfold adds, count_events. destruct c; simpl; lia.
      * intros e0 He0. discriminate He0.
    + destruct (insufficient_funds e').
      * exists [EvCall c false]. split; [reflexivity|]. rewrite adds_call_false.
        split; [lia|]. intros; left; reflexivity.
      * unfold bind, delay_if_more. destruct (Nat.ltb 0 n); simpl;
          match goal with
          | |- context [retry_loop (ext c op) d n e' ?w2] =>
              destruct (IH e' w2) as [s' [E' [A' T']]]; cbn [trace] in E'
          end.
        -- exists ([EvCall c false; EvDelay d] ++ s').
           split; [rewrite E', <- !app_assoc; reflexivity|].
           rewrite adds_app, adds_call_false_delay. split; [lia|].
           intros e0 He0. destruct (T' e0 He0) as [Z|[]]. left. lia.
        -- exists ([EvCall c false] ++ s').
           split; [rewrite E', <- !app_assoc; reflexivity|].
           rewrite adds_app, adds_call_false. split; [lia|].
           intros e0 He0. destruct (T' e0 He0) as [Z|[]]. left. lia.
Qed.

(** The positions poll throws only ["Insufficient funds"]: every other
    failure of the query is caught. *)
Lemma retryGetPositions_throws n d last :
  throws_only (fun e => e = JsError "Insufficient funds") (retryGetPositions_loop d n last).
Proof.
  revert last. induction n as [|n IH]; intros last; cbn [retryGetPositions_loop]; throws_tac;
    try reflexivity; try apply IH.
Qed.
End RetryAdds.
