(* ===== verification/Balances.v ===== *)
(** * The balance accessor: [getUsableBalances]

    [getUsableBalances] (logger.ts 230-248) reads the wallet's balance of
    both pool mints and returns a JavaScript object keyed by asset symbol;
    for the asset whose symbol is ["sol"] case-insensitively, the fee buffer
    [NATIVE_TOKEN_FEE_BUFFER] is subtracted and the result floored at 0.
    The object is a [gmap string Q] built by the same two assignments, in
    the same order, so that two equal symbols alias one key as they do in
    JavaScript. *)

From S2P Require Import Prelude Monad Effects DemoLedger.

Local Open Scope Q_scope.
Open Scope rebal_scope.

(** [String.prototype.toLowerCase] on ASCII. *)
Definition ascii_to_lower (c : ascii) : ascii :=
  let n := nat_of_ascii c in
  if (Nat.leb 65 n && Nat.leb n 90)%bool then ascii_of_nat (n + 32) else c.

Fixpoint to_lower (s : string) : string :=
  match s with
  | EmptyString => EmptyString
  | String c s' => String (ascii_to_lower c) (to_lower s')
  end.

(** [symbol.toLowerCase() === 'sol'] *)
Definition is_native_symbol (sym : string) : bool :=
  String.eqb (to_lower sym) "sol".

(** The amount kept usable for one asset. *)
Definition usable_amount (isNative : bool) (buffer raw : Q) : Q :=
  if isNative then Qmax0 (raw - buffer) else raw.

(** The [result] object of [getUsableBalances] (lines 234-245). *)
Definition usable_of (d : PoolDetails) (buffer a b : Q) : gmap string Q :=
  let isAssetANative := is_native_symbol (assetASymbol d) in
  let isAssetBNative := is_native_symbol (assetBSymbol d) in
  <[assetBSymbol d := usable_amount isAssetBNative buffer b]>
    (<[assetASymbol d := usable_amount isAssetANative buffer a]> ∅).

Section Accessor.
Context {L : Type} `{Chain L}.

(** [getUsableBalances()] *)
Definition getUsableBalances : M (World L) (gmap string Q) :=
  d <- poolDetails ;;
  assetABalance <- wallet_getBalance (Some (assetAMintAddress d)) ;;
  assetBBalance <- wallet_getBalance (Some (assetBMintAddress d)) ;;
  e <- process_env ;;
  ret (usable_of d (NATIVE_TOKEN_FEE_BUFFER e) assetABalance assetBBalance).

(** [balances[symbol]] read as a number (both keys are always present). *)
Definition balance_of (m : gmap string Q) (sym : string) : Q :=
  default 0 (m !! sym).
End Accessor.

(** ** Lookups in the usable-balance object *)

Lemma usable_of_B d buffer a b :
  usable_of d buffer a b !! assetBSymbol d =
    Some (usable_amount (is_native_symbol (assetBSymbol d)) buffer b).
Proof. unfold usable_of. by rewrite lookup_insert_eq. Qed.

Lemma usable_of_A d buffer a b :
  assetASymbol d <> assetBSymbol d ->
  usable_of d buffer a b !! assetASymbol d =
    Some (usable_amount (is_native_symbol (assetASymbol d)) buffer a).
Proof.
  intros Hne. unfold usable_of. rewrite lookup_insert_ne by congruence.
  by rewrite lookup_insert_eq.
Qed.

#[export] Hint Rewrite usable_of_B : rebal_rw.

(** A run of [getUsableBalances] with pool details and two successful
    balance reads. *)
Lemma run_getUsableBalances {L} `{Chain L} (w : World L) d a b l1 l2 :
  _poolDetails (self w) = Some d ->
  getBalance (Some (assetAMintAddress d)) (ledger w) = (Ok a, l1) ->
  getBalance (Some (assetBMintAddress d)) l1 = (Ok b, l2) ->
  getUsableBalances w =
    (Ok (usable_of d (NATIVE_TOKEN_FEE_BUFFER (env w)) a b),
     mkWorld l2 (env w) (self w)
       (trace w ++ [EvCall (CGetBalance (Some (assetAMintAddress d))) true;
                    EvCall (CGetBalance (Some (assetBMintAddress d))) true])).
Proof.
  intros Hd Ha Hb. unfold getUsableBalances. rewrite (run_poolDetails _ _ _ Hd). cbv beta.
  unfold wallet_getBalance. run_ok Ha. run_ok Hb.
  cbn. rewrite <- app_assoc. reflexivity.
Qed.

(** ** Properties *)

(** C29. Functional behaviour of [getUsableBalances]: without pool details
    it throws before any wallet call; with them, it reads asset A's balance
    and then asset B's, records exactly these two calls, leaves the object
    unchanged and returns an object with exactly the two symbols as keys:
    the raw balance of an asset whose symbol is not ["sol"]
    case-insensitively, and [max(0, raw - NATIVE_TOKEN_FEE_BUFFER)] for the
    one that is; when both symbols are equal, B's entry is the one kept. *)
Theorem getUsableBalances_spec {L} `{Chain L} (w : World L) :
  match _poolDetails (self w) with
  | None => getUsableBalances w = (Throw (JsError "Pool details not initialized. Make sure to call MeteoraRebalancer.loadInitialState()"), w)
  | Some d =>
      forall a b l1 l2,
      getBalance (Some (assetAMintAddress d)) (ledger w) = (Ok a, l1) ->
      getBalance (Some (assetBMintAddress d)) l1 = (Ok b, l2) ->
      let buf := NATIVE_TOKEN_FEE_BUFFER (env w) in
      exists result,
      getUsableBalances w =
        (Ok result,
         mkWorld l2 (env w) (self w)
           (trace w ++ [EvCall (CGetBalance (Some (assetAMintAddress d))) true;
                        EvCall (CGetBalance (Some (assetBMintAddress d))) true])) /\
      result !! assetBSymbol d =
        Some (if String.eqb (to_lower (assetBSymbol d)) "sol" then Qmax 0 (b - buf) else b) /\
      (assetASymbol d <> assetBSymbol d ->
       result !! assetASymbol d =
         Some (if String.eqb (to_lower (assetASymbol d)) "sol" then Qmax 0 (a - buf) else a)) /\
      (forall k, k <> assetASymbol d -> k <> assetBSymbol d -> result !! k = None)
  end.
Proof.
  destruct (_poolDetails (self w)) as [d|] eqn:Hd.
  - intros a b l1 l2 Ha Hb. cbv zeta.
    exists (usable_of d (NATIVE_TOKEN_FEE_BUFFER (env w)) a b).
    split; [exact (run_getUsableBalances w d a b l1 l2 Hd Ha Hb)|].
    split; [exact (usable_of_B d _ a b)|]. split; [exact (usable_of_A d _ a b)|].
    intros k HA HB. unfold usable_of.
    rewrite !lookup_insert_ne by congruence. apply lookup_empty.
  - unfold getUsableBalances, bind, poolDetails. rewrite Hd. reflexivity.
Qed.

Lemma usable_amount_nonneg isNative buffer raw :
  0 <= raw -> 0 <= usable_amount isNative buffer raw.
Proof. intros Hr. destruct isNative; [apply Qmax0_nonneg | exact Hr]. Qed.

(** The fee reserve is held back: for the native asset, with a
    non-negative raw balance and buffer, the usable amount is between 0 and
    the raw balance, and exactly [min(raw, buffer)] is kept back; any other
    asset is returned unmodified. *)
Theorem usable_amount_reserve isNative buffer raw :
  0 <= raw -> 0 <= buffer ->
  0 <= usable_amount isNative buffer raw <= raw /\
  raw - usable_amount isNative buffer raw == if isNative then Qmin raw buffer else 0.
Proof.
  intros Hr Hb. destruct isNative; simpl.
  - unfold Qmax0. destruct (Qlt_le_dec raw buffer) as [Hlt|Hle].
    + rewrite Q.max_l by lra. rewrite Q.min_l by lra. split; [split|]; lra.
    + rewrite Q.max_r by lra. rewrite Q.min_r by lra. split; [split|]; lra.
  - split; [split|]; lra.
Qed.

(** ** Witnesses *)

Lemma usable_amount_reserve_witness :
  (0 <= (5 # 100) /\ 0 <= (1 # 10)) /\
  (0 <= usable_amount true (1 # 10) (5 # 100) <= (5 # 100) /\
   (5 # 100) - usable_amount true (1 # 10) (5 # 100) == Qmin (5 # 100) (1 # 10)) /\
  usable_amount true (1 # 10) (5 # 100) == 0.
Proof.
  split; [split; vm_compute; discriminate|].
  split; [apply usable_amount_reserve; vm_compute; discriminate|].
  reflexivity.
Defined.

Lemma getUsableBalances_spec_witness :
  exists result,
  getUsableBalances (demo_world (demo_ledger 10 0 1 100 [] []) 100 120) =
    (Ok result,
     mkWorld (demo_ledger 10 0 1 100 [] []) demo_env (demo_self 100 120)
       [EvCall (CGetBalance (Some "SOLMINT")) true;
        EvCall (CGetBalance (Some "USDCMINT")) true]) /\
  result !! "USDC" = Some (if String.eqb (to_lower "USDC") "sol" then Qmax 0 (0 - (1 # 10)) else 0) /\
  ("SOL" <> "USDC" ->
   result !! "SOL" = Some (if String.eqb (to_lower "SOL") "sol" then Qmax 0 (10 - (1 # 10)) else 10)) /\
  (forall k, k <> "SOL" -> k <> "USDC" -> result !! k = None).
Proof.
  exact (getUsableBalances_spec (demo_world (demo_ledger 10 0 1 100 [] []) 100 120)
           10 0 _ _ eq_refl eq_refl).
Defined.
