(* ===== verification/RangeSizing.v ===== *)
(** * The range sizing calculator

    [loadInitialState] (logger.ts 357-361) turns the relative half-width
    [METEORA_POSITION_RANGE_PER_SIDE_RELATIVE] into a number of bins per
    side, [Math.ceil(r * 10000 / binStep)], warns when it exceeds
    [METERORA_MAX_BINS_PER_SIDE] (34, logger.ts 181) and stores
    [Math.min(rangeInterval, 34)].  The method computes, as JavaScript
    does, in IEEE-754 binary64 arithmetic (the Standard Library's
    [SpecFloat], plain Gallina): [Number(...)] of the variable is the
    double nearest to its value, and the product, the quotient and
    [Math.ceil] are those of doubles.  The spec's exact formula
    [ceil(r * 10000 / g)] is [rangeInterval_raw], the reference the
    binary64 result is compared with. *)

From Stdlib Require Import SpecFloat.
From S2P Require Import Prelude Monad Effects DemoLedger.

Local Open Scope Q_scope.
Open Scope rebal_scope.

(** [const METERORA_MAX_BINS_PER_SIDE = 34] *)
Definition METERORA_MAX_BINS_PER_SIDE : Z := 34.

(** The spec's width [ceil(r * 10000 / g)] in exact arithmetic. *)
Definition rangeInterval_raw (r : Q) (binStep : Z) : Z :=
  Qceiling (r * 10000 / inject_Z binStep).

(** [Math.min(rangeInterval, METERORA_MAX_BINS_PER_SIDE)] *)
Definition clip_interval (rangeInterval : Z) : Z :=
  Z.min rangeInterval METERORA_MAX_BINS_PER_SIDE.

(** ** JavaScript numbers as binary64 *)

Definition prec : Z := 53.
Definition emax : Z := 1024.

(** An integer as a JavaScript number. *)
Definition js_of_Z (z : Z) : spec_float := binary_normalize prec emax z 0 false.

(** The double nearest to [n / d] (for [|n|, d < 2^53] both are exact
    doubles and the division rounds once). *)
Definition js_of_ratio (n d : Z) : spec_float := SFdiv prec emax (js_of_Z n) (js_of_Z d).

(** [Number(v)] of a variable whose decimal value is [r]: the nearest
    double, for a numerator and denominator below [2^53] (any decimal
    string of at most 15 significant digits). *)
Definition js_of_Q (r : Q) : spec_float := js_of_ratio (Qnum r) (Zpos (Qden r)).

(** The exact value of a finite double. *)
Definition sf_to_Q (s : bool) (m : positive) (e : Z) : Q :=
  let v := match e with
           | Z0 => inject_Z (Zpos m)
           | Zpos p => inject_Z (Zpos m * 2 ^ Zpos p)
           | Zneg p => Zpos m # (2 ^ p)
           end in
  if s then - v else v.

(** [(r * 10000) / binStep] with both operations rounded. *)
Definition range_quotient (r : spec_float) (binStep : Z) : spec_float :=
  SFdiv prec emax (SFmul prec emax r (js_of_Z 10000)) (js_of_Z binStep).

(** [Math.ceil] of a finite double, as an integer ([-0] is [0]); [None]
    for an infinity or [NaN]. *)
Definition js_ceil (x : spec_float) : option Z :=
  match x with
  | S754_zero _ => Some 0%Z
  | S754_finite s m e => Some (Qceiling (sf_to_Q s m e))
  | S754_infinity _ | S754_nan => None
  end.

Section Sizing.
Context {L : Type} `{Chain L}.

(** Lines 357-361 of [loadInitialState].  For a finite quotient the
    width is its ceiling, with a warning above 34 and the minimum with 34
    stored.  [+Infinity] (a bin step of 0, or an overflow) is above 34:
    warning, and [Math.min] stores 34.  For [-Infinity] and [NaN] ([0/0])
    [> 34] is false and the stored [Math.min] is [-Infinity] or [NaN], an
    unusable width, [None] in [Rebalancer].  When the range variable is
    unset or not numeric, [Number(...)] is [NaN] too.  (An empty variable,
    for which [Number("")] is 0, is also [None] in [Env]; the constructor
    rejects all three before [loadInitialState] runs.) *)
Definition computeRangeInterval : M (World L) unit :=
  d <- poolDetails ;;
  e <- process_env ;;
  match METEORA_POSITION_RANGE_PER_SIDE_RELATIVE e with
  | Some r =>
      let x := range_quotient (js_of_Q r) (binStep d) in
      match js_ceil x with
      | Some rangeInterval =>
          (if Z.ltb METERORA_MAX_BINS_PER_SIDE rangeInterval
           then sendAlert WARNING (AlertRangeClipped (Some rangeInterval)) else ret tt) ;;
          update_this (set_rangeInterval (Some (clip_interval rangeInterval)))
      | None =>
          match x with
          | S754_infinity false =>
              sendAlert WARNING (AlertRangeClipped None) ;;
              update_this (set_rangeInterval (Some METERORA_MAX_BINS_PER_SIDE))
          | _ => update_this (set_rangeInterval None)
          end
      end
  | None => update_this (set_rangeInterval None)
  end.
End Sizing.

(** ** Properties *)

(** C28. Bounds of the stored width, in the arithmetic the code uses:
    when [Math.ceil((r * 10000) / binStep)] evaluated in binary64 is a
    finite integer [c], the sizing step succeeds, stores [min(c, 34)],
    which is at most 34 and is [c] itself whenever [c <= 34] (there is no
    lower bound: a fraction of 0 stores 0), and emits a WARNING alert
    exactly when [c] exceeds 34. *)
Theorem computeRangeInterval_spec {L} `{Chain L} (w : World L) d r c :
  _poolDetails (self w) = Some d ->
  METEORA_POSITION_RANGE_PER_SIDE_RELATIVE (env w) = Some r ->
  js_ceil (range_quotient (js_of_Q r) (binStep d)) = Some c ->
  let w' := snd (computeRangeInterval w) in
  fst (computeRangeInterval w) = Ok tt /\
  meteoraRangeInterval (self w') = Some (clip_interval c) /\
  (clip_interval c <= METERORA_MAX_BINS_PER_SIDE)%Z /\
  ((c <= METERORA_MAX_BINS_PER_SIDE)%Z -> clip_interval c = c) /\
  trace w' = trace w ++ (if Z.ltb METERORA_MAX_BINS_PER_SIDE c
                         then [EvAlert WARNING (AlertRangeClipped (Some c))] else []).
Proof.
  intros Hd Hr Hc. cbv zeta.
  unfold computeRangeInterval. rewrite (run_poolDetails _ _ _ Hd).
  cbn -[range_quotient js_of_Q js_ceil Z.ltb Z.min]. rewrite Hr.
  cbn -[range_quotient js_of_Q js_ceil Z.ltb Z.min]. rewrite Hc.
  unfold clip_interval, METERORA_MAX_BINS_PER_SIDE.
  destruct (Z.ltb 34 c) eqn:E; qcmp; cbn -[Z.min]; rewrite ?app_nil_r;
    (split; [reflexivity|]); (split; [reflexivity|]); (split; [lia|]); (split; [lia|reflexivity]).
Qed.

(** Where binary64 parts from the spec's formula: for a fraction of 0.07
    and a bin step of 25, JavaScript computes
    [0.07 * 10000 / 25 = 28.000000000000004] and a width of 29 bins, while
    [ceil(r * 10000 / g)] is 28; for the spec's examples the two agree. *)
Lemma rangeInterval_float_divergence :
  js_ceil (range_quotient (js_of_Q (7 # 100)) 25) = Some 29%Z /\
  rangeInterval_raw (7 # 100) 25 = 28%Z /\
  js_ceil (range_quotient (js_of_Q (5 # 100)) 25) = Some (rangeInterval_raw (5 # 100) 25) /\
  js_ceil (range_quotient (js_of_Q (5 # 10)) 1) = Some (rangeInterval_raw (5 # 10) 1).
Proof. vm_compute. repeat split. Qed.

(** ** Witnesses *)

(** The spec's example [r = 0.05, g = 25]: 20 bins, unclamped. *)
Lemma computeRangeInterval_spec_witness :
  js_ceil (range_quotient (js_of_Q (5 # 100)) 25) = Some 20%Z /\
  (let w := demo_world (demo_ledger 10 0 1 100 [] []) 0 0 in
   let w' := snd (computeRangeInterval w) in
   fst (computeRangeInterval w) = Ok tt /\
   meteoraRangeInterval (self w') = Some (clip_interval 20) /\
   (clip_interval 20 <= METERORA_MAX_BINS_PER_SIDE)%Z /\
   ((20 <= METERORA_MAX_BINS_PER_SIDE)%Z -> clip_interval 20 = 20%Z) /\
   trace w' = trace w ++ (if Z.ltb METERORA_MAX_BINS_PER_SIDE 20
                          then [EvAlert WARNING (AlertRangeClipped (Some 20%Z))] else [])).
Proof.
  assert (Hc : js_ceil (range_quotient (js_of_Q (5 # 100)) 25) = Some 20%Z) by (vm_compute; reflexivity).
  split; [exact Hc|].
  exact (computeRangeInterval_spec (demo_world (demo_ledger 10 0 1 100 [] []) 0 0)
           demo_details (5 # 100) 20 eq_refl eq_refl Hc).
Defined.
