(* ===== verification/AssetBalancer.v ===== *)
(** * The asset balancer: [rebalancePosition]

    [rebalancePosition] (logger.ts 397-499) reads the usable balances and
    the active bin's price, computes the total value in asset B, halves it,
    and swaps the excess of whichever asset is above its half: A into B in
    the first branch, B into A in the [else if], nothing otherwise.  It
    then logs the price, re-reads and logs the balances, and waits 5 s for
    the wallet.  The decision is the pure function [plan_swap], written
    with the code's intermediate names; [rebalancePosition] is the whole
    method around it.  The abstract contract is [balanced]: after the
    planned swap executes at the price it was planned with, both sides hold
    the same value and the total value is unchanged.  The last theorem
    reads the method's trace: after a successful swap the balances are read
    again before the 5 s settlement delay.  Amounts and prices are exact
    rationals, an abstraction of the code's doubles; the swap log keeps
    the rounding of [toFixed(6)] ([toFixed6]). *)

From S2P Require Import Prelude Monad Effects DemoLedger Retry Trace Balances.

Local Open Scope Q_scope.
Open Scope rebal_scope.

(** ** The swap decision *)

Inductive SwapPlan :=
| SwapAtoB (assetAToSwap : Q)
| SwapBtoA (assetBToSwap : Q)
| NoSwap.

(** Lines 427-433: the total value in asset B and the 50/50 targets. *)
Definition totalValueInAssetB (assetAAmount assetBAmount currentPrice : Q) : Q :=
  assetAAmount * currentPrice + assetBAmount.

Definition targetValueInAssetB (assetAAmount assetBAmount currentPrice : Q) : Q :=
  totalValueInAssetB assetAAmount assetBAmount currentPrice / 2.

Definition targetAssetABalance (assetAAmount assetBAmount currentPrice : Q) : Q :=
  targetValueInAssetB assetAAmount assetBAmount currentPrice / currentPrice.

Definition targetAssetBBalance (assetAAmount assetBAmount currentPrice : Q) : Q :=
  targetValueInAssetB assetAAmount assetBAmount currentPrice.

(** Lines 440-477: the choice of branch and the amount to swap. *)
Definition plan_swap (assetAAmount assetBAmount currentPrice : Q) : SwapPlan :=
  let tA := targetAssetABalance assetAAmount assetBAmount currentPrice in
  let tB := targetAssetBBalance assetAAmount assetBAmount currentPrice in
  if Qltb tA assetAAmount then SwapAtoB (assetAAmount - tA)
  else if Qltb tB assetBAmount then SwapBtoA (assetBAmount - tB)
  else NoSwap.

(** ** The method *)

(** [x.toFixed(6)], as the decimal it prints: [|x|] rounded to 6
    decimals, a tie going to the larger (ECMA-262 [Number.prototype.toFixed]
    takes the sign apart first). *)
Definition toFixed6 (x : Q) : Q :=
  let n := Qfloor (Qmax x (- x) * 1000000 + (1 # 2)) in
  if Qltb x 0 then - (n # 1000000) else n # 1000000.

Section Balancer.
Context {L : Type} `{Chain L}.

(** One branch of the swap: the [retry]-wrapped Jupiter call and the
    [logAction] that reports it with both amounts printed by [toFixed(6)]
    (lines 443-476). *)
Definition execute_plan (d : PoolDetails) (plan : SwapPlan) : M (World L) unit :=
  match plan with
  | SwapAtoB assetAToSwap =>
      outputAssetBAmount <- retry (jupiter_swap (assetAMintAddress d) (assetBMintAddress d)
                                     assetAToSwap) 5 5000 ;;
      log (LogAction (ActSwapped (toFixed6 assetAToSwap) (assetASymbol d)
                        (toFixed6 outputAssetBAmount) (assetBSymbol d)))
  | SwapBtoA assetBToSwap =>
      outputAssetAAmount <- retry (jupiter_swap (assetBMintAddress d) (assetAMintAddress d)
                                     assetBToSwap) 5 5000 ;;
      log (LogAction (ActSwapped (toFixed6 assetBToSwap) (assetBSymbol d)
                        (toFixed6 outputAssetAAmount) (assetASymbol d)))
  | NoSwap => ret tt
  end.

(** [rebalancePosition()] *)
Definition rebalancePosition : M (World L) unit :=
  catch (
    balances <- getUsableBalances ;;
    d <- poolDetails ;;
    let assetAAmount := balance_of balances (assetASymbol d) in
    let assetBAmount := balance_of balances (assetBSymbol d) in
    r <- this ;;
    (if String.eqb (poolAddress r) "" then throw (JsError "No working pool address found")
     else ret tt) ;;
    activeBin <- retry (meteora_getActiveBin (poolAddress r)) 5 5000 ;;
    let currentPrice := pricePerToken activeBin in
    execute_plan d (plan_swap assetAAmount assetBAmount currentPrice) ;;
    log (LogCurrentPrice (pricePerToken activeBin) (assetASymbol d) (assetBSymbol d)) ;;
    newBalances <- getUsableBalances ;;
    log (LogBalances (balance_of newBalances (assetASymbol d))
                     (balance_of newBalances (assetBSymbol d))
                     TOTAL_BALANCE_PREFIX (assetASymbol d) (assetBSymbol d)) ;;
    delay 5000)
  (fun error => throw error).
End Balancer.

(** ** The abstract contract *)

(** Balances after a plan executes at price [p] with no slippage. *)
Definition ideal_exec (a b p : Q) (plan : SwapPlan) : Q * Q :=
  match plan with
  | SwapAtoB x => (a - x, b + x * p)
  | SwapBtoA x => (a + x / p, b - x)
  | NoSwap => (a, b)
  end.

(** 50/50 in value, total value preserved, nothing sold that is not held. *)
Definition balanced (a b p : Q) (ab' : Q * Q) : Prop :=
  fst ab' * p == snd ab' /\
  fst ab' * p + snd ab' == a * p + b /\
  (0 <= a -> 0 <= b -> 0 <= fst ab' /\ 0 <= snd ab').

(** Trace predicates: swap calls and log entries. *)
Definition is_swap (ev : Event) : bool :=
  match ev with EvCall (CSwap _ _ _) _ => true | _ => false end.

Definition not_swap (ev : Event) : Prop := is_swap ev = false.

(** A swap call that sells at most [ua] of asset A or at most [ub] of
    asset B of the pool [d]. *)
Definition sells_within (d : PoolDetails) (ua ub : Q) (ev : Event) : Prop :=
  match ev with
  | EvCall (CSwap i _ x) _ =>
      (i = assetAMintAddress d /\ x <= ua) \/ (i = assetBMintAddress d /\ x <= ub)
  | _ => True
  end.

Definition is_log_event (ev : Event) : Prop :=
  match ev with EvLog _ => True | _ => False end.

(** ** Arithmetic of the targets *)

Lemma Qpos_neq0 p : 0 < p -> ~ p == 0.
Proof. intros Hp E. rewrite E in Hp. discriminate. Qed.

Lemma half_twice x : 2 * (x / 2) == x.
Proof. field. Qed.

(** [assetAAmount > targetAssetABalance] is [B's value < A's value]. *)
Lemma targetA_lt_iff a b p : 0 < p -> ((a * p + b) / 2 / p < a <-> b < a * p).
Proof.
  intros Hp. rewrite <- (Qmult_lt_r _ _ p Hp).
  setoid_replace ((a * p + b) / 2 / p * p) with ((a * p + b) / 2) using relation Qeq
    by (field; apply Qpos_neq0; exact Hp).
  pose proof (half_twice (a * p + b)). split; intros; lra.
Qed.

(** [assetBAmount > targetAssetBBalance] is [A's value < B's value]. *)
Lemma targetB_lt_iff a b p : (a * p + b) / 2 < b <-> a * p < b.
Proof. pose proof (half_twice (a * p + b)). split; intros; lra. Qed.

Lemma nonneg_of_mul x p : 0 < p -> 0 <= x * p -> 0 <= x.
Proof. intros. nra. Qed.

Ltac unfold_targets :=
  unfold targetAssetABalance, targetAssetBBalance, targetValueInAssetB,
    totalValueInAssetB in *.

(** The facts every case analysis on [plan_swap] starts from. *)
Ltac targets a b p Hp :=
  pose proof (Qpos_neq0 p Hp);
  pose proof (targetA_lt_iff a b p Hp);
  pose proof (targetB_lt_iff a b p);
  pose proof (half_twice (a * p + b)).

(** ** Properties *)

(** C5. Refinement of the 50/50 contract: at a positive price, executing
    the planned swap at that price leaves both sides with the same value,
    keeps the total value, and never sells more than is held. *)
Theorem plan_swap_balanced a b p : 0 < p ->
  balanced a b p (ideal_exec a b p (plan_swap a b p)).
Proof.
  intros Hp. targets a b p Hp. unfold balanced, plan_swap. cbv zeta. unfold_targets.
  destruct (Qltb _ a) eqn:E; [|destruct (Qltb _ b) eqn:E']; qcmp; simpl.
  - split; [field; assumption|]. split; [field; assumption|].
    intros Ha Hb. assert (0 <= a * p) by nra.
    setoid_replace (b + (a - (a * p + b) / 2 / p) * p) with ((a * p + b) / 2) using relation Qeq
      by (field; assumption).
    split; [|lra]. apply (nonneg_of_mul _ p Hp).
    setoid_replace ((a - (a - (a * p + b) / 2 / p)) * p) with ((a * p + b) / 2) using relation Qeq
      by (field; assumption). lra.
  - split; [field; assumption|]. split; [field; assumption|].
    intros Ha Hb. assert (0 <= a * p) by nra. split; [|lra].
    assert (0 <= (b - (a * p + b) / 2) / p) by (apply Qle_shift_div_l; lra). lra.
  - assert (a * p == b).
    { destruct (Qlt_le_dec b (a * p)) as [Hlt|Hle].
      - match goal with H : _ <-> b < a * p |- _ => apply H in Hlt end. lra.
      - destruct (Qlt_le_dec (a * p) b) as [Hlt'|Hle'].
        + match goal with H : _ <-> a * p < b |- _ => apply H in Hlt' end. lra.
        + lra. }
    split; [assumption|]. split; [reflexivity|]. intros; split; assumption.
Qed.

(** The two swap branches are exclusive: at a positive price, A above
    its target and B above its target never hold together, because both
    targets add up to the same total value as the holdings; so the
    [else if] never hides a second swap. *)
Theorem plan_branches_exclusive a b p : 0 < p ->
  ~ (Qltb (targetAssetABalance a b p) a = true /\ Qltb (targetAssetBBalance a b p) b = true).
Proof.
  intros Hp [HA HB]. qcmp. targets a b p Hp. unfold_targets.
  apply (proj1 (targetA_lt_iff a b p Hp)) in HA. apply (proj1 (targetB_lt_iff a b p)) in HB.
  lra.
Qed.

(** ** The settlement delay *)

(** ** What the plan sells *)

(** With non-negative balances and a positive price the plan never sells
    more of an asset than the amount it was given. *)
Lemma plan_swap_within a b p :
  0 <= a -> 0 <= b -> 0 < p ->
  match plan_swap a b p with
  | SwapAtoB x => x <= a
  | SwapBtoA y => y <= b
  | NoSwap => True
  end.
Proof.
  intros Ha Hb Hp. unfold plan_swap, targetAssetABalance, targetAssetBBalance,
    targetValueInAssetB, totalValueInAssetB.
  assert (Hv : 0 <= (a * p + b) / 2) by (apply Qle_shift_div_l; [reflexivity | nra]).
  assert (HtA : 0 <= (a * p + b) / 2 / p) by (apply Qle_shift_div_l; [exact Hp | lra]).
  destruct (Qltb _ a); [lra|]. destruct (Qltb _ b); [lra | exact I].
Qed.

Section Reserve.
Context {L : Type} `{Chain L}.

(** Executing the plan makes only swap calls within the given amounts. *)
Lemma execute_plan_within d ua ub p :
  0 <= ua -> 0 <= ub -> 0 < p ->
  emits (sells_within d ua ub) (execute_plan d (plan_swap ua ub p)).
Proof.
  intros Ha Hb Hp. pose proof (plan_swap_within ua ub p Ha Hb Hp) as Hw.
  destruct (plan_swap ua ub p) as [x|y|]; cbn [execute_plan]; emits_tac; cbn; auto.
Qed.
End Reserve.

Section Settling.
Context {L : Type} `{Chain L}.

Lemma log_run l (w w' : World L) u :
  log l w = (Ok u, w') -> trace w' = trace w ++ [EvLog l].
Proof. unfold log, emit, modify. intros E. injection E as _ <-. reflexivity. Qed.

(** A completed [getUsableBalances] starts with a successful balance read
    and makes no swap. *)
Lemma getUsableBalances_reads (w w' : World L) b :
  getUsableBalances w = (Ok b, w') ->
  exists m s, trace w' = trace w ++ EvCall (CGetBalance m) true :: s /\ Forall not_swap s.
Proof.
  intros Hr. unfold getUsableBalances in Hr.
  apply bind_ok_inv in Hr as [d [w1 [H1 Hr]]].
  unfold poolDetails in H1. destruct (_poolDetails (self w)) as [p|]; [|discriminate H1].
  injection H1 as <- <-.
  apply bind_ok_inv in Hr as [a [w2 [H2 Hr]]].
  unfold wallet_getBalance in H2. rewrite ext_run in H2.
  destruct (getBalance _ (ledger w)) as [[a'|e] l] eqn:E; [|discriminate H2].
  injection H2 as _ <-.
  apply (run_emits not_swap) in Hr as [s [Es Fs]]; [|emits_tac; reflexivity].
  cbn [trace] in Es. exists (Some (assetAMintAddress p)), s.
  rewrite Es, <- app_assoc. split; [reflexivity | exact Fs].
Qed.
(** [execute_plan] either does nothing or ends with its successful swap
    and the log entry that reports it. *)
Lemma execute_plan_run d plan (w w' : World L) u :
  execute_plan d plan w = (Ok u, w') ->
  w' = w \/
  exists sf i o x l, trace w' = trace w ++ sf ++ [EvCall (CSwap i o x) true; EvLog l].
Proof.
  intros Hr. destruct plan as [x|x|]; cbn [execute_plan] in Hr.
  1,2: right; apply bind_ok_inv in Hr as [out [w1 [Hs Hl]]]; apply log_run in Hl;
       unfold retry, jupiter_swap in Hs; apply retry_ext_ok_last in Hs as [sf Ef];
       rewrite Hl, Ef, <- !app_assoc; do 5 eexists; reflexivity.
  left. unfold ret in Hr. congruence.
Qed.

(** C12. Every swap outcome is reported: when the plan sells [x] of one
    asset, a completed execution ends with the successful swap call of [x]
    from that asset's mint to the other's and, right after it, the
    [logAction] entry of the swap, whose amounts are the amount sold and
    the amount the swap call returned, as [toFixed(6)] prints them; with
    no swap planned nothing happens. *)
Theorem execute_plan_logs_swap d plan (w w' : World L) :
  execute_plan d plan w = (Ok tt, w') ->
  match plan with
  | SwapAtoB x => exists sf out l l',
      jupiterSwap (assetAMintAddress d) (assetBMintAddress d) x l = (Ok out, l') /\
      trace w' = trace w ++ sf ++
        [EvCall (CSwap (assetAMintAddress d) (assetBMintAddress d) x) true;
         EvLog (LogAction (ActSwapped (toFixed6 x) (assetASymbol d) (toFixed6 out) (assetBSymbol d)))]
  | SwapBtoA y => exists sf out l l',
      jupiterSwap (assetBMintAddress d) (assetAMintAddress d) y l = (Ok out, l') /\
      trace w' = trace w ++ sf ++
        [EvCall (CSwap (assetBMintAddress d) (assetAMintAddress d) y) true;
         EvLog (LogAction (ActSwapped (toFixed6 y) (assetBSymbol d) (toFixed6 out) (assetASymbol d)))]
  | NoSwap => w' = w
  end.
Proof.
  intros Hr. destruct plan as [x|x|]; cbn [execute_plan] in Hr.
  1,2: apply bind_ok_inv in Hr as [out [w1 [Hs Hl]]]; apply log_run in Hl;
       unfold retry, jupiter_swap in Hs; pose proof Hs as Hs';
       apply retry_ext_ok_last in Hs as [sf Ef]; apply retry_ext_ok_result in Hs' as [l [l' Ho]];
       exists sf, out, l, l'; split; [exact Ho | rewrite Hl, Ef, <- !app_assoc; reflexivity].
  unfold ret in Hr. congruence.
Qed.

(** C13. No settlement delay before the balances are read again: in a
    completed [rebalancePosition] that swaps, the successful swap call is
    followed by a successful wallet balance read with only log entries in
    between (the 5 s delay comes after that read); the spec requires the
    delay after a swap before any balance is read.  A run without a
    successful swap makes no swap call at all. *)
Theorem rebalancePosition_reads_before_settling (w w' : World L) :
  rebalancePosition w = (Ok tt, w') ->
  exists s, trace w' = trace w ++ s /\
    (Forall not_swap s \/
     exists s1 i o x s2 m s3,
       s = s1 ++ [EvCall (CSwap i o x) true] ++ s2 ++ [EvCall (CGetBalance m) true] ++ s3 /\
       Forall is_log_event s2).
Proof.
  intros Hr. unfold rebalancePosition in Hr.
  apply catch_ok_inv in Hr as [Hr|[e [w1 [_ Hh]]]]; [|discriminate Hh].
  apply bind_ok_inv in Hr as [bal [w1 [H1 Hr]]].
  apply bind_ok_inv in Hr as [d [w2 [H2 Hr]]]. cbv zeta in Hr.
  apply bind_ok_inv in Hr as [r [w3 [H3 Hr]]].
  apply bind_ok_inv in Hr as [u4 [w4 [H4 Hr]]].
  apply bind_ok_inv in Hr as [bin [w5 [H5 Hr]]].
  apply bind_ok_inv in Hr as [u6 [w6 [H6 Hr]]].
  apply bind_ok_inv in Hr as [u7 [w7 [H7 Hr]]].
  apply bind_ok_inv in Hr as [nb [w8 [H8 Hr]]].
  apply bind_ok_inv in Hr as [u9 [w9 [H9 Hr]]].
  apply (run_emits not_swap) in H1 as [s1 [E1 F1]]; [|emits_tac; reflexivity].
  apply (run_emits not_swap) in H2 as [s2 [E2 F2]]; [|emits_tac; reflexivity].
  apply (run_emits not_swap) in H3 as [s3 [E3 F3]]; [|emits_tac; reflexivity].
  apply (run_emits not_swap) in H4 as [s4 [E4 F4]]; [|emits_tac; reflexivity].
  apply (run_emits not_swap) in H5 as [s5 [E5 F5]]; [|emits_tac; reflexivity].
  apply log_run in H7. set (l7 := LogCurrentPrice _ _ _) in H7.
  apply getUsableBalances_reads in H8 as [m [s8 [E8 F8]]].
  apply log_run in H9. set (l9 := LogBalances _ _ _ _ _) in H9.
  unfold delay in Hr. injection Hr as <-. cbn [trace].
  set (pre := s1 ++ s2 ++ s3 ++ s4 ++ s5).
  assert (Epre : trace w5 = trace w ++ pre)
    by (unfold pre; rewrite E5, E4, E3, E2, E1, <- !app_assoc; reflexivity).
  apply execute_plan_run in H6 as [->|[sf [i [o [x [l6 E6]]]]]].
  - exists (pre ++ [EvLog l7; EvCall (CGetBalance m) true] ++ s8 ++ [EvLog l9; EvDelay 5000]).
    split; [rewrite H9, E8, H7, Epre, <- !app_assoc; reflexivity|].
    left. unfold pre. rewrite !Forall_app. repeat split; try assumption;
      repeat constructor; assumption.
  - exists (pre ++ sf ++ [EvCall (CSwap i o x) true] ++ [EvLog l6; EvLog l7] ++
            [EvCall (CGetBalance m) true] ++ s8 ++ [EvLog l9; EvDelay 5000]).
    split; [rewrite H9, E8, H7, E6, Epre, <- !app_assoc; reflexivity|].
    right. exists (pre ++ sf), i, o, x, [EvLog l6; EvLog l7], m, (s8 ++ [EvLog l9; EvDelay 5000]).
    split; [rewrite <- !app_assoc; reflexivity | repeat constructor].
Qed.
(** C10. The fee reserve is never swapped away: on a ledger whose
    active-bin reads report positive prices, with non-negative balances
    [ra] and [rb] read for the two assets, every swap call that
    [rebalancePosition] makes, failed or not, sells at most the usable
    amount of its input asset: for the native asset at most
    [max(0, ra - NATIVE_TOKEN_FEE_BUFFER)], for the other at most its
    balance. *)
Theorem rebalancePosition_keeps_reserve (w : World L) d ra rb l1 l2 :
  (forall pool l bin l', getActiveBin pool l = (Ok bin, l') -> 0 < pricePerToken bin) ->
  _poolDetails (self w) = Some d -> assetASymbol d <> assetBSymbol d ->
  getBalance (Some (assetAMintAddress d)) (ledger w) = (Ok ra, l1) ->
  getBalance (Some (assetBMintAddress d)) l1 = (Ok rb, l2) ->
  0 <= ra -> 0 <= rb ->
  let buffer := NATIVE_TOKEN_FEE_BUFFER (env w) in
  exists s, trace (snd (rebalancePosition w)) = trace w ++ s /\
    Forall (sells_within d (usable_amount (is_native_symbol (assetASymbol d)) buffer ra)
                           (usable_amount (is_native_symbol (assetBSymbol d)) buffer rb)) s.
Proof.
  intros Hprice Hd Hne Ha Hb Hra Hrb buffer.
  set (ua := usable_amount _ buffer ra). set (ub := usable_amount _ buffer rb).
  assert (Hua : 0 <= ua) by (apply usable_amount_nonneg; exact Hra).
  assert (Hub : 0 <= ub) by (apply usable_amount_nonneg; exact Hrb).
  apply emits_at_catch; [|intros e w1 _; apply emits_at_of; emits_tac].
  apply emits_at_bind; [apply emits_at_of; emits_tac; cbn; auto|].
  intros u w1 Hu. rewrite (run_getUsableBalances w d ra rb l1 l2 Hd Ha Hb) in Hu.
  injection Hu as <- <-.
  assert (EA : balance_of (usable_of d buffer ra rb) (assetASymbol d) = ua)
    by (unfold balance_of; rewrite usable_of_A by exact Hne; reflexivity).
  assert (EB : balance_of (usable_of d buffer ra rb) (assetBSymbol d) = ub)
    by (unfold balance_of; rewrite usable_of_B; reflexivity).
  apply emits_at_bind; [apply emits_at_of; emits_tac|].
  intros d' w2 Hd'. unfold poolDetails in Hd'. cbn [self] in Hd'. rewrite Hd in Hd'.
  injection Hd' as <- <-. cbv zeta. fold buffer. rewrite EA, EB.
  apply emits_at_bind; [apply emits_at_of; emits_tac|]. intros r w3 _.
  apply emits_at_bind; [apply emits_at_of; emits_tac|]. intros [] w4 _.
  apply emits_at_bind; [apply emits_at_of; emits_tac; cbn; auto|]. intros bin w5 Hbin.
  unfold retry, meteora_getActiveBin in Hbin.
  apply retry_ext_ok_result in Hbin as [l [l' Hl]]. apply Hprice in Hl.
  apply emits_at_bind; [apply emits_at_of, execute_plan_within; assumption|]. intros _ w6 _.
  apply emits_at_of. emits_tac; cbn; auto.
Qed.
End Settling.

(** ** Witnesses *)

(** The spec's example: [A = 10, price = 2, B = 0] sells exactly 5 A. *)
Lemma plan_swap_balanced_witness :
  0 < 2 /\ balanced 10 0 2 (ideal_exec 10 0 2 (plan_swap 10 0 2)).
Proof. split; [reflexivity|]. apply plan_swap_balanced. reflexivity. Defined.

Lemma plan_branches_exclusive_witness :
  0 < 2 /\ ~ (Qltb (targetAssetABalance 10 30 2) 10 = true /\
              Qltb (targetAssetBBalance 10 30 2) 30 = true).
Proof. split; [reflexivity|]. apply plan_branches_exclusive. reflexivity. Defined.

(** 10 SOL and no USDC at price 2: the balancer swaps SOL for USDC, then
    reads the balances before it waits. *)
Lemma rebalancePosition_reads_before_settling_witness :
  let w := demo_world (demo_ledger 10 0 1 100 [] []) 100 120 in
  fst (rebalancePosition w) = Ok tt /\
  exists s, trace (snd (rebalancePosition w)) = trace w ++ s /\
    (Forall not_swap s \/
     exists s1 i o x s2 m s3,
       s = s1 ++ [EvCall (CSwap i o x) true] ++ s2 ++ [EvCall (CGetBalance m) true] ++ s3 /\
       Forall is_log_event s2).
Proof.
  intros w. split; [vm_compute; reflexivity|].
  apply rebalancePosition_reads_before_settling. vm_compute. reflexivity.
Defined.

Lemma rebalancePosition_keeps_reserve_witness :
  let w := demo_world (demo_ledger 10 0 1 100 [] []) 100 120 in
  (forall pool l bin l', getActiveBin pool l = (Ok bin, l') -> 0 < pricePerToken bin) /\
  _poolDetails (self w) = Some demo_details /\ assetASymbol demo_details <> assetBSymbol demo_details /\
  getBalance (Some (assetAMintAddress demo_details)) (ledger w) = (Ok 10, ledger w) /\
  getBalance (Some (assetBMintAddress demo_details)) (ledger w) = (Ok 0, ledger w) /\
  0 <= 10 /\ 0 <= 0 /\
  (let buffer := NATIVE_TOKEN_FEE_BUFFER (env w) in
   exists s, trace (snd (rebalancePosition w)) = trace w ++ s /\
     Forall (sells_within demo_details
               (usable_amount (is_native_symbol (assetASymbol demo_details)) buffer 10)
               (usable_amount (is_native_symbol (assetBSymbol demo_details)) buffer 0)) s).
Proof.
  intros w.
  assert (Hp := LedgerChain_price_pos).
  assert (Hne : assetASymbol demo_details <> assetBSymbol demo_details) by discriminate.
  assert (Ha : getBalance (Some (assetAMintAddress demo_details)) (ledger w) = (Ok 10, ledger w))
    by reflexivity.
  assert (Hb : getBalance (Some (assetBMintAddress demo_details)) (ledger w) = (Ok 0, ledger w))
    by reflexivity.
  assert (H10 : 0 <= 10) by (vm_compute; discriminate).
  assert (H0 : 0 <= 0) by (vm_compute; discriminate).
  do 7 (split; [assumption || reflexivity|]).
  exact (rebalancePosition_keeps_reserve w demo_details 10 0 (ledger w) (ledger w)
           Hp eq_refl Hne Ha Hb H10 H0).
Defined.

Lemma execute_plan_logs_swap_witness :
  let w := demo_world (demo_ledger 10 0 1 100 [] []) 100 120 in
  execute_plan demo_details (SwapAtoB 5) w = (Ok tt, snd (execute_plan demo_details (SwapAtoB 5) w)) /\
  exists sf out l l',
    jupiterSwap (assetAMintAddress demo_details) (assetBMintAddress demo_details) 5 l = (Ok out, l') /\
    trace (snd (execute_plan demo_details (SwapAtoB 5) w)) = trace w ++ sf ++
      [EvCall (CSwap (assetAMintAddress demo_details) (assetBMintAddress demo_details) 5) true;
       EvLog (LogAction (ActSwapped (toFixed6 5) (assetASymbol demo_details) (toFixed6 out) (assetBSymbol demo_details)))].
Proof.
  intros w.
  assert (Hr : execute_plan demo_details (SwapAtoB 5) w =
               (Ok tt, snd (execute_plan demo_details (SwapAtoB 5) w))) by (vm_compute; reflexivity).
  split; [exact Hr|].
  exact (execute_plan_logs_swap demo_details (SwapAtoB 5) w _ Hr).
Defined.
