(* ===== verification/PoolMetadata.v ===== *)
(** * The pool metadata resolver: [getPoolDetails]

    [getPoolDetails(poolAddress)] (logger.ts 308-342) fetches
    [https://dlmm-api.meteora.ag/pair/<pool>], rejects a non-OK response,
    splits the pool's [name] on ['-'] and destructures the first two parts
    as the asset symbols; any failure is caught, alerted, and turned into
    [undefined].  [String.prototype.split] is modelled with JavaScript's
    semantics (every separator splits, empty parts are kept), and array
    destructuring reads [parts[0]] and [parts[1]], [undefined] when
    missing. *)

From Stdlib Require Import DecimalString.
From S2P Require Import Prelude Monad Effects DemoLedger.

Local Open Scope Q_scope.
Open Scope rebal_scope.

(** [s.split(sep)] for a one-character separator. *)
Fixpoint split_on (sep : ascii) (s : string) : list string :=
  match s with
  | EmptyString => [EmptyString]
  | String c s' =>
      match split_on sep s' with
      | [] => [String c EmptyString]
      | part :: parts =>
          if Ascii.eqb c sep then EmptyString :: part :: parts
          else String c part :: parts
      end
  end.

(** JavaScript truthiness of a destructured string ([undefined] or [""]
    are falsy). *)
Definition truthy (o : option string) : bool :=
  match o with
  | Some s => negb (String.eqb s "")
  | None => false
  end.

(** [`${n}`] for an integer. *)
Definition string_of_Z (z : Z) : string := NilZero.string_of_int (Z.to_int z).

(** Lines 322-326: the two symbols, or [None] when the check throws. *)
Definition parse_pool_name (nm : string) : option (string * string) :=
  let parts := split_on "-" nm in
  let assetASymbol := nth_error parts 0 in
  let assetBSymbol := nth_error parts 1 in
  if truthy assetASymbol && truthy assetBSymbol
  then Some (default "" assetASymbol, default "" assetBSymbol)
  else None.

Section Resolver.
Context {L : Type} `{Chain L}.

(** [getPoolDetails(poolAddress)] *)
Definition getPoolDetails (pool : string) : M (World L) (option PoolDetails) :=
  catch (
    response <- fetch_pair pool ;;
    (if negb (ok response)
     then throw (JsError ("HTTP error! status: " ++ string_of_Z (status response)))
     else ret tt) ;;
    let data := body response in
    match parse_pool_name (name data) with
    | None => throw (JsError ("Invalid pool name format: " ++ name data))
    | Some (assetASymbol, assetBSymbol) =>
        ret (Some (mkPoolDetails (bin_step data) (mint_x data) (mint_y data)
                     assetASymbol assetBSymbol))
    end)
  (fun error =>
     sendAlert ERROR (AlertGetPoolDetails error) ;;
     ret None).
End Resolver.

(** ** Splitting *)

(** A string without the separator. *)
Fixpoint no_sep (sep : ascii) (s : string) : bool :=
  match s with
  | EmptyString => true
  | String c s' => negb (Ascii.eqb c sep) && no_sep sep s'
  end.

Lemma split_on_no_sep sep s : no_sep sep s = true -> split_on sep s = [s].
Proof.
  induction s as [|c s IH]; simpl; [reflexivity|].
  intros Hns. apply andb_prop in Hns as [Hc Hs].
  rewrite (IH Hs). apply negb_true_iff in Hc. rewrite Hc. reflexivity.
Qed.

Lemma split_on_app sep x rest :
  no_sep sep x = true ->
  split_on sep (x ++ String sep rest) = x :: split_on sep rest.
Proof.
  induction x as [|c x IH]; simpl; intros Hns.
  - destruct (split_on sep rest) as [|p ps] eqn:E.
    + destruct rest; simpl in E; [discriminate|].
      destruct (split_on sep rest); [|destruct (Ascii.eqb a sep)]; discriminate.
    + rewrite Ascii.eqb_refl. reflexivity.
  - apply andb_prop in Hns as [Hc Hs]. rewrite (IH Hs).
    apply negb_true_iff in Hc. rewrite Hc. reflexivity.
Qed.

(** ** Properties *)

(** C30. [getPoolDetails] never throws: it makes one metadata fetch
    and leaves the object's fields alone; on an HTTP success with a
    well-formed name it returns the details built from the body, and on
    every failure (a failing fetch, a non-ok status, a malformed name) it
    sends one ERROR alert carrying the error and returns [undefined]. *)
Theorem getPoolDetails_never_throws {L} `{Chain L} pool (w : World L) :
  let w' := snd (getPoolDetails pool w) in
  self w' = self w /\ ledger w' = snd (fetchPair pool (ledger w)) /\
  match fst (fetchPair pool (ledger w)) with
  | Ok resp =>
      if ok resp then
        match parse_pool_name (name (body resp)) with
        | Some (x, y) =>
            fst (getPoolDetails pool w) =
              Ok (Some (mkPoolDetails (bin_step (body resp)) (mint_x (body resp))
                          (mint_y (body resp)) x y)) /\
            trace w' = trace w ++ [EvCall (CFetchPair pool) true]
        | None =>
            fst (getPoolDetails pool w) = Ok None /\
            trace w' = trace w ++ [EvCall (CFetchPair pool) true;
              EvAlert ERROR (AlertGetPoolDetails
                (JsError ("Invalid pool name format: " ++ name (body resp))))]
        end
      else
        fst (getPoolDetails pool w) = Ok None /\
        trace w' = trace w ++ [EvCall (CFetchPair pool) true;
          EvAlert ERROR (AlertGetPoolDetails
            (JsError ("HTTP error! status: " ++ string_of_Z (status resp))))]
  | Throw e =>
      fst (getPoolDetails pool w) = Ok None /\
      trace w' = trace w ++ [EvCall (CFetchPair pool) false; EvAlert ERROR (AlertGetPoolDetails e)]
  end.
Proof.
  cbv zeta. unfold getPoolDetails, catch, bind, fetch_pair.
  rewrite ext_run.
  destruct (fetchPair pool (ledger w)) as [[resp|e] l'] eqn:E; cbn [fst snd];
    [destruct (ok resp); cbn;
     [destruct (parse_pool_name (name (body resp))) as [[x y]|]; cbn|]|cbn];
    rewrite <- ?app_assoc; auto.
Qed.

(** C31. The pool name needs at least two non-empty dash-separated parts,
    not exactly two: a name [x-y-rest] with non-empty [x] and [y] is
    accepted as the pair [(x, y)] and the rest is ignored, while a name
    with a single part or an empty first or second part is rejected. *)
Theorem parse_pool_name_spec x y rest :
  no_sep "-" x = true -> no_sep "-" y = true ->
  x <> "" -> y <> "" ->
  parse_pool_name (x ++ String "-" (y ++ String "-" rest)) = Some (x, y) /\
  parse_pool_name (x ++ String "-" y) = Some (x, y) /\
  parse_pool_name x = None /\
  parse_pool_name (String "-" y) = None /\
  parse_pool_name (x ++ String "-" "") = None.
Proof.
  intros Hx Hy Hx0 Hy0. unfold parse_pool_name.
  assert (Hx1 : String.eqb x "" = false) by (apply String.eqb_neq; exact Hx0).
  assert (Hy1 : String.eqb y "" = false) by (apply String.eqb_neq; exact Hy0).
  rewrite !split_on_app by assumption.
  rewrite (split_on_no_sep _ y Hy), (split_on_no_sep _ x Hx).
  change (String "-" y) with (String.append EmptyString (String "-" y)).
  rewrite split_on_app by reflexivity. rewrite (split_on_no_sep _ y Hy).
  simpl. rewrite Hx1, Hy1. simpl. repeat split.
Qed.

(** ** Witnesses *)

Lemma parse_pool_name_spec_witness :
  parse_pool_name "SOL-USDC-EXTRA" = Some ("SOL", "USDC") /\
  parse_pool_name "SOL-USDC" = Some ("SOL", "USDC") /\
  parse_pool_name "SOL" = None /\
  parse_pool_name "-USDC" = None /\
  parse_pool_name "SOL-" = None.
Proof.
  exact (parse_pool_name_spec "SOL" "USDC" "EXTRA" eq_refl eq_refl
           ltac:(discriminate) ltac:(discriminate)).
Defined.
