(* ===== verification/BalanceLog.v ===== *)
(** * The balance log: [BalanceLogger] and its local-file backend

    [BalanceLogger] (logger.ts 127-175) appends one line per entry to its
    storage backend: [logBalances] writes
    [[<timestamp>] <prefix>  -  <A>: <a>, <B>: <b>] and a newline, where
    the amounts are rendered by JavaScript's [Number::toString].
    [getLastBalance] reads back the last line that contains
    [TOTAL_BALANCE_PREFIX] and is not later than a given time
    ([LocalFileStorage.getLastLogByPrefix], logger.ts 31-47), and extracts
    the two amounts with the regular expression
    [/(\w+): ([\d.]+), (\w+): ([\d.]+)/] and [parseFloat]
    ([extractBalanceFromLog], logger.ts 163-169).

    A JavaScript number is given by what [Number::toString] starts from
    (ECMA-262, Number::toString, step 5): its sign, the digits [s] of its
    shortest decimal representation and the exponent [n] such that the
    value is [s * 10^(n - k)] for [k] digits.  The regular expression is
    searched leftmost-first; its four groups are followed by a character
    outside their class (or end the match), so each greedy group takes the
    longest run, as [match_at] does.  [Date] comparison of the bracketed
    timestamp with the query time is the section variable [not_after].
    The CloudWatch backend is in [CloudWatch], and the interface over both
    backends in [Storage]. *)

From S2P Require Import Prelude Effects PoolMetadata.

Local Open Scope Q_scope.

(** Appends of literal strings compute. *)
#[local] Arguments String.append : simpl nomatch.

(** ** Characters *)

Definition is_digit (c : ascii) : bool :=
  (48 <=? nat_of_ascii c)%nat && (nat_of_ascii c <=? 57)%nat.

(** [\w]: [[A-Za-z0-9_]]. *)
Definition is_word (c : ascii) : bool :=
  is_digit c || ((65 <=? nat_of_ascii c)%nat && (nat_of_ascii c <=? 90)%nat) ||
  ((97 <=? nat_of_ascii c)%nat && (nat_of_ascii c <=? 122)%nat) || Ascii.eqb c "_".

(** [[\d.]]. *)
Definition is_digit_dot (c : ascii) : bool := is_digit c || Ascii.eqb c ".".

(** What [.] does not match (the ASCII line terminators). *)
Definition is_line_terminator (c : ascii) : bool :=
  Ascii.eqb c (ascii_of_nat 10) || Ascii.eqb c (ascii_of_nat 13).

Definition newline : ascii := ascii_of_nat 10.

(** The longest prefix of [s] whose characters satisfy [f], and the rest. *)
Fixpoint span (f : ascii -> bool) (s : string) : string * string :=
  match s with
  | EmptyString => (EmptyString, EmptyString)
  | String c s' =>
      if f c then let (w, r) := span f s' in (String c w, r)
      else (EmptyString, s)
  end.

Fixpoint all_chars (f : ascii -> bool) (s : string) : bool :=
  match s with
  | EmptyString => true
  | String c s' => f c && all_chars f s'
  end.

(** ** [Number::toString] *)

Inductive JsNum :=
| JsZero
| JsFinite (negative : bool) (digits : list nat) (n : Z).

Definition digit_char (d : nat) : ascii := ascii_of_nat (48 + d).

Fixpoint digits_str (ds : list nat) : string :=
  match ds with
  | [] => EmptyString
  | d :: ds' => String (digit_char d) (digits_str ds')
  end.

(** The integer a digit sequence denotes. *)
Fixpoint digits_val_acc (acc : Z) (ds : list nat) : Z :=
  match ds with
  | [] => acc
  | d :: ds' => digits_val_acc (acc * 10 + Z.of_nat d)%Z ds'
  end.

Definition digits_val (ds : list nat) : Z := digits_val_acc 0 ds.

(** [v * 10^e] as a rational. *)
Definition scale (v e : Z) : Q :=
  if (0 <=? e)%Z then inject_Z (v * 10 ^ e) else v # Z.to_pos (10 ^ (- e)).

Definition js_value (x : JsNum) : Q :=
  match x with
  | JsZero => 0
  | JsFinite neg ds n =>
      let v := scale (digits_val ds) (n - Z.of_nat (length ds)) in
      if neg then - v else v
  end.

(** The digits are decimal digits and there is at least one. *)
Definition wf_num (x : JsNum) : bool :=
  match x with
  | JsZero => true
  | JsFinite _ ds _ => negb (Nat.eqb (length ds) 0) && forallb (fun d => Nat.ltb d 10) ds
  end.

Definition zeros (m : nat) : string := digits_str (repeat 0%nat m).

(** Steps 6-10 of Number::toString for a positive number. *)
Definition pos_to_string (ds : list nat) (n : Z) : string :=
  let k := Z.of_nat (length ds) in
  if (k <=? n)%Z && (n <=? 21)%Z then digits_str ds ++ zeros (Z.to_nat (n - k))
  else if (0 <? n)%Z && (n <=? 21)%Z then
    digits_str (firstn (Z.to_nat n) ds) ++ "." ++ digits_str (skipn (Z.to_nat n) ds)
  else if (-6 <? n)%Z && (n <=? 0)%Z then "0." ++ zeros (Z.to_nat (- n)) ++ digits_str ds
  else
    let exponent := String "e" ((if (n - 1 <? 0)%Z then "-" else "+") ++
                                string_of_Z (Z.abs (n - 1))) in
    match ds with
    | [d] => digits_str [d] ++ exponent
    | d :: rest => digits_str [d] ++ "." ++ digits_str rest ++ exponent
    | [] => exponent
    end.

(** [String(x)], as a template literal renders a number. *)
Definition js_number_to_string (x : JsNum) : string :=
  match x with
  | JsZero => "0"
  | JsFinite neg ds n => (if neg then "-" else "") ++ pos_to_string ds n
  end.

(** The plain (non-exponential) notation: [1e-6 <= |x| < 1e21], or zero. *)
Definition plain_range (x : JsNum) : bool :=
  match x with
  | JsZero => true
  | JsFinite _ _ n => (-6 <? n)%Z && (n <=? 21)%Z
  end.

(** ** [parseFloat] on the strings [[\d.]+] captures *)

Fixpoint take_digits (s : string) : list nat * string :=
  match s with
  | EmptyString => ([], EmptyString)
  | String c s' =>
      if is_digit c then let (ds, r) := take_digits s' in ((nat_of_ascii c - 48)%nat :: ds, r)
      else ([], s)
  end.

(** The longest prefix of the form [digits], [digits.digits], [digits.]
    or [.digits], read as a decimal; [None] is [NaN]. *)
Definition parseFloat (s : string) : option Q :=
  let (int, r) := take_digits s in
  let frac := match r with
              | String c r' => if Ascii.eqb c "." then fst (take_digits r') else []
              | EmptyString => []
              end in
  match int ++ frac with
  | [] => None
  | ds => Some (scale (digits_val ds) (- Z.of_nat (length frac)))
  end.

(** ** The regular expression [/(\w+): ([\d.]+), (\w+): ([\d.]+)/] *)

(** The two literal characters [c1 c2] and the rest. *)
Definition lit2 (c1 c2 : ascii) (r : string) : option string :=
  match r with
  | String x (String y r') => if Ascii.eqb x c1 && Ascii.eqb y c2 then Some r' else None
  | _ => None
  end.

Definition colon_space : string -> option string := lit2 ":" " ".
Definition comma_space : string -> option string := lit2 "," " ".

(** A non-empty greedy run of [f]-characters and the rest. *)
Definition run (f : ascii -> bool) (s : string) : option (string * string) :=
  let (w, r) := span f s in if String.eqb w "" then None else Some (w, r).

(** A match starting at the first character of [s], with its four groups. *)
Definition match_at (s : string) : option (string * string * string * string) :=
  '(w1, r1) ← run is_word s;
  r2 ← colon_space r1;
  '(d1, r3) ← run is_digit_dot r2;
  r4 ← comma_space r3;
  '(w2, r5) ← run is_word r4;
  r6 ← colon_space r5;
  '(d2, _) ← run is_digit_dot r6;
  Some (w1, d1, w2, d2).

(** [s.match(re)] for a regular expression without the [g] flag: the
    leftmost match. *)
Fixpoint regex_search (s : string) : option (string * string * string * string) :=
  match match_at s with
  | Some m => Some m
  | None => match s with
            | EmptyString => None
            | String _ s' => regex_search s'
            end
  end.

(** [extractBalanceFromLog(logMessage)] *)
Definition extractBalanceFromLog (logMessage : string) : option (option Q * option Q) :=
  match regex_search logMessage with
  | Some (_, d1, _, d2) => Some (parseFloat d1, parseFloat d2)
  | None => None
  end.

(** [line.match(/\[(.*?)\]/)?.[1]]: from the leftmost [[] that a [\]]
    follows on the same line, the text up to the first such [\]]. *)
Fixpoint lazy_close (s : string) : option string :=
  match s with
  | EmptyString => None
  | String c s' =>
      if Ascii.eqb c "]" then Some EmptyString
      else if is_line_terminator c then None
      else option_map (String c) (lazy_close s')
  end.

Fixpoint bracket_ts (s : string) : option string :=
  match s with
  | EmptyString => None
  | String c s' =>
      if Ascii.eqb c "[" then
        match lazy_close s' with
        | Some t => Some t
        | None => bracket_ts s'
        end
      else bracket_ts s'
  end.

(** ** The entries *)

(** [logBalances] (lines 144-147): the line and its newline. *)
Definition logBalances_line (timestamp : string) (a b : JsNum) (prefix sA sB : string) : string :=
  "[" ++ timestamp ++ "] " ++ prefix ++ "  -  " ++ sA ++ ": " ++ js_number_to_string a ++
  ", " ++ sB ++ ": " ++ js_number_to_string b.

Definition logBalances_entry (timestamp : string) (a b : JsNum) (prefix sA sB : string) : string :=
  logBalances_line timestamp a b prefix sA sB ++ String newline EmptyString.

(** [logCurrentPrice] (lines 151-153). *)
Definition logCurrentPrice_entry (timestamp : string) (price : JsNum) (sA sB : string) : string :=
  "[" ++ timestamp ++ "] Current price: 1 " ++ sA ++ " = " ++ js_number_to_string price ++
  " " ++ sB ++ String newline EmptyString.

(** [logAction] (lines 157-159). *)
Definition logAction_entry (timestamp action : string) : string :=
  "[" ++ timestamp ++ "] " ++ action ++ String newline EmptyString.

(** ** [LocalFileStorage] and [BalanceLogger] *)

(** The log file: [None] until the first append creates it. *)
Record LocalFileStorage := mkStorage { logFile : option string }.

(** [append(content)]: [fs.appendFileSync]. *)
Definition append (content : string) (st : LocalFileStorage) : LocalFileStorage :=
  mkStorage (Some (match logFile st with None => content | Some c => String.append c content end)).

Definition logBalances (timestamp : string) (a b : JsNum) (prefix sA sB : string)
    (st : LocalFileStorage) : LocalFileStorage :=
  append (logBalances_entry timestamp a b prefix sA sB) st.

Definition logCurrentPrice (timestamp : string) (price : JsNum) (sA sB : string)
    (st : LocalFileStorage) : LocalFileStorage :=
  append (logCurrentPrice_entry timestamp price sA sB) st.

Definition logAction (timestamp action : string) (st : LocalFileStorage) : LocalFileStorage :=
  append (logAction_entry timestamp action) st.

Section Query.
(** [new Date(logTimestamp) <= timestamp] for the query time. *)
Variable not_after : string -> bool.

(** [getLastLogByPrefix(prefix, timestamp)] (lines 31-47). *)
Definition getLastLogByPrefix (prefix : string) (st : LocalFileStorage) : option string :=
  match logFile st with
  | None => None
  | Some content =>
      let lines := split_on newline content in
      let withPrefix := List.filter (fun line => includes line prefix) lines in
      let notLater := List.filter (fun line =>
                        match bracket_ts line with
                        | Some t => negb (String.eqb t "") && not_after t
                        | None => false
                        end) withPrefix in
      match last notLater with
      | Some line => if String.eqb line "" then None else Some line
      | None => None
      end
  end.

(** [getLastBalance(timestamp)] (lines 171-174). *)
Definition getLastBalance (st : LocalFileStorage) : option (option Q * option Q) :=
  match getLastLogByPrefix TOTAL_BALANCE_PREFIX st with
  | Some logMessage => if String.eqb logMessage "" then None else extractBalanceFromLog logMessage
  | None => None
  end.
End Query.

(** The file ends at a line boundary: it is missing, empty, or its last
    character is a newline. *)
Fixpoint ends_with_newline (s : string) : bool :=
  match s with
  | EmptyString => false
  | String c EmptyString => Ascii.eqb c newline
  | String _ s' => ends_with_newline s'
  end.

Definition log_wf (st : LocalFileStorage) : bool :=
  match logFile st with
  | None => true
  | Some c => String.eqb c "" || ends_with_newline c
  end.

(** No [": "] in [s]: no key of the pattern can end inside [s]. *)
Fixpoint no_key_sep (s : string) : bool :=
  match s with
  | String x s' =>
      match s' with
      | String y _ => negb (Ascii.eqb x ":" && Ascii.eqb y " ") && no_key_sep s'
      | EmptyString => true
      end
  | EmptyString => true
  end.

(** What the round trip needs of its inputs: a timestamp that a bracket
    pair delimits and that holds no [": "] (an ISO-8601 string has none),
    symbols that are [\w+] words, and amounts that are non-negative and
    printed in plain notation. *)
Definition timestamp_ok (ts : string) : bool :=
  negb (String.eqb ts "") &&
  all_chars (fun c => negb (Ascii.eqb c "]") && negb (is_line_terminator c)) ts &&
  no_key_sep ts.

Definition word_symbol (s : string) : bool := negb (String.eqb s "") && all_chars is_word s.

Definition loggable (x : JsNum) : bool :=
  wf_num x && plain_range x &&
  match x with JsFinite true _ _ => false | _ => true end.

(** Decimal digits, and a string that does not start with one. *)
Definition digits_ok (ds : list nat) : bool := forallb (fun d => Nat.ltb d 10) ds.

Definition starts_digit (r : string) : bool :=
  match r with String c _ => is_digit c | EmptyString => false end.

(** The files reachable from a missing file by the logger's operations. *)
Inductive reachable : LocalFileStorage -> Prop :=
| reach_new : reachable (mkStorage None)
| reach_balances st ts a b prefix sA sB :
    reachable st -> reachable (logBalances ts a b prefix sA sB st)
| reach_price st ts price sA sB :
    reachable st -> reachable (logCurrentPrice ts price sA sB st)
| reach_action st ts action :
    reachable st -> reachable (logAction ts action st).

(** ** Lemmas on strings *)

Lemma string_app_assoc (a b c : string) : ((a ++ b) ++ c)%string = (a ++ (b ++ c))%string.
Proof. induction a as [|x a IH]; simpl; [reflexivity | now rewrite IH]. Qed.

Lemma all_chars_app f (a b : string) :
  all_chars f (a ++ b) = all_chars f a && all_chars f b.
Proof. induction a as [|x a IH]; simpl; [reflexivity | now rewrite IH, andb_assoc]. Qed.

Lemma all_chars_impl (f g : ascii -> bool) s :
  (forall c, f c = true -> g c = true) -> all_chars f s = true -> all_chars g s = true.
Proof.
  intros Hfg. induction s as [|c s IH]; simpl; [reflexivity|].
  intros [Hc Hs]%andb_prop. now rewrite (Hfg c Hc), (IH Hs).
Qed.

Lemma no_sep_all_chars sep s : no_sep sep s = all_chars (fun c => negb (Ascii.eqb c sep)) s.
Proof. induction s as [|c s IH]; simpl; [reflexivity | now rewrite IH]. Qed.

(** [span] splits its argument. *)
Lemma span_spec f s : (fst (span f s) ++ snd (span f s))%string = s.
Proof.
  induction s as [|c s IH]; simpl; [reflexivity|].
  destruct (f c); [|reflexivity].
  destruct (span f s) as [w r]. simpl in *. now rewrite IH.
Qed.

(** A character outside the class stops the run. *)
Lemma span_app_stop f p c t :
  f c = false ->
  span f (p ++ String c t) = (fst (span f p), (snd (span f p) ++ String c t)%string).
Proof.
  intros Hc. induction p as [|x p IH]; simpl; [now rewrite Hc|].
  destruct (f x); [|reflexivity]. rewrite IH. now destruct (span f p).
Qed.

Lemma span_all_self f a : all_chars f a = true -> span f a = (a, EmptyString).
Proof.
  induction a as [|x a IH]; simpl; [reflexivity|].
  intros [Hx Ha]%andb_prop. now rewrite Hx, (IH Ha).
Qed.

Lemma span_all f a c t :
  all_chars f a = true -> f c = false -> span f (a ++ String c t) = (a, String c t).
Proof. intros Ha Hc. now rewrite (span_app_stop _ _ _ _ Hc), (span_all_self _ _ Ha). Qed.

Lemma run_all f a c t :
  negb (String.eqb a "") && all_chars f a = true -> f c = false ->
  run f (a ++ String c t) = Some (a, String c t).
Proof.
  intros [Hne Ha]%andb_prop Hc. unfold run. rewrite (span_all _ _ _ _ Ha Hc).
  apply negb_true_iff in Hne. now rewrite Hne.
Qed.

Lemma no_key_sep_app_r a b : no_key_sep (a ++ b) = true -> no_key_sep b = true.
Proof.
  induction a as [|x a IH]; simpl; [tauto|].
  destruct (a ++ b)%string eqn:E; intros H.
  - destruct a; [|discriminate]. simpl in E. now subst.
  - apply IH. now apply andb_prop in H as [_ H].
Qed.

(** Where no [": "] starts, [colon_space] fails. *)
Lemma colon_space_none r c t :
  no_key_sep (r ++ String c EmptyString) = true -> Ascii.eqb c ":" = false ->
  colon_space (r ++ String c t) = None.
Proof.
  intros Hk Hc. unfold colon_space, lit2.
  destruct r as [|y [|z r]]; simpl in *.
  - destruct t; [reflexivity|]. now rewrite Hc.
  - apply andb_prop in Hk as [Hk _]. apply negb_true_iff in Hk. now rewrite Hk.
  - apply andb_prop in Hk as [Hk _]. apply negb_true_iff in Hk. now rewrite Hk.
Qed.

Lemma regex_search_unfold s :
  regex_search s = match match_at s with
                   | Some m => Some m
                   | None => match s with EmptyString => None | String _ s' => regex_search s' end
                   end.
Proof. destruct s; reflexivity. Qed.

(** No match starts inside a part [p] that holds no [": "] and is
    followed by a character that neither extends a word nor starts
    [": "]. *)
Lemma match_at_skip p c t :
  is_word c = false -> Ascii.eqb c ":" = false ->
  no_key_sep (p ++ String c EmptyString) = true -> match_at (p ++ String c t) = None.
Proof.
  intros Hw Hc Hk. unfold match_at, run. rewrite (span_app_stop _ _ _ _ Hw).
  destruct (String.eqb (fst (span is_word p)) "") eqn:E; [reflexivity|]. simpl.
  rewrite colon_space_none; [reflexivity| |exact Hc].
  rewrite <- (span_spec is_word p), string_app_assoc in Hk.
  exact (no_key_sep_app_r _ _ Hk).
Qed.

Lemma regex_search_skip p c t :
  is_word c = false -> Ascii.eqb c ":" = false ->
  no_key_sep (p ++ String c EmptyString) = true -> regex_search (p ++ String c t) = regex_search t.
Proof.
  intros Hw Hc. induction p as [|x p IH]; intros Hk.
  - rewrite regex_search_unfold, (match_at_skip "" c t Hw Hc Hk). reflexivity.
  - rewrite regex_search_unfold, (match_at_skip (String x p) c t Hw Hc Hk).
    apply IH. exact (no_key_sep_app_r (String x EmptyString) _ Hk).
Qed.

(** ** Lemmas on digits and [parseFloat] *)

Lemma string_app_nil (s : string) : (s ++ EmptyString)%string = s.
Proof. induction s as [|c s IH]; simpl; [reflexivity | now rewrite IH]. Qed.

Lemma digit_char_spec d :
  (d < 10)%nat -> is_digit (digit_char d) = true /\ (nat_of_ascii (digit_char d) - 48 = d)%nat.
Proof.
  intros Hd. unfold is_digit, digit_char. rewrite nat_ascii_embedding by lia.
  split; [apply andb_true_intro; split; apply Nat.leb_le | ]; lia.
Qed.

Lemma digits_str_app a b : digits_str (a ++ b) = (digits_str a ++ digits_str b)%string.
Proof. induction a as [|d a IH]; simpl; [reflexivity | now rewrite IH]. Qed.

Lemma all_digits ds : digits_ok ds = true -> all_chars is_digit (digits_str ds) = true.
Proof.
  induction ds as [|d ds IH]; cbn [all_chars digits_str forallb digits_ok]; [reflexivity|].
  intros [Hd Hds]%andb_prop. apply Nat.ltb_lt in Hd.
  now rewrite (proj1 (digit_char_spec d Hd)), (IH Hds).
Qed.

Lemma digits_ok_app a b : digits_ok (a ++ b) = digits_ok a && digits_ok b.
Proof. apply forallb_app. Qed.

Lemma digits_ok_repeat m : digits_ok (repeat 0%nat m) = true.
Proof. induction m; simpl; [reflexivity | exact IHm]. Qed.

Lemma take_digits_str ds r :
  digits_ok ds = true -> starts_digit r = false -> take_digits (digits_str ds ++ r) = (ds, r).
Proof.
  intros Hds Hr. induction ds as [|d ds IH];
    cbn [digits_str String.append digits_ok forallb] in *.
  - destruct r as [|c r]; cbn [take_digits starts_digit] in *; [reflexivity | now rewrite Hr].
  - apply andb_prop in Hds as [Hd Hds]. apply Nat.ltb_lt in Hd. cbn [take_digits].
    destruct (digit_char_spec d Hd) as [E1 E2]. now rewrite E1, (IH Hds), E2.
Qed.

Lemma digits_val_acc_app acc a b :
  digits_val_acc acc (a ++ b) = digits_val_acc (digits_val_acc acc a) b.
Proof. revert acc. induction a as [|d a IH]; intros acc; simpl; [reflexivity | apply IH]. Qed.

Lemma digits_val_acc_spec acc ds :
  digits_val_acc acc ds = (acc * 10 ^ Z.of_nat (length ds) + digits_val ds)%Z.
Proof.
  revert acc. induction ds as [|d ds IH]; intros acc; unfold digits_val; simpl.
  - lia.
  - rewrite !IH, Nat2Z.inj_succ, Z.pow_succ_r by lia. ring.
Qed.

Lemma digits_val_app a b :
  digits_val (a ++ b) = (digits_val a * 10 ^ Z.of_nat (length b) + digits_val b)%Z.
Proof. unfold digits_val at 1. now rewrite digits_val_acc_app, digits_val_acc_spec. Qed.

Lemma digits_val_zeros m ds : digits_val (repeat 0%nat m ++ ds) = digits_val ds.
Proof.
  rewrite digits_val_app. replace (digits_val (repeat 0%nat m)) with 0%Z; [lia|].
  induction m as [|m IH]; [reflexivity|]. unfold digits_val in *. simpl. exact IH.
Qed.

Lemma parseFloat_int L r :
  L <> [] -> digits_ok L = true -> starts_digit r = false ->
  (forall r', r <> String "." r') ->
  parseFloat (digits_str L ++ r) = Some (scale (digits_val L) 0).
Proof.
  intros HL Hok Hr Hdot. unfold parseFloat. rewrite (take_digits_str _ _ Hok Hr).
  replace (match r with String c r' => if Ascii.eqb c "." then fst (take_digits r') else []
           | EmptyString => [] end) with (@nil nat).
  - rewrite app_nil_r. destruct L; [congruence | reflexivity].
  - destruct r as [|c r']; [reflexivity|].
    destruct (Ascii.eqb c ".") eqn:E; [|reflexivity].
    apply Ascii.eqb_eq in E. subst. exfalso. exact (Hdot r' eq_refl).
Qed.

Lemma parseFloat_frac L F :
  L ++ F <> [] -> digits_ok L = true -> digits_ok F = true ->
  parseFloat (digits_str L ++ "." ++ digits_str F) =
    Some (scale (digits_val (L ++ F)) (- Z.of_nat (length F))).
Proof.
  intros HLF HL HF. unfold parseFloat.
  rewrite (take_digits_str L ("." ++ digits_str F)%string HL eq_refl).
  cbn [String.append]. rewrite Ascii.eqb_refl, <- (string_app_nil (digits_str F)).
  rewrite (take_digits_str F EmptyString HF eq_refl). cbn [fst].
  destruct (L ++ F); [congruence | reflexivity].
Qed.

Lemma digits_val_repeat m : digits_val (repeat 0%nat m) = 0%Z.
Proof. rewrite <- (app_nil_r (repeat 0%nat m)), digits_val_zeros. reflexivity. Qed.

Lemma digits_to_dd s : all_chars is_digit s = true -> all_chars is_digit_dot s = true.
Proof.
  apply all_chars_impl. intros c Hc. unfold is_digit_dot. now rewrite Hc.
Qed.

(** Turns the boolean comparisons of a [Number::toString] branch into
    hypotheses [lia] reads. *)
Ltac zcmp :=
  repeat match goal with
  | H : (_ && _) = true |- _ => apply andb_prop in H as [? ?]
  | H : (_ && _) = false |- _ => apply andb_false_iff in H as [?|?]
  | H : (_ <=? _)%Z = true |- _ => apply Z.leb_le in H
  | H : (_ <=? _)%Z = false |- _ => apply Z.leb_gt in H
  | H : (_ <? _)%Z = true |- _ => apply Z.ltb_lt in H
  | H : (_ <? _)%Z = false |- _ => apply Z.ltb_ge in H
  end.

(** In plain notation a non-negative number prints as digits and dots,
    and [parseFloat] reads its value back. *)
Lemma digits_ok_split m ds :
  digits_ok ds = true -> digits_ok (firstn m ds) = true /\ digits_ok (skipn m ds) = true.
Proof. intros H. rewrite <- (firstn_skipn m ds), digits_ok_app in H. now apply andb_prop. Qed.

Lemma number_roundtrip x :
  loggable x = true ->
  all_chars is_digit_dot (js_number_to_string x) = true /\
  parseFloat (js_number_to_string x) = Some (js_value x).
Proof.
  destruct x as [|[] ds n]; [intros _; split; reflexivity
                            | unfold loggable; rewrite andb_false_r; discriminate|].
  unfold loggable, wf_num, plain_range. rewrite andb_true_r.
  intros [[Hlen Hds]%andb_prop Hpl]%andb_prop. fold (digits_ok ds) in Hds. zcmp.
  assert (Hne : ds <> []) by (destruct ds; discriminate).
  unfold js_number_to_string, js_value, pos_to_string. change ((EmptyString ++ ?X)%string) with X.
  set (k := Z.of_nat (length ds)).
  destruct ((k <=? n)%Z && (n <=? 21)%Z) eqn:E1;
    [|destruct ((0 <? n)%Z && (n <=? 21)%Z) eqn:E2;
      [|destruct ((-6 <? n)%Z && (n <=? 0)%Z) eqn:E3]]; zcmp; try lia.
  - unfold zeros. rewrite <- digits_str_app.
    assert (Hok : digits_ok (ds ++ repeat 0%nat (Z.to_nat (n - k))) = true)
      by (rewrite digits_ok_app, digits_ok_repeat, Hds; reflexivity).
    split; [now apply digits_to_dd, all_digits|].
    rewrite <- (string_app_nil (digits_str (ds ++ repeat 0%nat (Z.to_nat (n - k))))).
    rewrite parseFloat_int; [| destruct ds; simpl; congruence | exact Hok
                             | reflexivity | discriminate].
    rewrite digits_val_app, digits_val_repeat, repeat_length, Z2Nat.id by lia.
    unfold scale. rewrite !(proj2 (Z.leb_le _ _)) by lia.
    do 2 f_equal. ring.
  - destruct (digits_ok_split (Z.to_nat n) ds Hds) as [Hf Hs]. split.
    + rewrite !all_chars_app, (digits_to_dd _ (all_digits _ Hf)),
        (digits_to_dd _ (all_digits _ Hs)). reflexivity.
    + rewrite parseFloat_frac, firstn_skipn by (rewrite ?firstn_skipn; assumption).
      rewrite length_skipn. fold k. do 3 f_equal. lia.
  - unfold zeros. rewrite <- digits_str_app.
    change ("0." ++ ?X)%string with (digits_str [0%nat] ++ "." ++ X)%string.
    assert (Hok : digits_ok (repeat 0%nat (Z.to_nat (- n)) ++ ds) = true)
      by (rewrite digits_ok_app, digits_ok_repeat; assumption).
    split.
    + rewrite !all_chars_app, (digits_to_dd _ (all_digits _ Hok)). reflexivity.
    + rewrite parseFloat_frac by (reflexivity || discriminate || exact Hok).
      change ([0%nat] ++ repeat 0%nat (Z.to_nat (- n)) ++ ds) with
        (repeat 0%nat (S (Z.to_nat (- n))) ++ ds).
      rewrite digits_val_zeros, length_app, repeat_length. fold k. do 3 f_equal. lia.
Qed.

(** ** The regular expression on a balance line *)

Lemma regex_search_nonword c t : is_word c = false -> regex_search (String c t) = regex_search t.
Proof. intros Hc. rewrite regex_search_unfold. unfold match_at, run. simpl. now rewrite Hc. Qed.

Lemma no_key_sep_snoc ts c :
  no_key_sep ts = true -> Ascii.eqb c " " = false -> no_key_sep (ts ++ String c EmptyString) = true.
Proof.
  intros Hts Hc. induction ts as [|x ts IH]; [reflexivity|].
  destruct ts as [|y ts].
  - simpl. now rewrite Hc, andb_false_r.
  - simpl in Hts |- *. apply andb_prop in Hts as [Hxy Hts].
    rewrite Hxy. exact (IH Hts).
Qed.

Lemma run_all_end f a :
  negb (String.eqb a "") && all_chars f a = true -> run f a = Some (a, EmptyString).
Proof.
  intros [Hne Ha]%andb_prop. unfold run. rewrite (span_all_self _ _ Ha).
  apply negb_true_iff in Hne. now rewrite Hne.
Qed.

Lemma number_nonempty x :
  loggable x = true -> negb (String.eqb (js_number_to_string x) "") && all_chars is_digit_dot (js_number_to_string x) = true.
Proof.
  intros Hx. destruct (number_roundtrip x Hx) as [Hdd Hp]. rewrite Hdd, andb_true_r.
  destruct (js_number_to_string x); [discriminate | reflexivity].
Qed.

Lemma colon_space_lit r : colon_space (String ":" (String " " r)) = Some r.
Proof. reflexivity. Qed.

Lemma comma_space_lit r : comma_space (String "," (String " " r)) = Some r.
Proof. reflexivity. Qed.

(** The first match on a balance line is the one at the first symbol;
    its last group is the run of digits and dots that starts the second
    amount. *)
Lemma match_at_symbols sA sB a nb d2 r :
  word_symbol sA = true -> word_symbol sB = true -> loggable a = true ->
  run is_digit_dot nb = Some (d2, r) ->
  match_at (sA ++ ": " ++ js_number_to_string a ++ ", " ++ sB ++ ": " ++ nb)
  = Some (sA, js_number_to_string a, sB, d2).
Proof.
  intros HA HB Ha Hb. unfold match_at. cbn [String.append].
  rewrite (run_all _ _ ":" _ HA eq_refl). cbn [mbind option_bind]. rewrite colon_space_lit.
  cbn [mbind option_bind].
  rewrite (run_all _ _ "," _ (number_nonempty a Ha) eq_refl). cbn [mbind option_bind].
  rewrite comma_space_lit. cbn [mbind option_bind].
  rewrite (run_all _ _ ":" _ HB eq_refl). cbn [mbind option_bind]. rewrite colon_space_lit.
  cbn [mbind option_bind]. rewrite Hb. reflexivity.
Qed.

(** What [extractBalanceFromLog] reads from a balance line whose second
    amount is followed by any text [nb]: the first amount, and the number
    [parseFloat] makes of the leading digits and dots of [nb]. *)
Lemma extract_text_run ts a nb sA sB d2 r :
  timestamp_ok ts = true -> word_symbol sA = true -> word_symbol sB = true ->
  loggable a = true -> run is_digit_dot nb = Some (d2, r) ->
  extractBalanceFromLog ("[" ++ ts ++ "] " ++ TOTAL_BALANCE_PREFIX ++ "  -  " ++ sA ++ ": " ++
    js_number_to_string a ++ ", " ++ sB ++ ": " ++ nb) =
    Some (Some (js_value a), parseFloat d2).
Proof.
  intros Hts HA HB Ha Hb. apply andb_prop in Hts as [_ Hks].
  unfold extractBalanceFromLog. cbn [String.append].
  rewrite (regex_search_nonword "[") by reflexivity.
  rewrite (regex_search_skip ts "]") by (reflexivity || now apply no_key_sep_snoc).
  match goal with
  | |- context [regex_search (String " " (TOTAL_BALANCE_PREFIX ++
        String " " (String " " (String "-" (String " " (String " " ?R))))))] =>
    change (regex_search (String " " (TOTAL_BALANCE_PREFIX ++
        String " " (String " " (String "-" (String " " (String " " R)))))))
      with (regex_search ((" " ++ TOTAL_BALANCE_PREFIX ++ "  - ") ++ String " " R));
    rewrite (regex_search_skip _ " " R) by reflexivity
  end.
  pose proof (match_at_symbols _ _ _ _ _ _ HA HB Ha Hb) as Hm. cbn [String.append] in Hm.
  rewrite regex_search_unfold, Hm.
  now rewrite (proj2 (number_roundtrip a Ha)).
Qed.

Lemma extract_line_run ts a b sA sB d2 r :
  timestamp_ok ts = true -> word_symbol sA = true -> word_symbol sB = true ->
  loggable a = true -> run is_digit_dot (js_number_to_string b) = Some (d2, r) ->
  extractBalanceFromLog (logBalances_line ts a b TOTAL_BALANCE_PREFIX sA sB) =
    Some (Some (js_value a), parseFloat d2).
Proof. apply extract_text_run. Qed.

Lemma extract_line ts a b sA sB :
  timestamp_ok ts = true -> word_symbol sA = true -> word_symbol sB = true ->
  loggable a = true -> loggable b = true ->
  extractBalanceFromLog (logBalances_line ts a b TOTAL_BALANCE_PREFIX sA sB) =
    Some (Some (js_value a), Some (js_value b)).
Proof.
  intros Hts HA HB Ha Hb.
  rewrite (extract_line_run ts a b sA sB _ _ Hts HA HB Ha (run_all_end _ _ (number_nonempty b Hb))).
  now rewrite (proj2 (number_roundtrip b Hb)).
Qed.

(** The same read on the entry with its final newline, as the CloudWatch
    backend returns it. *)
Lemma extract_entry ts a b sA sB :
  timestamp_ok ts = true -> word_symbol sA = true -> word_symbol sB = true ->
  loggable a = true -> loggable b = true ->
  extractBalanceFromLog (logBalances_entry ts a b TOTAL_BALANCE_PREFIX sA sB) =
    Some (Some (js_value a), Some (js_value b)).
Proof.
  intros Hts HA HB Ha Hb. unfold logBalances_entry, logBalances_line. rewrite !string_app_assoc.
  rewrite (extract_text_run ts a _ sA sB _ _ Hts HA HB Ha
             (run_all _ _ newline EmptyString (number_nonempty b Hb) eq_refl)).
  now rewrite (proj2 (number_roundtrip b Hb)).
Qed.

(** ** The log file *)

Lemma split_on_nonempty sep s : split_on sep s <> [].
Proof.
  destruct s as [|c s]; simpl; [discriminate|].
  destruct (split_on sep s); [discriminate|]. destruct (Ascii.eqb c sep); discriminate.
Qed.

(** [(a + sep + b).split(sep)] is [a.split(sep)] followed by [b.split(sep)]. *)
Lemma split_on_sep_app sep a b :
  split_on sep (a ++ String sep b) = split_on sep a ++ split_on sep b.
Proof.
  induction a as [|c a IH]; simpl.
  - destruct (split_on sep b) as [|p ps] eqn:E; [now apply split_on_nonempty in E|].
    now rewrite Ascii.eqb_refl.
  - rewrite IH. destruct (split_on sep a) as [|p ps] eqn:E; [now apply split_on_nonempty in E|].
    simpl. now destruct (Ascii.eqb c sep).
Qed.

Lemma ends_with_newline_inv c :
  ends_with_newline c = true -> exists c', c = (c' ++ String newline EmptyString)%string.
Proof.
  induction c as [|x c IH]; [discriminate|]. destruct c as [|y c].
  - intros E. apply Ascii.eqb_eq in E. subst. now exists EmptyString.
  - intros E. destruct (IH E) as [c' ->]. now exists (String x c').
Qed.

Lemma ends_with_newline_app a e :
  ends_with_newline e = true -> ends_with_newline (a ++ e) = true.
Proof.
  intros He. induction a as [|x a IH]; [exact He|]. simpl.
  destruct (a ++ e)%string eqn:E; [|exact IH]. destruct e; [discriminate|].
  destruct a; discriminate.
Qed.

(** Appending an entry that ends with a newline keeps the file at a line
    boundary. *)
Lemma append_wf e st : ends_with_newline e = true -> log_wf (append e st) = true.
Proof.
  intros He. unfold log_wf, append. simpl.
  destruct (logFile st); [|now rewrite He, orb_true_r].
  now rewrite ends_with_newline_app, orb_true_r.
Qed.

Lemma ends_with_newline_snoc s : ends_with_newline (s ++ String newline EmptyString) = true.
Proof. apply ends_with_newline_app. reflexivity. Qed.

(** The lines of the file after one more line is appended. *)
Lemma lines_after_append st line :
  log_wf st = true -> no_sep newline line = true ->
  exists L content, logFile (append (line ++ String newline EmptyString) st) = Some content /\
                    split_on newline content = L ++ [line; EmptyString].
Proof.
  intros Hwf Hl. unfold append, log_wf in *. simpl.
  assert (Hline : split_on newline (line ++ String newline EmptyString) = [line; EmptyString])
    by (rewrite split_on_sep_app, (split_on_no_sep _ _ Hl); reflexivity).
  destruct (logFile st) as [c|]; [|now exists [], (line ++ String newline EmptyString)%string].
  apply orb_prop in Hwf as [Hc|Hc].
  - apply String.eqb_eq in Hc. subst. now exists [], (line ++ String newline EmptyString)%string.
  - destruct (ends_with_newline_inv c Hc) as [c' ->].
    exists (split_on newline c'), ((c' ++ String newline EmptyString) ++
                                   (line ++ String newline EmptyString))%string.
    split; [reflexivity|].
    rewrite string_app_assoc. simpl. now rewrite split_on_sep_app, Hline.
Qed.

(** The last line kept by two filters, when the file ends with [line] and
    the empty string after the final newline. *)
Lemma last_filter_lines (f g : string -> bool) L line :
  f line = true -> g line = true -> g EmptyString = false ->
  last (List.filter g (List.filter f (L ++ [line; EmptyString]))) = Some line.
Proof.
  intros Hf Hg He. rewrite List.filter_app. cbn [List.filter]. rewrite Hf.
  destruct (f EmptyString); rewrite List.filter_app; cbn [List.filter]; rewrite Hg;
    [rewrite He|]; apply last_snoc.
Qed.

(** ** Facts about a balance line *)

Lemma prefix_app n r : String.prefix n (n ++ r) = true.
Proof.
  induction n as [|c n IH]; simpl; [now destruct r|].
  destruct (ascii_dec c c); [exact IH | contradiction].
Qed.

Lemma includes_unfold s n :
  includes s n = String.prefix n s || match s with EmptyString => false | String _ s' => includes s' n end.
Proof. destruct s; reflexivity. Qed.

Lemma includes_app_r a b n : includes b n = true -> includes (a ++ b) n = true.
Proof.
  intros Hb. induction a as [|c a IH]; [exact Hb|].
  rewrite includes_unfold. simpl. now rewrite IH, orb_true_r.
Qed.

Lemma includes_here n r : includes (n ++ r) n = true.
Proof. rewrite includes_unfold, prefix_app. reflexivity. Qed.

Lemma lazy_close_ts ts r :
  all_chars (fun c => negb (Ascii.eqb c "]") && negb (is_line_terminator c)) ts = true ->
  lazy_close (ts ++ String "]" r) = Some ts.
Proof.
  induction ts as [|x ts IH]; [reflexivity|]. simpl.
  intros [[Hx Ht]%andb_prop Hts]%andb_prop.
  apply negb_true_iff in Hx, Ht. now rewrite Hx, Ht, (IH Hts).
Qed.

Lemma not_newline (f : ascii -> bool) :
  f newline = false -> forall c, f c = true -> negb (Ascii.eqb c newline) = true.
Proof.
  intros Hn c Hc. destruct (Ascii.eqb c newline) eqn:E; [|reflexivity].
  apply Ascii.eqb_eq in E. subst. congruence.
Qed.

Lemma line_no_newline ts a b sA sB :
  timestamp_ok ts = true -> word_symbol sA = true -> word_symbol sB = true ->
  loggable a = true -> loggable b = true ->
  no_sep newline (logBalances_line ts a b TOTAL_BALANCE_PREFIX sA sB) = true.
Proof.
  intros [[_ Hts]%andb_prop _]%andb_prop [_ HA]%andb_prop [_ HB]%andb_prop Ha Hb.
  apply number_nonempty, andb_prop in Ha as [_ Ha]. apply number_nonempty, andb_prop in Hb as [_ Hb].
  rewrite no_sep_all_chars. unfold logBalances_line. rewrite !all_chars_app.
  rewrite (all_chars_impl _ _ ts (not_newline _ eq_refl) Hts),
    (all_chars_impl _ _ sA (not_newline _ eq_refl) HA), (all_chars_impl _ _ sB (not_newline _ eq_refl) HB),
    (all_chars_impl _ _ _ (not_newline _ eq_refl) Ha), (all_chars_impl _ _ _ (not_newline _ eq_refl) Hb).
  reflexivity.
Qed.

(** The line is the last one [getLastLogByPrefix] keeps. *)
Lemma line_kept (not_after : string -> bool) ts a b sA sB :
  timestamp_ok ts = true -> not_after ts = true ->
  includes (logBalances_line ts a b TOTAL_BALANCE_PREFIX sA sB) TOTAL_BALANCE_PREFIX = true /\
  match bracket_ts (logBalances_line ts a b TOTAL_BALANCE_PREFIX sA sB) with
  | Some t => negb (String.eqb t "") && not_after t
  | None => false
  end = true.
Proof.
  intros Hts Hn. unfold logBalances_line. split.
  - do 3 apply includes_app_r. apply includes_here.
  - apply andb_prop in Hts as [[Hne Hch]%andb_prop _].
    cbn [String.append bracket_ts Ascii.eqb]. simpl. rewrite (lazy_close_ts _ _ Hch).
    now rewrite Hne, Hn.
Qed.

(** ** Files the logger writes *)

Ltac ends_nl :=
  repeat match goal with
  | |- ends_with_newline (String.append _ _) = true => apply ends_with_newline_app
  end; reflexivity.

Lemma getLast_appended (not_after : string -> bool) st ts a b sA sB :
  log_wf st = true -> timestamp_ok ts = true -> not_after ts = true ->
  word_symbol sA = true -> word_symbol sB = true -> loggable a = true -> loggable b = true ->
  getLastLogByPrefix not_after TOTAL_BALANCE_PREFIX (logBalances ts a b TOTAL_BALANCE_PREFIX sA sB st)
  = Some (logBalances_line ts a b TOTAL_BALANCE_PREFIX sA sB).
Proof.
  intros Hwf Hts Hn HA HB Ha Hb.
  destruct (lines_after_append st _ Hwf (line_no_newline ts a b sA sB Hts HA HB Ha Hb))
    as [L [content [Hf Hs]]].
  destruct (line_kept not_after ts a b sA sB Hts Hn) as [Hi Hk].
  unfold getLastLogByPrefix, logBalances, logBalances_entry. rewrite Hf. cbv zeta. rewrite Hs.
  rewrite last_filter_lines by assumption || reflexivity. reflexivity.
Qed.

Lemma reachable_wf st : reachable st -> log_wf st = true.
Proof.
  induction 1; [reflexivity| | |];
    unfold logBalances, logCurrentPrice, logAction; apply append_wf;
    unfold logBalances_entry, logBalances_line, logCurrentPrice_entry, logAction_entry; ends_nl.
Qed.

(** The second amount printed in exponent notation: the leading run of
    digits and dots is the mantissa. *)
Lemma run_exponent d rest n :
  digits_ok (d :: rest) = true -> (n <= -6 \/ 21 < n)%Z ->
  exists r, run is_digit_dot (js_number_to_string (JsFinite false (d :: rest) n)) =
    Some (match rest with
          | [] => digits_str [d]
          | _ => (digits_str [d] ++ "." ++ digits_str rest)%string
          end, String "e" r).
Proof.
  intros Hok Hn. unfold js_number_to_string, pos_to_string.
  change ((EmptyString ++ ?X)%string) with X.
  set (k := Z.of_nat (length (d :: rest))).
  assert (Hk : (1 <= k)%Z) by (unfold k; simpl; lia).
  destruct ((k <=? n)%Z && (n <=? 21)%Z) eqn:E1; [zcmp; lia|].
  destruct ((0 <? n)%Z && (n <=? 21)%Z) eqn:E2; [zcmp; lia|].
  destruct ((-6 <? n)%Z && (n <=? 0)%Z) eqn:E3; [zcmp; lia|].
  cbv zeta. simpl in Hok. apply andb_prop in Hok as [Hd Hrest].
  assert (Hd' : digits_ok [d] = true) by (simpl; now rewrite Hd).
  destruct rest as [|x rest]; eexists.
  - apply run_all; [|reflexivity].
    rewrite (digits_to_dd _ (all_digits _ Hd')), andb_true_r. reflexivity.
  - rewrite <- string_app_assoc, <- string_app_assoc. apply run_all; [|reflexivity].
    rewrite !all_chars_app, (digits_to_dd _ (all_digits _ Hd')),
      (digits_to_dd _ (all_digits _ Hrest)). reflexivity.
Qed.

(** ** Properties *)

(** C19. Round trip of the total-balance record: after [logBalances]
    appends a total-balance line to any file the logger wrote, for a
    timestamp not after the query time, symbols that are [\w+] words and
    non-negative amounts in plain notation, [getLastBalance] returns exactly
    the two amounts that were logged. *)
Theorem getLastBalance_roundtrip (not_after : string -> bool) st ts a b sA sB :
  reachable st -> timestamp_ok ts = true -> not_after ts = true ->
  word_symbol sA = true -> word_symbol sB = true -> loggable a = true -> loggable b = true ->
  getLastBalance not_after (logBalances ts a b TOTAL_BALANCE_PREFIX sA sB st) =
    Some (Some (js_value a), Some (js_value b)).
Proof.
  intros Hr Hts Hn HA HB Ha Hb. unfold getLastBalance.
  rewrite (getLast_appended _ _ _ _ _ _ _ (reachable_wf _ Hr) Hts Hn HA HB Ha Hb).
  replace (String.eqb (logBalances_line ts a b TOTAL_BALANCE_PREFIX sA sB) "") with false
    by reflexivity.
  exact (extract_line ts a b sA sB Hts HA HB Ha Hb).
Qed.

(** C24. A second amount that JavaScript prints in exponent notation (below
    [1e-6] or from [1e21] on) is read back as its mantissa: the pattern's
    [[\d.]+] group stops at the [e], so [getLastBalance]'s parser returns
    [d.ddd] instead of [d.ddd * 10^(n-1)]. *)
Theorem extract_exponent_mantissa ts a d rest n sA sB :
  timestamp_ok ts = true -> word_symbol sA = true -> word_symbol sB = true ->
  loggable a = true -> digits_ok (d :: rest) = true -> (n <= -6 \/ 21 < n)%Z ->
  extractBalanceFromLog
    (logBalances_line ts a (JsFinite false (d :: rest) n) TOTAL_BALANCE_PREFIX sA sB) =
  Some (Some (js_value a),
        Some (scale (digits_val (d :: rest)) (1 - Z.of_nat (length (d :: rest))))).
Proof.
  intros Hts HA HB Ha Hok Hn. destruct (run_exponent d rest n Hok Hn) as [r Hr].
  rewrite (extract_line_run _ _ _ _ _ _ _ Hts HA HB Ha Hr). do 2 f_equal.
  simpl in Hok. apply andb_prop in Hok as [Hd Hrest].
  assert (Hd' : digits_ok [d] = true) by (simpl; now rewrite Hd).
  destruct rest as [|x rest].
  - rewrite <- (string_app_nil (digits_str [d])), parseFloat_int by (discriminate || assumption || reflexivity).
    reflexivity.
  - rewrite parseFloat_frac by (discriminate || assumption).
    cbn [length app]. do 2 f_equal. lia.
Qed.

(** Two concrete records: with [5e-7] as the second amount the record
    reads back [5]; with it as the first amount the pattern finds no match
    at all and [getLastBalance] returns [null]. *)
Theorem getLastBalance_exponent_examples :
  js_number_to_string (JsFinite false [5%nat] (-6)) = "5e-7" /\
  getLastBalance (fun _ => true)
    (logBalances "2024-01-01T12:00:00.000Z" (JsFinite false [1;2;5]%nat 1)
       (JsFinite false [5%nat] (-6)) TOTAL_BALANCE_PREFIX "SOL" "USDC" (mkStorage None))
  = Some (Some (js_value (JsFinite false [1;2;5]%nat 1)), Some 5) /\
  getLastBalance (fun _ => true)
    (logBalances "2024-01-01T12:00:00.000Z" (JsFinite false [5%nat] (-6))
       (JsFinite false [1;2;5]%nat 1) TOTAL_BALANCE_PREFIX "SOL" "USDC" (mkStorage None))
  = None.
Proof. vm_compute. repeat split. Qed.

(** ** Witnesses *)

(** A file holding one action line, then a record of [12.5 SOL] and
    [300 USDC]. *)
Lemma getLastBalance_roundtrip_witness :
  let st := logAction "2024-01-01T00:00:00.000Z" "Started" (mkStorage None) in
  let a := JsFinite false [1;2;5]%nat 2 in
  let b := JsFinite false [3%nat] 3 in
  reachable st /\
  getLastBalance (fun _ => true)
    (logBalances "2024-01-01T12:00:00.000Z" a b TOTAL_BALANCE_PREFIX "SOL" "USDC" st) =
    Some (Some (js_value a), Some (js_value b)).
Proof.
  intros st a b. split; [apply reach_action, reach_new|].
  apply getLastBalance_roundtrip; [apply reach_action, reach_new | reflexivity ..].
Defined.

(** [12.5 SOL] and [5e-7 USDC]: the second amount reads back as [5]. *)
Lemma extract_exponent_mantissa_witness :
  extractBalanceFromLog
    (logBalances_line "2024-01-01T12:00:00.000Z" (JsFinite false [1;2;5]%nat 2)
       (JsFinite false [5%nat] (-6)) TOTAL_BALANCE_PREFIX "SOL" "USDC") =
  Some (Some (js_value (JsFinite false [1;2;5]%nat 2)), Some (scale 5 0)).
Proof.
  apply (extract_exponent_mantissa _ _ 5%nat [] (-6)); (reflexivity || lia).
Defined.
