(* ===== verification/CloudWatch.v ===== *)
(** * The balance log's CloudWatch backend

    [BalanceLogger] writes through a [StorageBackend] (logger.ts 11-14),
    chosen by [USE_CLOUD_WATCH_STORAGE]: the local file of [BalanceLog], or
    [CloudWatchStorage] (logger.ts 50-125), modelled here.  Its state is
    the log stream, the list of [(timestamp, message)] events in the order
    they were put.  [append] puts one event stamped with [Date.now()] (a
    parameter: the clock).  [getLastLogByPrefix] asks the service for the
    events before [endTime] ([GetLogEvents] with [limit: 1000]), keeps
    those whose message includes the prefix and whose timestamp is not
    after the query time, sorts them newest first with [Array.prototype.sort]
    and returns the first message.  The service is not code of the
    repository: [getLogEvents] models the documented semantics of
    [GetLogEvents] (an exclusive [endTime]; without [startFromHead], the
    latest [limit] events of the range, oldest first).

    The theorems: the query is equivalent to the reference "last matching
    event" (the filter-then-pop of the local backend) on a stream with
    strictly increasing timestamps and at most 1000 events in range; a
    message appended after every event already in the stream is read back
    exactly; the stream the logger writes under a monotone clock is well
    formed; and the three places where the backend parts from the
    reference (an event exactly at the query time, two events in the same
    millisecond, a match older than the last 1000 events). *)

From Stdlib Require Import Sorting.Sorted.
From S2P Require Import Prelude Effects BalanceLog.

(** ** Events and the stream *)

(** An [OutputLogEvent]: both fields are optional in the SDK's type. *)
Record LogEvent := mkLogEvent {
  timestamp : option Z;
  message : option string
}.

(** [event.timestamp || 0] *)
Definition ts0 (e : LogEvent) : Z := default 0%Z (timestamp e).

(** [event.message || ''] *)
Definition msg0 (e : LogEvent) : string := default "" (message e).

(** The log stream of [logGroupName]/[logStreamName]. *)
Record CloudWatchStorage := mkCloudWatch { events : list LogEvent }.

(** [append(content)] (lines 92-104): one [PutLogEvents] with
    [timestamp: Date.now()]. *)
Definition cw_append (now : Z) (content : string) (st : CloudWatchStorage) : CloudWatchStorage :=
  mkCloudWatch (events st ++ [mkLogEvent (Some now) (Some content)]).

(** ** The service *)

(** The last [n] elements of a list. *)
Definition lastn {A} (n : nat) (l : list A) : list A := skipn (length l - n) l.

(** [GetLogEvents({endTime, limit})]: the events with a timestamp before
    [endTime], the latest [limit] of them, oldest first. *)
Definition getLogEvents (endTime : Z) (limit : nat) (st : CloudWatchStorage) : list LogEvent :=
  lastn limit (List.filter (fun e => Z.ltb (ts0 e) endTime) (events st)).

(** ** The query *)

(** [Array.prototype.sort] with the comparator
    [(a, b) => (b.timestamp || 0) - (a.timestamp || 0)]: a stable sort,
    newest first.  Insertion keeps events of equal timestamps in their
    original order, which is what stability requires. *)
Fixpoint insert_desc (x : LogEvent) (l : list LogEvent) : list LogEvent :=
  match l with
  | [] => [x]
  | y :: ys => if Z.ltb (ts0 y) (ts0 x) then x :: y :: ys else y :: insert_desc x ys
  end.

Definition sort_desc (l : list LogEvent) : list LogEvent :=
  fold_left (fun acc x => insert_desc x acc) l [].

(** The [filter] of lines 116-120. *)
Definition matches (prefix : string) (t : Z) (e : LogEvent) : bool :=
  includes (msg0 e) prefix && Z.leb (ts0 e) t.

(** [matchingLogs[0].message || null] *)
Definition first_message (l : list LogEvent) : option string :=
  match l with
  | [] => None
  | e :: _ => match message e with
              | Some m => if String.eqb m "" then None else Some m
              | None => None
              end
  end.

(** [getLastLogByPrefix(prefix, timestamp)] (lines 106-124), with the
    query time [t] in milliseconds. *)
Definition cw_getLastLogByPrefix (prefix : string) (t : Z) (st : CloudWatchStorage) : option string :=
  let response := getLogEvents t 1000 st in
  first_message (sort_desc (List.filter (matches prefix t) response)).

(** ** The reference *)

(** The last event of the stream that matches and is strictly before the
    query time: what the local backend's [filter(...).pop()] returns on
    the corresponding lines, with the service's exclusive [endTime]. *)
Definition last_log_before (prefix : string) (t : Z) (st : CloudWatchStorage) : option string :=
  first_message (rev (List.filter (fun e => matches prefix t e && Z.ltb (ts0 e) t) (events st))).

(** The same, with the local backend's inclusive bound. *)
Definition last_log_not_after (prefix : string) (t : Z) (st : CloudWatchStorage) : option string :=
  first_message (rev (List.filter (matches prefix t) (events st))).

(** [getLastBalance(timestamp)] (lines 171-174) over this backend. *)
Definition cw_getLastBalance (t : Z) (st : CloudWatchStorage) : option (option Q * option Q) :=
  match cw_getLastLogByPrefix TOTAL_BALANCE_PREFIX t st with
  | Some logMessage => if String.eqb logMessage "" then None else extractBalanceFromLog logMessage
  | None => None
  end.

(** ** Well-formed streams *)

(** An event the logger writes: stamped, with a message that ends with a
    newline (every [logEntry] does; such a message is not empty). *)
Definition event_wf (e : LogEvent) : bool :=
  match timestamp e, message e with
  | Some _, Some m => ends_with_newline m
  | _, _ => false
  end.

(** Timestamps in put order are non-decreasing. *)
Definition stream_wf (st : CloudWatchStorage) : Prop :=
  Forall (fun e => event_wf e = true) (events st) /\ Sorted Z.le (map ts0 (events st)).

(** The streams the logger writes from an empty one, reading a clock
    that never goes back: [clock] is the time of the last put. *)
Inductive cw_reachable : Z -> CloudWatchStorage -> Prop :=
| cw_new t : cw_reachable t (mkCloudWatch [])
| cw_balances clock now st ts a b prefix sA sB :
    cw_reachable clock st -> (clock <= now)%Z ->
    cw_reachable now (cw_append now (logBalances_entry ts a b prefix sA sB) st)
| cw_price clock now st ts price sA sB :
    cw_reachable clock st -> (clock <= now)%Z ->
    cw_reachable now (cw_append now (logCurrentPrice_entry ts price sA sB) st)
| cw_action clock now st ts action :
    cw_reachable clock st -> (clock <= now)%Z ->
    cw_reachable now (cw_append now (logAction_entry ts action) st).

(** ** Concrete streams *)

Definition amount_10 : JsNum := JsFinite false [1%nat] 2.
Definition amount_12_5 : JsNum := JsFinite false [1; 2; 5]%nat 2.
Definition amount_1 : JsNum := JsFinite false [1%nat] 1.

(** A total-balance entry as [logBalances] writes it. *)
Definition balance_entry (a b : JsNum) : string :=
  logBalances_entry "2024-01-01T12:00:00.000Z" a b TOTAL_BALANCE_PREFIX "SOL" "USDC".

(** Two balances logged in the same millisecond, 10 then 12.5. *)
Definition same_ms : CloudWatchStorage :=
  cw_append 5 (balance_entry amount_12_5 amount_1)
    (cw_append 5 (balance_entry amount_10 amount_1) (mkCloudWatch [])).

(** A balance at time 3, then a newer one at time 7. *)
Definition increasing : CloudWatchStorage :=
  cw_append 7 (balance_entry amount_12_5 amount_1)
    (cw_append 3 (balance_entry amount_10 amount_1) (mkCloudWatch [])).

(** A balance at time 1 followed by 1000 action entries at time 2. *)
Definition old_match : CloudWatchStorage :=
  Nat.iter 1000 (cw_append 2 (logAction_entry "2024-01-01T12:00:00.001Z" "tick"))
    (cw_append 1 (balance_entry amount_10 amount_1) (mkCloudWatch [])).

(** ** Lemmas on the sort *)

Lemma insert_desc_in x l y : In y (insert_desc x l) <-> y = x \/ In y l.
Proof.
  induction l as [|z l IH]; cbn [insert_desc]; [simpl; intuition congruence|].
  destruct (Z.ltb _ _); simpl; [intuition congruence|]. rewrite IH. intuition congruence.
Qed.

Lemma fold_insert_in l acc y :
  In y (fold_left (fun acc x => insert_desc x acc) l acc) <-> In y l \/ In y acc.
Proof.
  revert acc. induction l as [|x l IH]; intros acc; simpl; [tauto|].
  rewrite IH, insert_desc_in. intuition congruence.
Qed.

Lemma sort_desc_in l y : In y (sort_desc l) <-> In y l.
Proof. unfold sort_desc. rewrite fold_insert_in. simpl. tauto. Qed.

Lemma sort_desc_snoc l x : sort_desc (l ++ [x]) = insert_desc x (sort_desc l).
Proof. unfold sort_desc. now rewrite fold_left_app. Qed.

(** An event newer than all the others goes first. *)
Lemma insert_desc_newest x l :
  Forall (fun y => ts0 y < ts0 x)%Z l -> insert_desc x l = x :: l.
Proof.
  intros Hl. destruct l as [|y l]; [reflexivity|]. inversion Hl as [|? ? Hy _]; subst.
  cbn [insert_desc]. now rewrite (proj2 (Z.ltb_lt _ _) Hy).
Qed.

(** On strictly increasing timestamps the sort reverses the list. *)
Lemma fold_insert_increasing l acc :
  StronglySorted (fun a b => ts0 a < ts0 b)%Z l ->
  (forall y z, In y acc -> In z l -> ts0 y < ts0 z)%Z ->
  fold_left (fun acc x => insert_desc x acc) l acc = rev l ++ acc.
Proof.
  revert acc. induction l as [|x l IH]; intros acc Hs Hacc; [reflexivity|].
  inversion Hs as [|? ? Hs' Hx]; subst. simpl.
  rewrite insert_desc_newest by (apply List.Forall_forall; intros y Hy; apply Hacc; [exact Hy | now left]).
  rewrite IH; [rewrite <- app_assoc; reflexivity | exact Hs' |].
  intros y z [<-|Hy] Hz; [exact (proj1 (List.Forall_forall _ _) Hx z Hz)|]. apply Hacc; [exact Hy | now right].
Qed.

Lemma sort_desc_increasing l :
  StronglySorted (fun a b => ts0 a < ts0 b)%Z l -> sort_desc l = rev l.
Proof.
  intros Hs. unfold sort_desc. rewrite (fold_insert_increasing l [] Hs); [apply app_nil_r|].
  intros y z [].
Qed.

(** ** Lemmas on lists *)

Lemma filter_filter_andb {A} (f g : A -> bool) l :
  List.filter f (List.filter g l) = List.filter (fun x => f x && g x) l.
Proof.
  induction l as [|x l IH]; [reflexivity|]. simpl.
  destruct (g x); simpl; destruct (f x); simpl; rewrite ?IH; reflexivity.
Qed.

Lemma StronglySorted_filter {A} (R : A -> A -> Prop) f l :
  StronglySorted R l -> StronglySorted R (List.filter f l).
Proof.
  induction 1 as [|x l Hs IH Hx]; [constructor|]. simpl. destruct (f x); [|exact IH].
  constructor; [exact IH|]. apply List.Forall_forall. intros y Hy.
  apply filter_In in Hy as [Hy _]. exact (proj1 (List.Forall_forall _ _) Hx y Hy).
Qed.

Lemma StronglySorted_snoc {A} (R : A -> A -> Prop) l x :
  StronglySorted R l -> Forall (fun y => R y x) l -> StronglySorted R (l ++ [x]).
Proof.
  induction 1 as [|y l Hs IH Hy]; intros Hx; simpl; [repeat constructor|].
  inversion Hx as [|? ? Hyx Hx']; subst.
  constructor; [exact (IH Hx')|]. apply List.Forall_app. split; [exact Hy|]. repeat constructor. exact Hyx.
Qed.

Lemma lastn_all {A} n (l : list A) : (length l <= n)%nat -> lastn n l = l.
Proof. intros Hn. unfold lastn. now replace (length l - n)%nat with 0%nat by lia. Qed.

Lemma lastn_snoc {A} n (l : list A) x : (1 <= n)%nat -> exists k, lastn n (l ++ [x]) = skipn k l ++ [x].
Proof.
  intros Hn. exists (length l + 1 - n)%nat. unfold lastn.
  rewrite length_app, skipn_app. simpl.
  now replace (length l + 1 - n - length l)%nat with 0%nat by lia.
Qed.

Lemma in_skipn {A} k (l : list A) y : In y (skipn k l) -> In y l.
Proof. intros Hy. rewrite <- (firstn_skipn k l). apply in_or_app. now right. Qed.

Lemma in_query_window prefix x st t :
  In x (List.filter (matches prefix t) (getLogEvents t 1000 st)) -> In x (events st).
Proof.
  intros Hx. apply filter_In in Hx as [Hx _]. apply in_skipn in Hx.
  apply filter_In in Hx as [Hx _]. exact Hx.
Qed.

(** Every entry of the logger ends with a newline. *)
Lemma balances_entry_newline ts a b prefix sA sB :
  ends_with_newline (logBalances_entry ts a b prefix sA sB) = true.
Proof. apply ends_with_newline_snoc. Qed.

Lemma price_entry_newline ts price sA sB :
  ends_with_newline (logCurrentPrice_entry ts price sA sB) = true.
Proof. unfold logCurrentPrice_entry. repeat apply ends_with_newline_app. reflexivity. Qed.

Lemma action_entry_newline ts action : ends_with_newline (logAction_entry ts action) = true.
Proof. unfold logAction_entry. repeat apply ends_with_newline_app. reflexivity. Qed.

(** One put at a time not before the last keeps the stream well formed. *)
Lemma cw_append_wf clock now content st :
  stream_wf st -> Forall (fun e => ts0 e <= clock)%Z (events st) -> (clock <= now)%Z ->
  ends_with_newline content = true ->
  stream_wf (cw_append now content st) /\
  Forall (fun e => ts0 e <= now)%Z (events (cw_append now content st)).
Proof.
  intros [Hwf Hs] Hc Hnow Hm. unfold stream_wf, cw_append. cbn [events].
  assert (Hle : Forall (fun e => ts0 e <= now)%Z (events st)).
  { eapply List.Forall_impl; [|exact Hc]. intros e He. cbv beta in *. lia. }
  split; [split|].
  - apply List.Forall_app. split; [exact Hwf|]. repeat constructor. exact Hm.
  - rewrite map_app. apply StronglySorted_Sorted, StronglySorted_snoc.
    + apply Sorted_StronglySorted; [intros x y z; lia | exact Hs].
    + apply List.Forall_map. exact Hle.
  - apply List.Forall_app. split; [exact Hle|]. repeat constructor. cbn. lia.
Qed.

(** A put after every event of the stream is what a later query finds. *)
Lemma cw_append_read prefix t now content st :
  Forall (fun e => ts0 e < now)%Z (events st) -> (now < t)%Z ->
  includes content prefix = true -> content <> "" ->
  cw_getLastLogByPrefix prefix t (cw_append now content st) = Some content.
Proof.
  intros Hold Ht Hinc Hne. unfold cw_getLastLogByPrefix, getLogEvents, cw_append. cbn [events].
  set (x := mkLogEvent (Some now) (Some content)).
  rewrite List.filter_app. cbn [List.filter]. replace (Z.ltb (ts0 x) t) with true
    by (symmetry; apply Z.ltb_lt; exact Ht).
  destruct (lastn_snoc 1000 (List.filter (fun e => Z.ltb (ts0 e) t) (events st)) x)
    as [k ->]; [lia|].
  rewrite List.filter_app. cbn [List.filter].
  replace (matches prefix t x) with true
    by (unfold matches; cbn; rewrite Hinc; symmetry; apply Z.leb_le; lia).
  rewrite sort_desc_snoc, insert_desc_newest.
  - cbn. destruct (String.eqb_spec content ""); [contradiction | reflexivity].
  - apply List.Forall_forall. intros y Hy. apply sort_desc_in, filter_In in Hy as [Hy _].
    apply in_skipn, filter_In in Hy as [Hy _]. exact (proj1 (List.Forall_forall _ _) Hold y Hy).
Qed.

(** ** Properties *)

(** C25. Equivalence with the reference: on a stream whose timestamps
    strictly increase, and with at most 1000 events before the query time
    (the service's page), the sort-based query returns the same message as
    the reference "last matching event before the query time", the
    filter-then-pop of the local backend. *)
Theorem cw_getLastLogByPrefix_equiv prefix t st :
  StronglySorted (fun a b => ts0 a < ts0 b)%Z (events st) ->
  (length (List.filter (fun e => Z.ltb (ts0 e) t) (events st)) <= 1000)%nat ->
  cw_getLastLogByPrefix prefix t st = last_log_before prefix t st.
Proof.
  intros Hs Hn. unfold cw_getLastLogByPrefix, last_log_before, getLogEvents.
  rewrite lastn_all by exact Hn. rewrite filter_filter_andb.
  now rewrite sort_desc_increasing by now apply StronglySorted_filter.
Qed.

(** C26. Round trip: a message put after every event of the stream, that
    includes the prefix, is what a later query returns, whatever the
    stream's length. *)
Theorem cw_append_roundtrip prefix t now content st :
  Forall (fun e => ts0 e < now)%Z (events st) -> (now < t)%Z ->
  includes content prefix = true -> content <> "" ->
  cw_getLastLogByPrefix prefix t (cw_append now content st) = Some content.
Proof. exact (cw_append_read prefix t now content st). Qed.

(** C27. Well-formedness of the stream: every stream the logger writes
    under a clock that never goes back has only stamped events whose
    messages end with a newline, in non-decreasing timestamp order, none
    later than the clock. *)
Theorem cw_reachable_wf clock st :
  cw_reachable clock st -> stream_wf st /\ Forall (fun e => ts0 e <= clock)%Z (events st).
Proof.
  induction 1 as [t|clock now st ts a b prefix sA sB _ [Hwf Hc] Hnow
                 |clock now st ts price sA sB _ [Hwf Hc] Hnow|clock now st ts action _ [Hwf Hc] Hnow].
  - split; [split; constructor | constructor].
  - exact (cw_append_wf clock now _ st Hwf Hc Hnow (balances_entry_newline _ _ _ _ _ _)).
  - exact (cw_append_wf clock now _ st Hwf Hc Hnow (price_entry_newline _ _ _ _)).
  - exact (cw_append_wf clock now _ st Hwf Hc Hnow (action_entry_newline _ _)).
Qed.

(** Where the backend parts from the reference, on streams the logger
    writes: of two balances logged in the same millisecond, the stable
    newest-first sort returns the earlier one (10, not 12.5); a balance
    logged exactly at the query time is not seen (the service's [endTime]
    is exclusive, while the local backend's [<=] includes it); and a
    balance older than the last 1000 events is lost, so [getLastBalance]
    returns [null] although a balance was logged. *)
Theorem cw_query_divergences :
  cw_getLastBalance 9 same_ms = Some (Some (js_value amount_10), Some (js_value amount_1)) /\
  last_log_not_after TOTAL_BALANCE_PREFIX 9 same_ms = Some (balance_entry amount_12_5 amount_1) /\
  cw_getLastBalance 5 (cw_append 5 (balance_entry amount_10 amount_1) (mkCloudWatch [])) = None /\
  last_log_not_after TOTAL_BALANCE_PREFIX 5
    (cw_append 5 (balance_entry amount_10 amount_1) (mkCloudWatch [])) =
    Some (balance_entry amount_10 amount_1) /\
  cw_getLastBalance 9 old_match = None /\
  last_log_not_after TOTAL_BALANCE_PREFIX 9 old_match = Some (balance_entry amount_10 amount_1).
Proof. vm_compute. repeat split. Qed.

(** ** Witnesses *)

Lemma cw_getLastLogByPrefix_equiv_witness :
  StronglySorted (fun a b => ts0 a < ts0 b)%Z (events increasing) /\
  (length (List.filter (fun e => Z.ltb (ts0 e) 9) (events increasing)) <= 1000)%nat /\
  cw_getLastLogByPrefix TOTAL_BALANCE_PREFIX 9 increasing =
    last_log_before TOTAL_BALANCE_PREFIX 9 increasing.
Proof.
  assert (Hs : StronglySorted (fun a b => ts0 a < ts0 b)%Z (events increasing)).
  { repeat constructor; cbn; lia. }
  assert (Hn : (length (List.filter (fun e => Z.ltb (ts0 e) 9) (events increasing)) <= 1000)%nat).
  { apply Nat.leb_le. vm_compute. reflexivity. }
  split; [exact Hs|]. split; [exact Hn|].
  exact (cw_getLastLogByPrefix_equiv TOTAL_BALANCE_PREFIX 9 increasing Hs Hn).
Defined.

Lemma cw_append_roundtrip_witness :
  Forall (fun e => ts0 e < 7)%Z (events (cw_append 3 (balance_entry amount_10 amount_1) (mkCloudWatch []))) /\
  (7 < 9)%Z /\ includes (balance_entry amount_12_5 amount_1) TOTAL_BALANCE_PREFIX = true /\
  balance_entry amount_12_5 amount_1 <> "" /\
  cw_getLastLogByPrefix TOTAL_BALANCE_PREFIX 9 increasing = Some (balance_entry amount_12_5 amount_1).
Proof.
  assert (H1 : Forall (fun e => ts0 e < 7)%Z
                 (events (cw_append 3 (balance_entry amount_10 amount_1) (mkCloudWatch [])))).
  { repeat constructor; cbn; lia. }
  assert (H2 : (7 < 9)%Z) by lia.
  assert (H3 : includes (balance_entry amount_12_5 amount_1) TOTAL_BALANCE_PREFIX = true).
  { vm_compute. reflexivity. }
  assert (H4 : balance_entry amount_12_5 amount_1 <> "") by (vm_compute; discriminate).
  split; [exact H1|]. split; [exact H2|]. split; [exact H3|]. split; [exact H4|].
  exact (cw_append_roundtrip TOTAL_BALANCE_PREFIX 9 7 _ _ H1 H2 H3 H4).
Defined.

Lemma cw_reachable_wf_witness :
  cw_reachable 5 same_ms /\
  stream_wf same_ms /\ Forall (fun e => ts0 e <= 5)%Z (events same_ms).
Proof.
  assert (Hr : cw_reachable 5 same_ms).
  { unfold same_ms, balance_entry. apply (cw_balances 5 5); [|lia].
    apply (cw_balances 5 5); [apply cw_new | lia]. }
  split; [exact Hr|]. exact (cw_reachable_wf 5 same_ms Hr).
Defined.
