(* ===== verification/Storage.v ===== *)
(** * The storage interface and the balance logger over it

    [BalanceLogger] (logger.ts 127-175) writes and reads through the
    interface [StorageBackend] (lines 11-14), implemented by
    [LocalFileStorage] (lines 16-48, file [BalanceLog]) and
    [CloudWatchStorage] (lines 50-125, file [CloudWatch]); its constructor
    picks one from [USE_CLOUD_WATCH_STORAGE].  Here the interface is the
    class [StorageBackend] (its two methods) with the class
    [StorageBackend_ok] of the laws the logger relies on, the contract of
    the spec's "append-only sink ... queryable by latest-before-timestamp";
    both backends, and the run-time choice between them, are instances of
    both classes (the CloudWatch instance for a stream that exists; the
    runs in which it does not yet, or the log group is missing, are those
    of [LogRuntime]).  The logger's methods are written once, over any
    instance, and the balance round trip is proved against the laws only.
    The [Date] functions the code calls are the class [DateLib].

    The constructors are modelled with the console lines and alerts they
    produce: [new CloudWatchStorage()] starts [createLogStreamIfNeeded()]
    without awaiting it and attaches a [.catch] that alerts; since that
    method catches every error itself, the alert is never sent. *)

From S2P Require Import Prelude Monad Effects PoolMetadata BalanceLog CloudWatch.

Local Open Scope string_scope.

(** ** The [Date] library *)

(** [new Date(ms).toISOString()], and [new Date(s).getTime()] ([None]
    for an Invalid Date, whose time is [NaN]). *)
Class DateLib := {
  toISOString : Z -> string;
  getTime : string -> option Z
}.

(** ** The interface *)

(** [interface StorageBackend]: [append(content)], which a backend may
    stamp with the time [Date.now()] of the call (the first argument), and
    [getLastLogByPrefix(prefix, timestamp)] with the query time in ms. *)
Class StorageBackend (S : Type) := {
  storage_append : Z -> string -> S -> S;
  storage_getLastLogByPrefix : string -> Z -> S -> option string
}.

Section Contract.
Context `{DateLib}.

(** [new Date(s) <= timestamp]: false for an Invalid Date. *)
Definition date_not_after (t : Z) (s : string) : bool :=
  match getTime s with Some d => Z.leb d t | None => false end.

(** A line whose bracketed timestamp is non-empty and not after [t]. *)
Definition stamped_not_after (t : Z) (line : string) : bool :=
  match bracket_ts line with
  | Some s => negb (String.eqb s "") && date_not_after t s
  | None => false
  end.

(** The laws of a backend, for an invariant [storage_inv clock st] of the
    states written by appends made up to the time [clock]: appends at a
    time not before [clock] keep it, and a line appended with its newline
    after every earlier append is what a later query for a prefix it
    includes returns, with or without the newline, provided its own
    timestamp is not after the query time. *)
Class StorageBackend_ok (S : Type) `{StorageBackend S} := {
  storage_inv : Z -> S -> Prop;
  storage_inv_append : forall clock now content st,
    storage_inv clock st -> (clock <= now)%Z -> ends_with_newline content = true ->
    storage_inv now (storage_append now content st);
  storage_read_appended : forall clock now t prefix line st,
    storage_inv clock st -> (clock < now)%Z -> (now < t)%Z ->
    no_sep newline line = true -> includes line prefix = true ->
    stamped_not_after t line = true ->
    storage_getLastLogByPrefix prefix t (storage_append now (line ++ String newline EmptyString) st)
      = Some line \/
    storage_getLastLogByPrefix prefix t (storage_append now (line ++ String newline EmptyString) st)
      = Some (line ++ String newline EmptyString)
}.
End Contract.

(** ** The backends *)

(** [LocalFileStorage]: [fs.appendFileSync] ignores the time; the query
    compares [new Date(logTimestamp)] with the query time. *)
#[export] Instance local_storage `{DateLib} : StorageBackend LocalFileStorage := {
  storage_append _ content st := append content st;
  storage_getLastLogByPrefix prefix t st := getLastLogByPrefix (date_not_after t) prefix st
}.

(** [CloudWatchStorage]: [PutLogEvents] stamped with [Date.now()], on a
    log stream that exists.  This instance is the success path only: an
    append to a stream not yet created, or in a missing log group, is
    rejected by the service, and those runs, with the creation and the
    appends as promises nobody awaits, are modelled in [LogRuntime]. *)
#[export] Instance cloudwatch_storage : StorageBackend CloudWatchStorage := {
  storage_append := cw_append;
  storage_getLastLogByPrefix := cw_getLastLogByPrefix
}.

(** [this.storage]: the backend the constructor chose. *)
Inductive Backend :=
| LocalBackend (st : LocalFileStorage)
| CloudWatchBackend (st : CloudWatchStorage).

(** A call on [this.storage] dispatches to the chosen backend. *)
#[export] Instance backend_storage `{DateLib} : StorageBackend Backend := {
  storage_append now content b :=
    match b with
    | LocalBackend st => LocalBackend (storage_append now content st)
    | CloudWatchBackend st => CloudWatchBackend (storage_append now content st)
    end;
  storage_getLastLogByPrefix prefix t b :=
    match b with
    | LocalBackend st => storage_getLastLogByPrefix prefix t st
    | CloudWatchBackend st => storage_getLastLogByPrefix prefix t st
    end
}.

(** ** The constructors *)

(** The variables the logger reads from [process.env]. *)
Record LoggerEnv := mkLoggerEnv {
  USE_CLOUD_WATCH_STORAGE : option string;
  AWS_REGION : option string;
  LOG_GROUP_NAME : option string;
  BALANCE_LOG_STREAM_NAME : option string
}.

Inductive ConsoleLine :=
| ConsoleLog (s : string)
| ConsoleWarn (s : string)
| ConsoleError (s : string).

(** What [this.client.send(new CreateLogStreamCommand(...))] does: it
    resolves, or rejects with an SDK error of the given [name]. *)
Inductive SendResult :=
| SendOk
| SendRejected (name message : string).

(** A template literal's rendering of [this.logStreamName]. *)
Definition js_string (o : option string) : string := default "undefined" o.

(** [createLogStreamIfNeeded()] (lines 74-90): the outcome of the promise
    it returns and what it writes to the console. *)
Definition createLogStreamIfNeeded (logStreamName : option string) (answer : SendResult)
    : res unit * list ConsoleLine :=
  match answer with
  | SendOk => (Ok tt, [ConsoleLog ("Created CloudWatch log stream: " ++ js_string logStreamName)])
  | SendRejected name _ =>
      if String.eqb name "ResourceAlreadyExistsException"
      then (Ok tt, [ConsoleLog ("Using existing CloudWatch log stream: " ++ js_string logStreamName)])
      else (Ok tt, [ConsoleError "Error creating CloudWatch log stream:"])
  end.

(** [`${e}`] for an error. *)
Definition error_string (e : exn) : string :=
  match e with JsError m => "Error: " ++ m | JsUndefined => "undefined" end.

(** What a constructor leaves behind: the console lines written while it
    runs, those written later by the promise it did not await, and the
    alerts that promise's handler sends. *)
Record Setup := mkSetup {
  sync_console : list ConsoleLine;
  async_console : list ConsoleLine;
  setup_alerts : list (AlertType * string)
}.

(** [new CloudWatchStorage()] (lines 55-72). *)
Definition new_CloudWatchStorage (e : LoggerEnv) (answer : SendResult) : Setup :=
  let warn :=
    if truthy (AWS_REGION e) && truthy (LOG_GROUP_NAME e) && truthy (BALANCE_LOG_STREAM_NAME e)
    then []
    else [ConsoleWarn "AWS_REGION, LOG_GROUP_NAME, or BALANCE_LOG_STREAM_NAME env variables are not set for CloudWatch logging"] in
  let (r, out) := createLogStreamIfNeeded (BALANCE_LOG_STREAM_NAME e) answer in
  match r with
  | Ok _ => mkSetup warn out []
  | Throw err =>
      mkSetup warn (out ++ [ConsoleError "Failed to create CloudWatch log stream:"])
        [(ERROR, "Failed to set up CloudWatch logging: " ++ error_string err)]
  end.

Record BalanceLogger := mkBalanceLogger { storage : Backend }.

(** [new BalanceLogger()] (lines 131-135), given the log file as it is on
    disk and the log stream as it is at the service: neither constructor
    clears them.  The constructor does not wait for [CreateLogStream], so
    the backend it returns is the same whatever the service answers;
    [answer] only decides the console lines and alerts of the set-up, and
    whether the stream exists when the first append settles is the
    subject of [LogRuntime]. *)
Definition new_BalanceLogger (e : LoggerEnv) (file : LocalFileStorage) (stream : CloudWatchStorage)
    (answer : SendResult) : BalanceLogger * Setup :=
  let useCloudWatch :=
    match USE_CLOUD_WATCH_STORAGE e with Some v => String.eqb v "true" | None => false end in
  if useCloudWatch then
    let su := new_CloudWatchStorage e answer in
    (mkBalanceLogger (CloudWatchBackend stream),
     mkSetup (sync_console su ++ [ConsoleLog "Initialized BalanceLogger with CloudWatch storage backend"])
       (async_console su) (setup_alerts su))
  else
    (mkBalanceLogger (LocalBackend file),
     mkSetup [ConsoleLog "Initialized BalanceLogger with LocalFile storage backend"] [] []).

(** ** The logger's methods over any backend *)

Section Logger.
Context `{DateLib} {S : Type} `{StorageBackend S}.

(** [logBalances] (lines 137-148): the entry stamped [toISOString] at
    [tsnow], appended at the time [now] of the backend's call. *)
Definition bl_logBalances (tsnow now : Z) (a b : JsNum) (prefix sA sB : string) (st : S) : S :=
  storage_append now (logBalances_entry (toISOString tsnow) a b prefix sA sB) st.

(** [logCurrentPrice] (lines 150-154). *)
Definition bl_logCurrentPrice (tsnow now : Z) (price : JsNum) (sA sB : string) (st : S) : S :=
  storage_append now (logCurrentPrice_entry (toISOString tsnow) price sA sB) st.

(** [logAction] (lines 156-161). *)
Definition bl_logAction (tsnow now : Z) (action : string) (st : S) : S :=
  storage_append now (logAction_entry (toISOString tsnow) action) st.

(** [getLastBalance(timestamp)] (lines 171-174). *)
Definition bl_getLastBalance (t : Z) (st : S) : option (option Q * option Q) :=
  match storage_getLastLogByPrefix TOTAL_BALANCE_PREFIX t st with
  | Some logMessage => if String.eqb logMessage "" then None else extractBalanceFromLog logMessage
  | None => None
  end.

(** The states the logger's methods reach from [st0], written at [clock0],
    under a clock that never goes back. *)
Inductive bl_reachable (clock0 : Z) (st0 : S) : Z -> S -> Prop :=
| bl_start : bl_reachable clock0 st0 clock0 st0
| bl_balances clock now st tsnow a b prefix sA sB :
    bl_reachable clock0 st0 clock st -> (clock <= now)%Z ->
    bl_reachable clock0 st0 now (bl_logBalances tsnow now a b prefix sA sB st)
| bl_price clock now st tsnow price sA sB :
    bl_reachable clock0 st0 clock st -> (clock <= now)%Z ->
    bl_reachable clock0 st0 now (bl_logCurrentPrice tsnow now price sA sB st)
| bl_action clock now st tsnow action :
    bl_reachable clock0 st0 clock st -> (clock <= now)%Z ->
    bl_reachable clock0 st0 now (bl_logAction tsnow now action st).
End Logger.

(** ** Lemmas on strings *)

Lemma prefix_app_l n a b : String.prefix n a = true -> String.prefix n (a ++ b) = true.
Proof.
  revert a. induction n as [|c n IH]; intros [|x a] H; [now destruct b | reflexivity | discriminate |].
  change (String.prefix (String c n) (String x (a ++ b)) = true).
  cbn [String.prefix] in *. destruct (ascii_dec c x); [exact (IH a H) | discriminate].
Qed.

Lemma includes_app_l a b n : includes a n = true -> includes (a ++ b) n = true.
Proof.
  induction a as [|c a IH]; intros H.
  - destruct n; [destruct b; reflexivity | discriminate].
  - rewrite includes_unfold in H. apply orb_true_iff in H as [H|H].
    + rewrite includes_unfold. now rewrite (prefix_app_l _ (String c a) b H).
    + change (String c a ++ b) with (String c (a ++ b)). rewrite includes_unfold.
      now rewrite (IH H), orb_true_r.
Qed.

Lemma snoc_newline_nonempty (line : string) : line ++ String newline EmptyString <> "".
Proof. destruct line; discriminate. Qed.

(** ** The backends satisfy the contract *)

Section Laws.
Context `{DateLib}.

(** The local file: the appended line is the last one the two filters keep. *)
Lemma local_read_appended t prefix line st :
  log_wf st = true -> no_sep newline line = true -> includes line prefix = true ->
  stamped_not_after t line = true ->
  getLastLogByPrefix (date_not_after t) prefix (append (line ++ String newline EmptyString) st)
    = Some line.
Proof.
  intros Hwf Hl Hi Hs.
  destruct (lines_after_append st line Hwf Hl) as [L [content [Hf Hsp]]].
  unfold getLastLogByPrefix. rewrite Hf. cbv zeta. rewrite Hsp.
  rewrite last_filter_lines by (assumption || reflexivity).
  destruct line; [simpl in Hs; discriminate | reflexivity].
Qed.

#[export, refine] Instance local_storage_ok : StorageBackend_ok LocalFileStorage := {
  storage_inv _ st := log_wf st = true
}.
Proof.
  - intros clock now content st _ _ Hc. exact (append_wf content st Hc).
  - intros clock now t prefix line st Hwf _ _ Hl Hi Hs. left.
    exact (local_read_appended t prefix line st Hwf Hl Hi Hs).
Defined.

#[export, refine] Instance cloudwatch_storage_ok : StorageBackend_ok CloudWatchStorage := {
  storage_inv clock st := stream_wf st /\ Forall (fun e => ts0 e <= clock)%Z (events st)
}.
Proof.
  - intros clock now content st [Hwf Hc] Hn Hm. exact (cw_append_wf clock now content st Hwf Hc Hn Hm).
  - intros clock now t prefix line st [_ Hc] Hlt Ht _ Hi _. right.
    apply cw_append_read; [| exact Ht | apply includes_app_l, Hi | apply snoc_newline_nonempty].
    eapply List.Forall_impl; [|exact Hc]. intros e He. cbv beta in *. lia.
Defined.

#[export, refine] Instance backend_storage_ok : StorageBackend_ok Backend := {
  storage_inv clock b :=
    match b with
    | LocalBackend st => storage_inv clock st
    | CloudWatchBackend st => storage_inv clock st
    end
}.
Proof.
  - intros clock now content [st|st] Hinv Hn Hm; cbn;
      exact (storage_inv_append clock now content st Hinv Hn Hm).
  - intros clock now t prefix line [st|st] Hinv Hc Ht Hl Hi Hs; cbn;
      exact (storage_read_appended clock now t prefix line st Hinv Hc Ht Hl Hi Hs).
Defined.
End Laws.

(** ** The logger against the contract *)

Section Client.
Context `{DateLib} {S : Type} `{StorageBackend_ok S}.

(** Every history of the logger keeps the backend's invariant. *)
Lemma bl_reachable_inv clock0 st0 clock st :
  storage_inv clock0 st0 -> bl_reachable clock0 st0 clock st -> storage_inv clock st.
Proof.
  intros Hinit Hr. induction Hr as [|clock now st tsnow a b prefix sA sB _ IH Hn
                                 |clock now st tsnow price sA sB _ IH Hn|clock now st tsnow action _ IH Hn].
  - exact Hinit.
  - exact (storage_inv_append clock now _ st IH Hn (balances_entry_newline _ _ _ _ _ _)).
  - exact (storage_inv_append clock now _ st IH Hn (price_entry_newline _ _ _ _)).
  - exact (storage_inv_append clock now _ st IH Hn (action_entry_newline _ _)).
Qed.

(** A total-balance record appended after every earlier entry is what
    [getLastBalance] reads, by the contract alone. *)
Lemma bl_read_logBalances clock tsnow now t st a b sA sB :
  storage_inv clock st -> (clock < now)%Z -> (now < t)%Z ->
  timestamp_ok (toISOString tsnow) = true -> date_not_after t (toISOString tsnow) = true ->
  word_symbol sA = true -> word_symbol sB = true -> loggable a = true -> loggable b = true ->
  bl_getLastBalance t (bl_logBalances tsnow now a b TOTAL_BALANCE_PREFIX sA sB st) =
    Some (Some (js_value a), Some (js_value b)).
Proof.
  intros Hinv Hc Ht Hts Hd HA HB Ha Hb. unfold bl_getLastBalance, bl_logBalances, logBalances_entry.
  destruct (line_kept (date_not_after t) _ a b sA sB Hts Hd) as [Hi Hk].
  destruct (storage_read_appended clock now t _ _ st Hinv Hc Ht
              (line_no_newline _ a b sA sB Hts HA HB Ha Hb) Hi Hk) as [-> | ->].
  - replace (String.eqb (logBalances_line (toISOString tsnow) a b TOTAL_BALANCE_PREFIX sA sB) "")
      with false by reflexivity.
    exact (extract_line _ a b sA sB Hts HA HB Ha Hb).
  - destruct (String.eqb_spec (logBalances_line (toISOString tsnow) a b TOTAL_BALANCE_PREFIX sA sB
                                 ++ String newline EmptyString) "") as [E|_];
      [exact (False_rect _ (snoc_newline_nonempty _ E))|].
    exact (extract_entry _ a b sA sB Hts HA HB Ha Hb).
Qed.
End Client.

(** ** Properties *)

Section Properties.
Context `{DateLib}.

(** C20. Refinement of the logger's contract: over any backend that
    satisfies the storage laws, after any history of [logBalances],
    [logCurrentPrice] and [logAction] calls under a clock that never goes
    back, a total-balance record appended later than every earlier entry,
    stamped not after the query time, with [\w+] symbols and non-negative
    amounts in plain notation, is read back by [getLastBalance] as exactly
    the two amounts logged. *)
Theorem bl_getLastBalance_roundtrip {S} `{StorageBackend_ok S} clock0 st0 clock st tsnow now t a b sA sB :
  storage_inv clock0 st0 -> bl_reachable clock0 st0 clock st -> (clock < now)%Z -> (now < t)%Z ->
  timestamp_ok (toISOString tsnow) = true -> date_not_after t (toISOString tsnow) = true ->
  word_symbol sA = true -> word_symbol sB = true -> loggable a = true -> loggable b = true ->
  bl_getLastBalance t (bl_logBalances tsnow now a b TOTAL_BALANCE_PREFIX sA sB st) =
    Some (Some (js_value a), Some (js_value b)).
Proof.
  intros Hinit Hr. apply (bl_read_logBalances clock).
  eapply bl_reachable_inv; eassumption.
Qed.

End Properties.

(** C34. The set-up alert of [new CloudWatchStorage()] is dead code:
    [createLogStreamIfNeeded] catches every error of [CreateLogStream]
    (writing it to the console only), so the [.catch] that would send the
    ERROR alert never runs, and building the logger never sends an alert,
    whatever the environment and the service's answer. *)
Theorem new_BalanceLogger_never_alerts e file stream answer :
  setup_alerts (snd (new_BalanceLogger e file stream answer)) = [] /\
  (forall name message, String.eqb name "ResourceAlreadyExistsException" = false ->
     async_console (new_CloudWatchStorage e (SendRejected name message)) =
       [ConsoleError "Error creating CloudWatch log stream:"]).
Proof.
  unfold new_BalanceLogger, new_CloudWatchStorage, createLogStreamIfNeeded. split.
  - destruct (match USE_CLOUD_WATCH_STORAGE e with
              | Some v => String.eqb v "true" | None => false end); [|reflexivity].
    destruct answer as [|name message]; [reflexivity|]. cbn.
    destruct (String.eqb name "ResourceAlreadyExistsException"); reflexivity.
  - intros name message Hn. cbn. now rewrite Hn.
Qed.

(** ** Witnesses *)

(** A [Date] that renders every time as one ISO string and parses it back. *)
#[local] Instance noon_dates : DateLib := {
  toISOString _ := "2024-01-01T12:00:00.000Z";
  getTime s := if String.eqb s "2024-01-01T12:00:00.000Z" then Some 1704110400000%Z else None
}.

Definition amount_SOL : JsNum := JsFinite false [1%nat] 2.
Definition amount_USDC : JsNum := JsFinite false [1; 2; 5]%nat 2.

Lemma bl_getLastBalance_roundtrip_witness :
  bl_getLastBalance 1704110401000
    (bl_logBalances 1704110400000 1704110400000 amount_SOL amount_USDC TOTAL_BALANCE_PREFIX "SOL" "USDC"
       (mkStorage None)) =
    Some (Some (js_value amount_SOL), Some (js_value amount_USDC)).
Proof.
  apply (bl_getLastBalance_roundtrip 0 (mkStorage None) 0 (mkStorage None));
    (reflexivity || apply bl_start || lia).
Defined.

(** The CloudWatch backend chosen, over an empty stream. *)
Definition cloud_env : LoggerEnv := mkLoggerEnv (Some "true") (Some "us-east-1") (Some "rebalancer") (Some "balances").

