(* ===== verification/LogRuntime.v ===== *)
(** * The CloudWatch backend at run time: promises nobody awaits

    [new CloudWatchStorage()] starts [createLogStreamIfNeeded()] and does
    not await it (logger.ts 68-71), and [MeteoraRebalancer] calls
    [logAction], [logCurrentPrice] and [logBalances] without [await]
    (logger.ts 455, 474, 479, 485, 528, 561, 568, 580, 601): each call's
    [PutLogEvents] is a promise that settles later, in whatever order the
    network delivers, and a rejected one is handled by nobody.  Here the
    JavaScript runtime is a [Runtime]: the service's state, the pending
    promises, the console, the alerts sent and the unhandled rejections;
    a step is a new logger call or the settling of any pending promise.
    The service is modelled from the CloudWatch Logs API: [CreateLogStream]
    fails for a missing group or an existing stream, [PutLogEvents] fails
    while the stream does not exist.

    The theorems: once the stream exists no interleaving adds an unhandled
    rejection or an alert; with the log group missing the stream is never
    created, nothing is alerted, and every append that settles is an
    unhandled rejection; and while the stream does not exist yet, the
    order in which a pending creation and a pending append settle decides
    whether the record is stored or rejected.  Runtimes that differ only in the order of
    their pending promises are equivalent ([rt_equiv], an [Equivalence]
    with [rt_log] [Proper] for it) and bisimilar, so the order in which
    promises were started carries no information beyond which settles
    next. *)

From Stdlib Require Import Relations.Relation_Operators.
From S2P Require Import Prelude Monad Effects PoolMetadata BalanceLog CloudWatch Storage.

(** ** The service *)

(** The log group's and the stream's existence, and the stream. *)
Record LogService := mkLogService {
  group_exists : bool;
  stream_exists : bool;
  service_events : CloudWatchStorage
}.

(** [CreateLogStream]. *)
Definition service_create (s : LogService) : SendResult * LogService :=
  if negb (group_exists s)
  then (SendRejected "ResourceNotFoundException" "The specified log group does not exist.", s)
  else if stream_exists s
  then (SendRejected "ResourceAlreadyExistsException" "The specified log stream already exists", s)
  else (SendOk, mkLogService true true (service_events s)).

(** [PutLogEvents] stamped [now]. *)
Definition service_put (now : Z) (content : string) (s : LogService) : res unit * LogService :=
  if stream_exists s
  then (Ok tt, mkLogService (group_exists s) true (cw_append now content (service_events s)))
  else (Throw (JsError "The specified log stream does not exist."), s).

(** ** The runtime *)

(** A promise started and not yet settled. *)
Inductive Task :=
| TCreate
| TAppend (now : Z) (content : string).

Record Runtime := mkRuntime {
  service : LogService;
  logStreamName : option string;
  pending : list Task;
  console : list ConsoleLine;
  alerts : list (AlertType * string);
  unhandled : list exn
}.

(** [new CloudWatchStorage()]: the creation is started, not awaited. *)
Definition rt_new (e : LoggerEnv) (s : LogService) : Runtime :=
  mkRuntime s (BALANCE_LOG_STREAM_NAME e) [TCreate] [] [] [].

(** A logger call that is not awaited: its [append] is pending. *)
Definition rt_log (now : Z) (content : string) (rt : Runtime) : Runtime :=
  mkRuntime (service rt) (logStreamName rt) (pending rt ++ [TAppend now content])
    (console rt) (alerts rt) (unhandled rt).

(** A rejection: handled by [.catch] for the creation (lines 68-71),
    handled by nobody for an append. *)
Definition run_task (t : Task) (rt : Runtime) : Runtime :=
  match t with
  | TCreate =>
      let (answer, s') := service_create (service rt) in
      let (r, out) := createLogStreamIfNeeded (logStreamName rt) answer in
      match r with
      | Ok _ => mkRuntime s' (logStreamName rt) (pending rt) (console rt ++ out) (alerts rt) (unhandled rt)
      | Throw err =>
          mkRuntime s' (logStreamName rt) (pending rt)
            (console rt ++ out ++ [ConsoleError "Failed to create CloudWatch log stream:"])
            (alerts rt ++ [(ERROR, "Failed to set up CloudWatch logging: " ++ error_string err)%string])
            (unhandled rt)
      end
  | TAppend now content =>
      let (r, s') := service_put now content (service rt) in
      mkRuntime s' (logStreamName rt) (pending rt) (console rt) (alerts rt)
        (unhandled rt ++ match r with Ok _ => [] | Throw err => [err] end)
  end.

(** The list without its [i]-th element. *)
Fixpoint remove_nth {A} (i : nat) (l : list A) : list A :=
  match i, l with
  | _, [] => []
  | O, _ :: l' => l'
  | S i', x :: l' => x :: remove_nth i' l'
  end.

(** The [i]-th pending promise settles. *)
Definition settle (i : nat) (rt : Runtime) : option Runtime :=
  match nth_error (pending rt) i with
  | Some t =>
      Some (run_task t (mkRuntime (service rt) (logStreamName rt) (remove_nth i (pending rt))
                          (console rt) (alerts rt) (unhandled rt)))
  | None => None
  end.

(** One step of the program: a logger call, or a promise settling. *)
Inductive rt_step : Runtime -> Runtime -> Prop :=
| step_log rt now content : rt_step rt (rt_log now content rt)
| step_settle rt i rt' : settle i rt = Some rt' -> rt_step rt rt'.

Definition rt_steps : Runtime -> Runtime -> Prop := clos_refl_trans_1n Runtime rt_step.

(** Two runtimes that differ only in the order of their pending promises:
    the order promises were started in carries no meaning, since any of
    them may settle next. *)
Definition rt_equiv (r1 r2 : Runtime) : Prop :=
  service r1 = service r2 /\ logStreamName r1 = logStreamName r2 /\
  Permutation (pending r1) (pending r2) /\ console r1 = console r2 /\
  alerts r1 = alerts r2 /\ unhandled r1 = unhandled r2.

(** ** Lemmas *)

(** [createLogStreamIfNeeded] resolves, whatever the service answers:
    the lemmas on settling a creation are stated under this hypothesis,
    and the theorems discharge it from the definition with this tactic. *)
Definition create_resolves : Prop :=
  forall n answer, exists out, createLogStreamIfNeeded n answer = (Ok tt, out).

Ltac solve_create_resolves :=
  let n := fresh "n" in let name := fresh "name" in let message := fresh "message" in
  intros n [|name message]; cbn; [eauto|];
  destruct (String.eqb name "ResourceAlreadyExistsException"); eauto.

Section Settling.
Hypothesis Hcreate : create_resolves.

(** Settling a pending creation: the service answers, the console grows,
    nothing is alerted and nothing is left unhandled. *)
Lemma run_create rt : exists out,
  run_task TCreate rt = mkRuntime (snd (service_create (service rt))) (logStreamName rt) (pending rt)
                          (console rt ++ out) (alerts rt) (unhandled rt).
Proof.
  unfold run_task. destruct (service_create (service rt)) as [answer s'].
  destruct (Hcreate (logStreamName rt) answer) as [out ->]. eauto.
Qed.

Lemma settle_some i rt rt' : settle i rt = Some rt' ->
  exists t, nth_error (pending rt) i = Some t /\
    rt' = run_task t (mkRuntime (service rt) (logStreamName rt) (remove_nth i (pending rt))
                        (console rt) (alerts rt) (unhandled rt)).
Proof. unfold settle. destruct (nth_error (pending rt) i); intros H; inversion H; eauto. Qed.

(** Once the stream exists it keeps existing, every append settles, and
    a creation settling late is answered [ResourceAlreadyExistsException]
    (or [ResourceNotFoundException]), which [createLogStreamIfNeeded]
    catches: nothing is alerted and nothing is left unhandled. *)
Lemma step_created rt rt' :
  stream_exists (service rt) = true -> rt_step rt rt' ->
  stream_exists (service rt') = true /\ unhandled rt' = unhandled rt /\ alerts rt' = alerts rt.
Proof.
  intros Hs Hstep. destruct Hstep as [rt0 now content|rt0 i rt1 Hst]; [cbn; auto|].
  apply settle_some in Hst as [[|now content] [_ ->]].
  - destruct (run_create (mkRuntime (service rt0) (logStreamName rt0) (remove_nth i (pending rt0))
                            (console rt0) (alerts rt0) (unhandled rt0))) as [out ->].
    cbn. unfold service_create. rewrite Hs.
    destruct (negb (group_exists (service rt0))); cbn; auto.
  - cbn. unfold service_put. rewrite Hs. cbn. rewrite ?app_nil_r. auto.
Qed.

(** Without the log group nothing is ever created or alerted. *)
Definition no_group (rt : Runtime) : Prop :=
  group_exists (service rt) = false /\ stream_exists (service rt) = false /\ alerts rt = [].

Lemma step_no_group rt rt' : no_group rt -> rt_step rt rt' -> no_group rt'.
Proof.
  intros Hg Hstep. destruct Hstep as [rt0 now content|rt0 i rt1 Hst]; [exact Hg|].
  destruct Hg as (Hg & Hs & Ha).
  apply settle_some in Hst as [[|now content] [_ ->]].
  - destruct (run_create (mkRuntime (service rt0) (logStreamName rt0) (remove_nth i (pending rt0))
                            (console rt0) (alerts rt0) (unhandled rt0))) as [out ->].
    cbn. unfold service_create. rewrite Hg. cbn. now split.
  - cbn. unfold service_put. rewrite Hs. cbn. now split.
Qed.

Lemma steps_no_group rt rt' : no_group rt -> rt_steps rt rt' -> no_group rt'.
Proof. intros H Hs. induction Hs; eauto using step_no_group. Qed.
End Settling.

(** A settled append on a stream that does not exist is one more
    unhandled rejection. *)
Lemma settle_append_missing i rt now content :
  stream_exists (service rt) = false -> nth_error (pending rt) i = Some (TAppend now content) ->
  exists rt', settle i rt = Some rt' /\ alerts rt' = alerts rt /\ service rt' = service rt /\
    unhandled rt' = unhandled rt ++ [JsError "The specified log stream does not exist."].
Proof.
  intros Hs Hi. unfold settle. rewrite Hi. cbn. unfold service_put. rewrite Hs. cbn. eauto.
Qed.

(** ** The order of pending promises does not matter *)

#[export] Instance rt_equiv_Equivalence : Equivalence rt_equiv.
Proof.
  split.
  - intros r. repeat split; reflexivity.
  - intros r1 r2 (? & ? & ? & ? & ? & ?). repeat split; symmetry; assumption.
  - intros r1 r2 r3 (? & ? & ? & ? & ? & ?) (? & ? & ? & ? & ? & ?).
    repeat split; etransitivity; eassumption.
Qed.

#[export] Instance rt_log_Proper : Proper (eq ==> eq ==> rt_equiv ==> rt_equiv) rt_log.
Proof.
  intros now ? <- content ? <- r1 r2 (Hs & Hn & Hp & Hc & Ha & Hu).
  unfold rt_log. repeat split; cbn; auto. now rewrite Hp.
Qed.

(** The [i]-th element taken out and put in front is a permutation. *)
Lemma remove_nth_perm {A} i (l : list A) t :
  nth_error l i = Some t -> Permutation l (t :: remove_nth i l).
Proof.
  revert i. induction l as [|x l IH]; intros [|i] H; cbn in H; try discriminate.
  - injection H as ->. reflexivity.
  - cbn. etransitivity; [apply perm_skip, (IH i H) | apply perm_swap].
Qed.

(** A promise pending in one order is pending in any other, and what
    remains after it settles is again the same up to order. *)
Lemma perm_settle_index {A} (l1 l2 : list A) i t :
  Permutation l1 l2 -> nth_error l1 i = Some t ->
  exists j, nth_error l2 j = Some t /\ Permutation (remove_nth i l1) (remove_nth j l2).
Proof.
  intros Hp Hi.
  assert (Hin : In t l2) by (eapply Permutation_in; [exact Hp | eapply nth_error_In; exact Hi]).
  apply In_nth_error in Hin as [j Hj]. exists j. split; [exact Hj|].
  apply (Permutation_cons_inv (a := t)).
  rewrite <- (remove_nth_perm i l1 t Hi), <- (remove_nth_perm j l2 t Hj). exact Hp.
Qed.

Lemma run_task_equiv t r1 r2 : rt_equiv r1 r2 -> rt_equiv (run_task t r1) (run_task t r2).
Proof.
  destruct r1, r2. intros (Hs & Hn & Hp & Hc & Ha & Hu). cbn in *. subst.
  destruct t as [|now content]; unfold run_task; cbn.
  - destruct (service_create _) as [answer s']. destruct (createLogStreamIfNeeded _ _) as [[]]; 
      repeat split; cbn; auto.
  - destruct (service_put _ _ _) as [r s']. repeat split; cbn; auto.
Qed.

(** [rt_equiv] is a bisimulation: whatever one runtime can do, an
    equivalent one can do, and they stay equivalent. *)
Lemma rt_step_bisim r1 r2 r1' :
  rt_equiv r1 r2 -> rt_step r1 r1' -> exists r2', rt_step r2 r2' /\ rt_equiv r1' r2'.
Proof.
  intros He Hstep. destruct Hstep as [r now content|r i r' Hst].
  - exists (rt_log now content r2). split; [constructor|]. now rewrite He.
  - apply settle_some in Hst as [t [Hi ->]].
    destruct He as (Hs & Hn & Hp & Hc & Ha & Hu).
    destruct (perm_settle_index _ _ i t Hp Hi) as [j [Hj Hr]].
    exists (run_task t (mkRuntime (service r2) (logStreamName r2) (remove_nth j (pending r2))
                        (console r2) (alerts r2) (unhandled r2))).
    split; [apply (step_settle _ j); unfold settle; now rewrite Hj|].
    apply run_task_equiv. repeat split; cbn; assumption.
Qed.

(** The same holds for whole runs. *)
Lemma rt_steps_bisim r1 r2 r1' :
  rt_equiv r1 r2 -> rt_steps r1 r1' -> exists r2', rt_steps r2 r2' /\ rt_equiv r1' r2'.
Proof.
  intros He Hr. revert r2 He. induction Hr as [r|x y z Hxy _ IH]; intros r2 He.
  - exists r2. split; [constructor | exact He].
  - destruct (rt_step_bisim x r2 y He Hxy) as [y2 [Hy2 Hey]].
    destruct (IH y2 Hey) as [z2 [Hz2 Hez]]. exists z2. split; [econstructor; eassumption | exact Hez].
Qed.

(** ** Concrete runs *)

Definition race_env : LoggerEnv := mkLoggerEnv (Some "true") (Some "us-east-1") (Some "rebalancer") (Some "balances").

(** The log group exists, the stream does not yet. *)
Definition fresh_service : LogService := mkLogService true false (mkCloudWatch []).

(** The logger is built, then [logBalances] is called without [await]:
    the creation and the append are both pending. *)
Definition started : Runtime :=
  rt_log 5 (balance_entry amount_10 amount_1) (rt_new race_env fresh_service).

(** ** Properties *)

(** C23. Once the log stream exists, no interleaving of logger calls and
    settling promises adds an unhandled rejection or an alert: every
    append finds the stream, and a creation settling late is answered
    [ResourceAlreadyExistsException], which [createLogStreamIfNeeded]
    catches and reports on the console only. *)
Theorem rt_no_rejection_once_created rt0 rt :
  stream_exists (service rt0) = true -> rt_steps rt0 rt ->
  stream_exists (service rt) = true /\ unhandled rt = unhandled rt0 /\ alerts rt = alerts rt0.
Proof.
  intros Hs Hr. revert Hs. induction Hr as [|x y z Hxy _ IH]; [auto|].
  intros Hs. destruct (step_created ltac:(solve_create_resolves) x y Hs Hxy) as (Hs' & Hu & Ha).
  destruct (IH Hs') as (? & Hu' & Ha'). rewrite Hu', Ha', Hu, Ha. auto.
Qed.

(** C22. With the log group missing the stream is never created and no
    alert is ever sent (the creation's failure goes to the console only),
    and at every point of the run each pending append, when it settles,
    becomes an unhandled rejection: the records are lost, and Node.js
    terminates on an unhandled rejection by default. *)
Theorem rt_missing_group_loses_every_append rt0 rt i now content :
  no_group rt0 -> rt_steps rt0 rt -> nth_error (pending rt) i = Some (TAppend now content) ->
  alerts rt = [] /\
  exists rt', settle i rt = Some rt' /\ alerts rt' = [] /\
    unhandled rt' = unhandled rt ++ [JsError "The specified log stream does not exist."].
Proof.
  intros H0 Hr Hi.
  destruct (steps_no_group ltac:(solve_create_resolves) rt0 rt H0 Hr) as (_ & Hs & Ha).
  destruct (settle_append_missing i rt now content Hs Hi) as (rt' & Hst & Ha' & _ & Hu).
  split; [exact Ha|]. exists rt'. rewrite Ha', Ha. auto.
Qed.

(** C21. Ordering: while the log group exists and the stream does not,
    when the creation and a [logBalances] append are both pending, the
    append's fate depends on which settles first.  Creation first, the
    record is appended to the stream and nothing is rejected or alerted;
    append first, [PutLogEvents] is rejected, the rejection is unhandled,
    and the record is lost although the stream exists afterwards.  By
    [rt_steps_bisim] the order of the two in the pending list is
    immaterial. *)
Theorem rt_first_append_races_creation rt now content rest :
  group_exists (service rt) = true -> stream_exists (service rt) = false ->
  pending rt = TCreate :: TAppend now content :: rest ->
  (exists rt1 rt2, settle 0 rt = Some rt1 /\ settle 0 rt1 = Some rt2 /\
     stream_exists (service rt2) = true /\
     service_events (service rt2) = cw_append now content (service_events (service rt)) /\
     pending rt2 = rest /\ unhandled rt2 = unhandled rt /\ alerts rt2 = alerts rt) /\
  (exists rt1 rt2, settle 1 rt = Some rt1 /\ settle 0 rt1 = Some rt2 /\
     stream_exists (service rt2) = true /\
     service_events (service rt2) = service_events (service rt) /\
     pending rt2 = rest /\
     unhandled rt2 = unhandled rt ++ [JsError "The specified log stream does not exist."] /\
     alerts rt2 = alerts rt).
Proof.
  destruct rt as [[g st ev] n p c a u]; cbn. intros -> -> ->.
  split; do 2 eexists; (split; [reflexivity|]); unfold run_task, service_create; cbn;
    (split; [reflexivity|]); cbn; rewrite ?app_nil_r; auto 7.
Qed.

(** ** Witnesses *)

Lemma rt_no_rejection_once_created_witness :
  let rt0 := mkRuntime (mkLogService true true (mkCloudWatch [])) None [TCreate] [] [] [] in
  let rt := rt_log 7 "x" (rt_log 5 "y" rt0) in
  stream_exists (service rt) = true /\ unhandled rt = unhandled rt0 /\ alerts rt = alerts rt0.
Proof.
  intros rt0 rt.
  apply (rt_no_rejection_once_created rt0 rt); [reflexivity|].
  econstructor; [apply step_log|]. econstructor; [apply step_log | constructor].
Defined.

Lemma rt_missing_group_loses_every_append_witness :
  alerts (rt_log 5 "x" (rt_new race_env (mkLogService false false (mkCloudWatch [])))) = [] /\
  exists rt', settle 1 (rt_log 5 "x" (rt_new race_env (mkLogService false false (mkCloudWatch [])))) = Some rt' /\
    alerts rt' = [] /\
    unhandled rt' = unhandled (rt_log 5 "x" (rt_new race_env (mkLogService false false (mkCloudWatch []))))
                    ++ [JsError "The specified log stream does not exist."].
Proof.
  apply (rt_missing_group_loses_every_append (rt_new race_env (mkLogService false false (mkCloudWatch []))) _ 1 5 "x").
  - repeat split.
  - econstructor; [apply step_log | constructor].
  - reflexivity.
Defined.

Lemma rt_first_append_races_creation_witness :
  (exists rt1 rt2, settle 0 started = Some rt1 /\ settle 0 rt1 = Some rt2 /\
     stream_exists (service rt2) = true /\
     service_events (service rt2) =
       cw_append 5 (balance_entry amount_10 amount_1) (service_events (service started)) /\
     pending rt2 = [] /\ unhandled rt2 = unhandled started /\ alerts rt2 = alerts started) /\
  (exists rt1 rt2, settle 1 started = Some rt1 /\ settle 0 rt1 = Some rt2 /\
     stream_exists (service rt2) = true /\
     service_events (service rt2) = service_events (service started) /\
     pending rt2 = [] /\
     unhandled rt2 = unhandled started ++ [JsError "The specified log stream does not exist."] /\
     alerts rt2 = alerts started).
Proof. exact (rt_first_append_races_creation started 5 _ [] eq_refl eq_refl eq_refl). Defined.
