(* ===== verification/AlertDelivery.v ===== *)
(** * The alert sink: [sendAlert] and its Telegram client

    [src/utils/alerts.ts] (staged as [src/Dockerfile] lines 81-158) reads
    [TELEGRAM_BOT_TOKEN] and [TELEGRAM_CHAT_ID] when the module loads
    (lines 86-96) and builds a Telegram client only when both are set.
    [sendAlert(type, message)] (lines 114-129) prefixes the message with
    the icon and the tag of its type, writes it to the console, and, when
    the client exists, sends it to the chat, catching a delivery failure.

    Everywhere else the development treats [sendAlert] as the event
    [EvAlert] of [Effects], which never fails.  Here the function itself is
    modelled, in the state and exception monad of [Monad] over its
    observable output (console lines and Telegram attempts), with the
    Telegram API's answer as an input; the theorem shows that it resolves
    whatever that answer is, which is what the abstraction assumes and
    what the spec requires of the alert sink ("delivery failure must never
    raise into the core"). *)

From S2P Require Import Prelude Monad Effects PoolMetadata Storage.

Local Open Scope string_scope.

(** ** Module initialisation *)

(** The variables the module reads from [process.env]. *)
Record TelegramEnv := mkTelegramEnv {
  TELEGRAM_BOT_TOKEN_var : option string;
  TELEGRAM_CHAT_ID_var : option string
}.

(** The module's state: [telegramEnabled], [bot] (the client, by its
    token) and [TELEGRAM_CHAT_ID]. *)
Record AlertModule := mkAlertModule {
  telegramEnabled : bool;
  bot : option string;
  TELEGRAM_CHAT_ID : option string
}.

(** Lines 86-96. *)
Definition init_alerts (e : TelegramEnv) : AlertModule * list ConsoleLine :=
  let enabled := truthy (TELEGRAM_BOT_TOKEN_var e) && truthy (TELEGRAM_CHAT_ID_var e) in
  if enabled
  then (mkAlertModule true (TELEGRAM_BOT_TOKEN_var e) (TELEGRAM_CHAT_ID_var e), [])
  else (mkAlertModule false None None,
        [ConsoleLog "Telegram alerts disabled: Missing TELEGRAM_BOT_TOKEN or TELEGRAM_CHAT_ID environment variables"]).

(** ** Formatting *)

(** [ALERT_ICONS] (lines 98-104). *)
Definition ALERT_ICONS (t : AlertType) : string :=
  match t with
  | ERROR => "🚨"
  | LOSS => "📉"
  | PERFORMANCE_REPORT => "📊"
  | WARNING => "⚠️"
  | INFO => "ℹ️"
  end.

(** The string values of [enum AlertType] (lines 106-112). *)
Definition alert_type_name (t : AlertType) : string :=
  match t with
  | LOSS => "LOSS"
  | PERFORMANCE_REPORT => "PERFORMANCE_REPORT"
  | ERROR => "ERROR"
  | WARNING => "WARNING"
  | INFO => "INFO"
  end.

(** [prefix + message] (lines 115-116). *)
Definition formatted_message (t : AlertType) (message : string) : string :=
  ALERT_ICONS t ++ "[" ++ alert_type_name t ++ "] " ++ message.

(** ** [sendAlert] *)

(** What [sendAlert] leaves observable: the console and the messages it
    asked the Telegram API to deliver, as (chat, text). *)
Record AlertOutput := mkAlertOutput {
  alert_console : list ConsoleLine;
  telegram_attempts : list (string * string)
}.

Definition console_out (l : ConsoleLine) : M AlertOutput unit :=
  modify (fun o => mkAlertOutput (alert_console o ++ [l]) (telegram_attempts o)).

(** [bot.sendMessage(chat, text)], answered [delivery] by the API. *)
Definition bot_sendMessage (delivery : res unit) (chat text : string) : M AlertOutput unit :=
  fun o => (delivery, mkAlertOutput (alert_console o) (telegram_attempts o ++ [(chat, text)])).

(** [sendAlert(type, message)] (lines 114-129). *)
Definition sendAlert_impl (m : AlertModule) (delivery : res unit) (t : AlertType) (message : string)
    : M AlertOutput unit :=
  let formattedMessage := formatted_message t message in
  console_out (ConsoleLog formattedMessage) ;;
  if telegramEnabled m && (match bot m with Some _ => true | None => false end) && truthy (TELEGRAM_CHAT_ID m)
  then catch (bot_sendMessage delivery (default "" (TELEGRAM_CHAT_ID m)) formattedMessage)
             (fun _ => console_out (ConsoleError "Failed to send Telegram alert:"))
  else ret tt.

(** ** Properties *)

(** C35. The alert sink never raises: for the module as loaded from any
    environment and whatever the Telegram API answers, [sendAlert]
    resolves; it writes the icon-and-tag-prefixed message to the console,
    sends that same text to the configured chat exactly when both
    Telegram variables are set, and turns a failed delivery into one
    console error. *)
Theorem sendAlert_resolves e delivery t message o :
  sendAlert_impl (fst (init_alerts e)) delivery t message o =
    (Ok tt, mkAlertOutput
       (alert_console o ++ [ConsoleLog (formatted_message t message)] ++
        (if truthy (TELEGRAM_BOT_TOKEN_var e) && truthy (TELEGRAM_CHAT_ID_var e) && negb (is_ok delivery)
         then [ConsoleError "Failed to send Telegram alert:"] else []))
       (telegram_attempts o ++
        (if truthy (TELEGRAM_BOT_TOKEN_var e) && truthy (TELEGRAM_CHAT_ID_var e)
         then [(default "" (TELEGRAM_CHAT_ID_var e), formatted_message t message)] else []))).
Proof.
  destruct e as [[tok|] [chat|]]; unfold init_alerts, sendAlert_impl, truthy;
    cbn [TELEGRAM_BOT_TOKEN_var TELEGRAM_CHAT_ID_var];
    [destruct (String.eqb tok "") eqn:Et, (String.eqb chat "") eqn:Ec
    |destruct (String.eqb tok "") eqn:Et|destruct (String.eqb chat "") eqn:Ec|];
    cbn; rewrite ?Et, ?Ec; cbn; destruct delivery as [[]|]; cbn;
    unfold console_out, modify; cbn; now rewrite ?app_nil_r, <- ?app_assoc.
Qed.
