(* ===== verification/Alerts.v ===== *)
(** * The alert helpers: [checkLossThreshold] and [sendPerformanceReport]

    alerts.ts (staged as [src/Dockerfile] lines 81-158) exports, besides
    [sendAlert] (an event appended to the trace, see [Effects]; the function
    itself is in [AlertDelivery]),
    two helpers that turn portfolio values into alerts.
    [checkLossThreshold] returns [false] for a missing or zero previous
    value ([!previousValue]), and otherwise raises a LOSS alert and returns
    [true] when the relative change is at most the threshold ([-0.02] by
    default).  [sendPerformanceReport] always raises one PERFORMANCE_REPORT
    alert with the change and the percentage change; the percentage is
    [None] when the previous value is 0, where JavaScript divides by zero.
    The message texts ([toFixed(2)] formatting) are not modelled: the
    alerts carry the numbers. *)

From S2P Require Import Prelude Monad Effects DemoLedger.

Local Open Scope Q_scope.
Open Scope rebal_scope.

(** [threshold = -0.02] *)
Definition default_threshold : Q := -2 # 100.

Section Helpers.
Context {L : Type} `{Chain L}.

(** [checkLossThreshold(currentValue, previousValue?, threshold)]
    (lines 131-146); [None] is an omitted (undefined) previous value. *)
Definition checkLossThreshold (currentValue : Q) (previousValue : option Q) (threshold : Q)
    : M (World L) bool :=
  match previousValue with
  | None => ret false
  | Some prev =>
      if Qeq_bool prev 0 then ret false
      else
        let percentageChange := (currentValue - prev) / prev in
        if Qle_bool percentageChange threshold
        then sendAlert LOSS (AlertLoss percentageChange prev currentValue) ;; ret true
        else ret false
  end.

(** [sendPerformanceReport(currentValue, previousValue)] (lines 148-158). *)
Definition sendPerformanceReport (currentValue previousValue : Q) : M (World L) unit :=
  let change := currentValue - previousValue in
  let percentChange := if Qeq_bool previousValue 0 then None
                       else Some (change / previousValue * 100) in
  sendAlert PERFORMANCE_REPORT (AlertPerformanceReport currentValue change percentChange).
End Helpers.

(** ** The threshold test *)

(** For a positive previous value, a relative change at most [t] is a
    current value at most [(1 + t)] times the previous one. *)
Lemma relative_change_le c p t : 0 < p -> ((c - p) / p <= t <-> c <= (1 + t) * p).
Proof.
  intros Hp. rewrite <- (Qmult_le_r _ _ p Hp).
  setoid_replace ((c - p) / p * p) with (c - p) using relation Qeq
    by (field; intros E; rewrite E in Hp; discriminate).
  split; intros; lra.
Qed.

Lemma Qle_bool_relative c p t :
  0 < p -> Qle_bool ((c - p) / p) t = Qle_bool c ((1 + t) * p).
Proof.
  intros Hp. destruct (Qle_bool c ((1 + t) * p)) eqn:E.
  - apply Qle_bool_iff, relative_change_le, Qle_bool_iff; assumption.
  - destruct (Qle_bool ((c - p) / p) t) eqn:E'; [|reflexivity].
    apply Qle_bool_iff, (relative_change_le c p t Hp), Qle_bool_iff in E'. congruence.
Qed.

(** ** Properties *)

(** Loss detection: for a positive previous value [p],
    [checkLossThreshold c p t] raises exactly one LOSS alert carrying the
    relative change and returns [true] when [c <= (1 + t) * p], that is
    when the value fell by at least [-t] of [p]; otherwise it returns
    [false] and leaves everything unchanged. *)
Theorem checkLossThreshold_spec {L} `{Chain L} (w : World L) c p t :
  0 < p ->
  checkLossThreshold c (Some p) t w =
    if Qle_bool c ((1 + t) * p)
    then (Ok true, mkWorld (ledger w) (env w) (self w)
                     (trace w ++ [EvAlert LOSS (AlertLoss ((c - p) / p) p c)]))
    else (Ok false, w).
Proof.
  intros Hp. unfold checkLossThreshold. cbv zeta.
  replace (Qeq_bool p 0) with false
    by (symmetry; apply not_true_iff_false; intros E%Qeq_bool_iff;
        rewrite E in Hp; discriminate).
  rewrite (Qle_bool_relative c p t Hp).
  destruct (Qle_bool c ((1 + t) * p)); reflexivity.
Qed.

(** ** Witnesses *)

(** From 100 to 97 (-3%) with the default threshold: a loss alert;
    from 100 to 99 (-1%): none. *)
Lemma checkLossThreshold_spec_witness :
  let w := demo_world (demo_ledger 10 20 1 100 [] []) 100 120 in
  0 < 100 /\
  checkLossThreshold 97 (Some 100) default_threshold w =
    (Ok true, mkWorld (ledger w) (env w) (self w)
                (trace w ++ [EvAlert LOSS (AlertLoss ((97 - 100) / 100) 100 97)])) /\
  checkLossThreshold 99 (Some 100) default_threshold w = (Ok false, w).
Proof.
  intros w. split; [reflexivity|]. split.
  - rewrite (checkLossThreshold_spec w 97 100 default_threshold eq_refl). reflexivity.
  - rewrite (checkLossThreshold_spec w 99 100 default_threshold eq_refl). reflexivity.
Defined.
