(* ===== verification/Lifecycle.v ===== *)
(** * The position lifecycle controller

    The methods that open, close and adopt the pool position
    (logger.ts 344-395 and 501-585): the two native-balance checks,
    [addLiquidity] (which also reads back the new position's bin range),
    [removeLiquidity], and [loadInitialState], which resolves the pool's
    metadata and width and then either opens a first position or adopts the
    existing one.  Each is the whole method, with its retries, logs, alerts
    and delays in the code's order. *)

From S2P Require Import Prelude Monad Effects DemoLedger Retry.
From S2P Require Import Trace Balances RangeSizing AssetBalancer PoolMetadata.

Local Open Scope Q_scope.
Open Scope rebal_scope.

Section Lifecycle.
Context {L : Type} `{Chain L}.

(** [verifyNativeTokenBalanceForFees()] (lines 344-349): a warning only. *)
Definition verifyNativeTokenBalanceForFees : M (World L) unit :=
  nativeBalance <- wallet_getBalance None ;;
  e <- process_env ;;
  if Qltb nativeBalance (NATIVE_TOKEN_MIN_BALANCE e)
  then sendAlert WARNING AlertLowNativeBalance
  else ret tt.

Definition insufficient_native_message : string :=
  "Insufficient native token balance for position creation fees".

(** [verifyNativeTokenBufferForPositions()] (lines 501-514). *)
Definition verifyNativeTokenBufferForPositions : M (World L) unit :=
  nativeBalance <- wallet_getBalance None ;;
  e <- process_env ;;
  if Qltb nativeBalance (NATIVE_TOKEN_FEE_BUFFER e)
  then sendAlert ERROR (AlertInsufficientNative nativeBalance) ;;
       throw (JsError insufficient_native_message)
  else ret tt.

(** Lines 539-547: adopt the first reported position's bounds, or keep
    the cached ones when none is visible. *)
Definition adopt_first_position (positions : list Position) : M (World L) unit :=
  match positions with
  | [] => ret tt
  | position :: _ =>
      update_this (set_bin_range (lowerBinId (positionData position))
                                 (upperBinId (positionData position)))
  end.

(** [addLiquidity()] (lines 516-548). *)
Definition addLiquidity : M (World L) unit :=
  verifyNativeTokenBufferForPositions ;;
  balances <- getUsableBalances ;;
  d <- poolDetails ;;
  r <- this ;;
  retry (meteora_addLiquidity (poolAddress r)
           (balance_of balances (assetASymbol d)) (balance_of balances (assetBSymbol d))
           (meteoraRangeInterval r)) 5 5000 ;;
  log (LogBalances (balance_of balances (assetASymbol d)) (balance_of balances (assetBSymbol d))
         "Liquidity added to pool" (assetASymbol d) (assetBSymbol d)) ;;
  positions <- retryGetPositions 10 10000 ;;
  adopt_first_position positions.

(** [removeLiquidity()] (lines 550-585). *)
Definition removeLiquidity : M (World L) unit :=
  r <- this ;;
  removed <- retry (meteora_removeLiquidity (poolAddress r)) 5 5000 ;;
  d <- poolDetails ;;
  log (LogBalances (fst (liquidityRemoved removed)) (snd (liquidityRemoved removed))
         "Liquidity removed from pool" (assetASymbol d) (assetBSymbol d)) ;;
  log (LogBalances (fst (feesClaimed removed)) (snd (feesClaimed removed))
         "Rewards claimed" (assetASymbol d) (assetBSymbol d)) ;;
  delay 5000 ;;
  newBalances <- getUsableBalances ;;
  log (LogAction (ActWithdrew (poolAddress r) (balance_of newBalances (assetASymbol d))
                    (assetASymbol d) (balance_of newBalances (assetBSymbol d)) (assetBSymbol d))).

(** Lines 372-394: open a first position, or adopt the existing one. *)
Definition initial_branch (positions : list Position) : M (World L) bool :=
  match positions with
  | [] =>
      verifyNativeTokenBalanceForFees ;;
      rebalancePosition ;;
      addLiquidity ;;
      ret true
  | position :: _ =>
      update_this (set_bin_range (lowerBinId (positionData position))
                                 (upperBinId (positionData position))) ;;
      ret false
  end.

(** [loadInitialState()] (lines 351-395). *)
Definition loadInitialState : M (World L) bool :=
  r <- this ;;
  pd <- getPoolDetails (poolAddress r) ;;
  update_this (set_poolDetails pd) ;;
  match pd with
  | None => throw (JsError ("Failed to get pool details for pool: " ++ poolAddress r))
  | Some _ =>
      computeRangeInterval ;;
      _ <- getUsableBalances ;;
      positions <- retryGetPositions 3 5000 ;;
      initial_branch positions
  end.
End Lifecycle.

(** ** Trace facts *)

Definition not_remove (ev : Event) : Prop :=
  match ev with EvCall (CRemoveLiquidity _) _ => False | _ => True end.

Definition not_swap_or_add (ev : Event) : Prop := swaps_or_adds ev = false.

(** An add-liquidity call that deposits exactly [ua] of A and [ub] of B. *)
Definition deposits (ua ub : Q) (ev : Event) : Prop :=
  match ev with EvCall (CAddLiquidity _ a b _) _ => a = ua /\ b = ub | _ => True end.

(** No swap, add or remove call, whatever its outcome. *)
Definition keeps_funds (ev : Event) : Prop := moves_funds ev = false.

Section Facts.
Context {L : Type} `{Chain L}.

Lemma getUsableBalances_emits (P : Event -> Prop) :
  (forall m b, P (EvCall (CGetBalance m) b)) -> emits P getUsableBalances.
Proof. intros HP. emits_tac; auto. Qed.

Lemma getPoolDetails_emits (P : Event -> Prop) pool :
  (forall p b, P (EvCall (CFetchPair p) b)) -> (forall e, P (EvAlert ERROR (AlertGetPoolDetails e))) ->
  emits P (getPoolDetails pool).
Proof. intros HF HA. emits_tac; auto. Qed.

Lemma rebalancePosition_not_remove : emits not_remove rebalancePosition.
Proof.
  emits_tac; simpl; auto; apply getUsableBalances_emits; simpl; auto.
Qed.
End Facts.

(** ** Composition helpers *)

Section Runs.
Context {L : Type} `{Chain L}.

Lemma run_extends {A} (c : M (World L) A) w r w1 :
  emits (fun _ => True) c -> c w = (r, w1) -> exists sfx, trace w1 = trace w ++ sfx.
Proof.
  intros Hc Hr. destruct (Hc w) as [sfx [E _]]. rewrite Hr in E. eauto.
Qed.

Lemma in_extend (ev : Event) (t0 t1 t2 t3 : list Event) s1 s2 s3 :
  t1 = t0 ++ s1 -> t2 = t1 ++ s2 -> t3 = t2 ++ s3 -> In ev s2 ->
  exists sfx, t3 = t0 ++ sfx /\ In ev sfx.
Proof.
  intros -> -> -> Hin. exists (s1 ++ s2 ++ s3).
  split; [by rewrite !app_assoc | apply in_or_app; right; apply in_or_app; left; exact Hin].
Qed.

(** A passed fee-reserve check has read the native balance and changed
    nothing else. *)
Lemma run_verifyBuffer_ok (w w1 : World L) n l0 :
  getBalance None (ledger w) = (Ok n, l0) ->
  verifyNativeTokenBufferForPositions w = (Ok tt, w1) ->
  ledger w1 = l0 /\ env w1 = env w /\ self w1 = self w.
Proof.
  intros Hn Hv. unfold verifyNativeTokenBufferForPositions, wallet_getBalance in Hv.
  unfold bind at 1 in Hv. rewrite ext_run, Hn in Hv. cbn in Hv.
  destruct (Qltb n _); cbn in Hv; try discriminate; injection Hv as <-; auto.
Qed.
End Runs.

Lemma run_keeps {L} `{Chain L} {A} (c : M (World L) A) w r w1 :
  keeps_self c -> c w = (r, w1) -> self w1 = self w.
Proof. intros Hc Hr. specialize (Hc w). rewrite Hr in Hc. exact Hc. Qed.

Ltac self_of H := apply run_keeps in H; [|keeps_tac].

(** Invert the [bind] at the head of a hypothesis [c w = (Ok _, _)]. *)
Ltac inv_ok H :=
  let a := fresh "a" in let w := fresh "w" in let H1 := fresh "Hstep" in
  apply bind_ok_inv in H as [a [w [H1 H]]].

(** Rewrite the trace of the final world back to the initial one. *)
Ltac chain_traces :=
  repeat match goal with
  | E : trace ?x = _ |- context [trace ?x] => rewrite E
  end; rewrite <- ?app_assoc; reflexivity.

Ltac trace_of H :=
  let s := fresh "s" in let E := fresh "Etr" in
  apply run_extends in H as [s E]; [|emits_tac; auto].

(** ** Properties *)

Section LifecycleFacts.
Context {L : Type} `{Chain L}.

Lemma addLiquidity_emits (P : Event -> Prop) :
  (forall c b, P (EvCall c b)) -> (forall t a, P (EvAlert t a)) ->
  (forall l, P (EvLog l)) -> (forall ms, P (EvDelay ms)) -> emits P addLiquidity.
Proof. intros. emits_tac; auto. Qed.

(** C9. Fee-reserve guard: when the native balance read first is below
    [NATIVE_TOKEN_FEE_BUFFER], [addLiquidity] alerts at ERROR level and
    throws ["Insufficient native token balance for position creation
    fees"] before any other call: no balance read, no add, no retry. *)
Theorem addLiquidity_requires_fee_reserve (w : World L) n l' :
  getBalance None (ledger w) = (Ok n, l') ->
  Qltb n (NATIVE_TOKEN_FEE_BUFFER (env w)) = true ->
  addLiquidity w =
    (Throw (JsError insufficient_native_message),
     mkWorld l' (env w) (self w) (trace w ++ [EvCall (CGetBalance None) true;
                                      EvAlert ERROR (AlertInsufficientNative n)])).
Proof.
  intros Hn Hlt. unfold addLiquidity, verifyNativeTokenBufferForPositions, wallet_getBalance.
  rewrite bind_assoc. run_ok Hn. unfold bind at 1 2, process_env, gets. cbn [env].
  rewrite Hlt. cbn. rewrite <- app_assoc. reflexivity.
Qed.

(** A completed [addLiquidity] has made a successful add-liquidity call. *)
Lemma addLiquidity_ok_added (w w' : World L) :
  addLiquidity w = (Ok tt, w') ->
  exists sfx pool a b ri, trace w' = trace w ++ sfx /\
    In (EvCall (CAddLiquidity pool a b ri) true) sfx.
Proof.
  intros Hr. unfold addLiquidity in Hr.
  do 5 inv_ok Hr. unfold retry, meteora_addLiquidity in Hstep3.
  apply retry_ext_ok_event in Hstep3 as [s2 [E2 Hin]].
  trace_of Hstep. trace_of Hstep0. trace_of Hstep1. trace_of Hstep2. trace_of Hr.
  eexists; do 4 eexists; split; [chain_traces | rewrite !in_app_iff; eauto 10].
Qed.
(** C18. The cached range can outlive the position it describes: if the
    ledger never shows a position to the read-back query (it reports none,
    or fails with an ordinary error, ten times), a completed [addLiquidity]
    has opened a position (a successful add call is in the trace) yet leaves
    [currLowerBinId] and [currUpperBinId] at their previous values; the
    spec says the range is replaced by the new position's bounds. *)
Theorem addLiquidity_keeps_stale_range
  (query_empty : forall pool l,
     fst (getPositionsFromPool pool l) = Ok [] \/
     exists e, fst (getPositionsFromPool pool l) = Throw e /\ insufficient_funds e = false)
  (w w' : World L) :
  addLiquidity w = (Ok tt, w') ->
  currLowerBinId (self w') = currLowerBinId (self w) /\
  currUpperBinId (self w') = currUpperBinId (self w) /\
  exists sfx pool a b ri, trace w' = trace w ++ sfx /\
    In (EvCall (CAddLiquidity pool a b ri) true) sfx.
Proof.
  intros Hr. pose proof (addLiquidity_ok_added w w' Hr) as Hadded.
  unfold addLiquidity in Hr. do 7 inv_ok Hr.
  pose proof (retryGetPositions_empty query_empty 9 10000 w5) as Hnil.
  rewrite Hstep5 in Hnil. simpl in Hnil.
  injection Hnil as ->. injection Hr as <-.
  self_of Hstep. self_of Hstep0. self_of Hstep1. self_of Hstep2. self_of Hstep3.
  self_of Hstep4. self_of Hstep5.
  rewrite Hstep5, Hstep4, Hstep3, Hstep2, Hstep1, Hstep0, Hstep.
  split; [reflexivity | split; [reflexivity | exact Hadded]].
Qed.

(** C17. Read-back of the new range: when the positions query shows
    [p :: ps], a completed [addLiquidity] has made a successful add call
    and caches the bounds of [p], the first reported position, as the new
    range. *)
Theorem addLiquidity_adopts_new_range p ps
  (shows : forall pool l, fst (getPositionsFromPool pool l) = Ok (p :: ps))
  (w w' : World L) :
  addLiquidity w = (Ok tt, w') ->
  currLowerBinId (self w') = lowerBinId (positionData p) /\
  currUpperBinId (self w') = upperBinId (positionData p) /\
  exists sfx pool a b ri, trace w' = trace w ++ sfx /\
    In (EvCall (CAddLiquidity pool a b ri) true) sfx.
Proof.
  intros Hr. pose proof (addLiquidity_ok_added w w' Hr) as Hadded.
  unfold addLiquidity in Hr. do 7 inv_ok Hr. unfold retryGetPositions in Hstep5.
  apply (retryGetPositions_shows p ps shows) in Hstep5 as ->.
  cbn [adopt_first_position] in Hr. unfold update_this, modify in Hr.
  injection Hr as <-. cbn. auto.
Qed.

Lemma removeLiquidity_not_swap_or_add : emits not_swap_or_add removeLiquidity.
Proof. emits_tac; reflexivity. Qed.

(** A completed [removeLiquidity] has made a successful removal call on
    the pool, and makes no swap and no add. *)
Lemma removeLiquidity_ok_removed (w w' : World L) :
  removeLiquidity w = (Ok tt, w') ->
  exists sfx, trace w' = trace w ++ sfx /\
    In (EvCall (CRemoveLiquidity (poolAddress (self w))) true) sfx /\
    Forall not_swap_or_add sfx.
Proof.
  intros Hr. pose proof (removeLiquidity_not_swap_or_add w) as [sfx0 [E0 F0]].
  rewrite Hr in E0. simpl in E0.
  unfold removeLiquidity in Hr. do 2 inv_ok Hr.
  unfold this, gets in Hstep. injection Hstep as <- <-.
  unfold retry, meteora_removeLiquidity in Hstep0.
  apply retry_ext_ok_event in Hstep0 as [s2 [E2 Hin]].
  trace_of Hr.
  exists sfx0. split; [exact E0|]. split; [|exact F0].
  rewrite Etr, E2, <- app_assoc in E0. apply app_inv_head in E0. subst sfx0.
  apply in_or_app. left. exact Hin.
Qed.
(** [addLiquidity] opens at most one position, and an error it throws
    after opening one is ["Insufficient funds"] (from the read-back poll). *)
Lemma addLiquidity_adds :
  adds_spec 1 (fun e => e = JsError "Insufficient funds") addLiquidity.
Proof.
  unfold addLiquidity.
  do 4 (apply adds_spec_bind0; [emits_tac; reflexivity|intros]).
  apply (adds_spec_bind_last (fun _ => False)); [| tauto | intros; emits_tac; reflexivity |].
  - unfold retry, meteora_addLiquidity. apply retry_ext_adds.
  - intros. apply throws_only_bind; [throws_tac | intros].
    apply throws_only_bind; [apply retryGetPositions_throws | intros]. throws_tac.
Qed.

(** [loadInitialState] opens at most one position. *)
Lemma loadInitialState_adds : adds_spec 1 (fun _ => True) loadInitialState.
Proof.
  unfold loadInitialState.
  do 3 (apply adds_spec_bind0; [emits_tac; reflexivity|intros]).
  destruct a0 as [d|]; [|apply adds_spec_emits; emits_tac].
  do 3 (apply adds_spec_bind0; [emits_tac; reflexivity|intros]).
  destruct a3 as [|p ps]; cbn [initial_branch].
  - do 2 (apply adds_spec_bind0; [emits_tac; reflexivity|intros]).
    apply (adds_spec_bind_last (fun e => e = JsError "Insufficient funds"));
      [apply addLiquidity_adds | tauto | intros; emits_tac | intros; throws_tac].
  - apply adds_spec_emits. emits_tac.
Qed.

(** C6. Contract of [loadInitialState]: when it returns "no change"
    ([false]) it has made no swap, add or remove call at all; when it
    returns "changed" ([true]) it has made a successful add-liquidity call.
    So startup creates a position exactly on the path that reports one. *)
Theorem loadInitialState_contract (w w' : World L) changed :
  loadInitialState w = (Ok changed, w') ->
  exists s, trace w' = trace w ++ s /\
    (changed = false -> Forall keeps_funds s) /\
    (changed = true -> exists pool a b ri, In (EvCall (CAddLiquidity pool a b ri) true) s).
Proof.
  intros Hr. unfold loadInitialState in Hr. do 3 inv_ok Hr.
  destruct a0 as [d|]; [|discriminate Hr].
  do 3 inv_ok Hr.
  emits_of Hstep keeps_funds. emits_of Hstep0 keeps_funds. emits_of Hstep1 keeps_funds.
  emits_of Hstep2 keeps_funds. emits_of Hstep3 keeps_funds. emits_of Hstep4 keeps_funds.
  destruct a3 as [|p ps]; cbn [initial_branch] in Hr.
  - apply bind_ok_inv in Hr as [u1 [wv [Hv Hr]]].
    apply bind_ok_inv in Hr as [u2 [wb [Hb Hr]]].
    apply bind_ok_inv in Hr as [[] [wa [Ha Hr]]]. injection Hr as <- <-.
    apply addLiquidity_ok_added in Ha as [s7 [pool [xa [xb [ri [E7 Hin]]]]]].
    trace_of Hv. trace_of Hb.
    eexists; split; [chain_traces|]. split; [discriminate|].
    intros _. exists pool, xa, xb, ri. rewrite !in_app_iff. tauto.
  - apply bind_ok_inv in Hr as [u1 [wu [Hu Hr]]]. injection Hr as <- <-.
    emits_of Hu keeps_funds.
    eexists; split; [chain_traces|]. split; [|discriminate].
    intros _. rewrite !Forall_app. tauto.
Qed.
(** C7. Adoption at startup: on a pool whose positions query shows
    [p :: ps], a completed [loadInitialState] reports no change and has
    set [currLowerBinId] and [currUpperBinId] to the bounds of the first
    position [p]. *)
Theorem loadInitialState_adopts p ps
  (shows : forall pool l, fst (getPositionsFromPool pool l) = Ok (p :: ps))
  (w w' : World L) changed :
  loadInitialState w = (Ok changed, w') ->
  changed = false /\
  currLowerBinId (self w') = lowerBinId (positionData p) /\
  currUpperBinId (self w') = upperBinId (positionData p).
Proof.
  intros Hr. unfold loadInitialState in Hr. do 3 inv_ok Hr.
  destruct a0 as [d|]; [|discriminate Hr].
  do 3 inv_ok Hr. unfold retryGetPositions in Hstep4.
  apply (retryGetPositions_shows p ps shows) in Hstep4 as ->. cbn [initial_branch] in Hr.
  apply bind_ok_inv in Hr as [u [wu [Hu Hr]]]. injection Hr as <- <-.
  unfold update_this, modify in Hu. injection Hu as _ <-. simpl. auto.
Qed.
(** C8. An outage of the positions query looks like an empty pool: when
    every positions query fails with an ordinary error, a completed
    [loadInitialState] reports a change and has made a successful
    add-liquidity call, whatever positions the pool holds.  An agent
    started, or re-synchronised, during an indexer outage opens a second
    position next to the one it already has. *)
Theorem loadInitialState_opens_during_outage
  (down : forall pool l, exists e,
     fst (getPositionsFromPool pool l) = Throw e /\ insufficient_funds e = false)
  (w w' : World L) changed :
  loadInitialState w = (Ok changed, w') ->
  changed = true /\
  exists s pool a b ri, trace w' = trace w ++ s /\ In (EvCall (CAddLiquidity pool a b ri) true) s.
Proof.
  intros Hr. unfold loadInitialState in Hr. do 3 inv_ok Hr.
  destruct a0 as [d|]; [|discriminate Hr].
  do 3 inv_ok Hr.
  pose proof (retryGetPositions_empty (fun pool l => or_intror (down pool l)) 2 5000 w4) as Hnil.
  rewrite Hstep4 in Hnil. simpl in Hnil. injection Hnil as ->. cbn [initial_branch] in Hr.
  trace_of Hstep. trace_of Hstep0. trace_of Hstep1. trace_of Hstep2. trace_of Hstep3.
  trace_of Hstep4.
  apply bind_ok_inv in Hr as [u1 [wv [Hv Hr]]].
  apply bind_ok_inv in Hr as [u2 [wb [Hb Hr]]].
  apply bind_ok_inv in Hr as [[] [wa [Ha Hr]]]. injection Hr as <- <-.
  apply addLiquidity_ok_added in Ha as [s7 [pool [xa [xb [ri [E7 Hin]]]]]].
  trace_of Hv. trace_of Hb.
  split; [reflexivity|]. eexists; exists pool, xa, xb, ri.
  split; [chain_traces | rewrite !in_app_iff; tauto].
Qed.
(** C11. The fee reserve is never deposited: [addLiquidity] reads the
    native balance, then the two asset balances, and every add-liquidity
    call it makes, failed or not, deposits exactly the usable amounts of
    these readings: for the native asset [max(0, raw - NATIVE_TOKEN_FEE_BUFFER)],
    for the other its balance. *)
Theorem addLiquidity_deposits_usable (w : World L) d n ra rb l0 l1 l2 :
  _poolDetails (self w) = Some d -> assetASymbol d <> assetBSymbol d ->
  getBalance None (ledger w) = (Ok n, l0) ->
  getBalance (Some (assetAMintAddress d)) l0 = (Ok ra, l1) ->
  getBalance (Some (assetBMintAddress d)) l1 = (Ok rb, l2) ->
  let buffer := NATIVE_TOKEN_FEE_BUFFER (env w) in
  exists s, trace (snd (addLiquidity w)) = trace w ++ s /\
    Forall (deposits (usable_amount (is_native_symbol (assetASymbol d)) buffer ra)
                     (usable_amount (is_native_symbol (assetBSymbol d)) buffer rb)) s.
Proof.
  intros Hd Hne Hn Ha Hb buffer.
  set (ua := usable_amount _ buffer ra). set (ub := usable_amount _ buffer rb).
  apply emits_at_bind; [apply emits_at_of; emits_tac; cbn; auto|]. intros [] w1 Hv.
  destruct (run_verifyBuffer_ok w w1 n l0 Hn Hv) as [Hl1 [He1 Hs1]].
  rewrite <- Hl1 in Ha. rewrite <- Hs1 in Hd.
  assert (Eb : NATIVE_TOKEN_FEE_BUFFER (env w1) = buffer) by (unfold buffer; rewrite He1; reflexivity).
  apply emits_at_bind; [apply emits_at_of; emits_tac; cbn; auto|]. intros u w2 Hu.
  rewrite (run_getUsableBalances w1 d ra rb l1 l2 Hd Ha Hb), Eb in Hu. injection Hu as <- <-.
  assert (EA : balance_of (usable_of d buffer ra rb) (assetASymbol d) = ua)
    by (unfold balance_of; rewrite usable_of_A by exact Hne; reflexivity).
  assert (EB : balance_of (usable_of d buffer ra rb) (assetBSymbol d) = ub)
    by (unfold balance_of; rewrite usable_of_B; reflexivity).
  apply emits_at_bind; [apply emits_at_of; emits_tac|].
  intros d' w3 Hd'. unfold poolDetails in Hd'. cbn [self] in Hd'. rewrite Hd in Hd'.
  injection Hd' as <- <-. rewrite EA, EB.
  apply emits_at_of. emits_tac; cbn; auto.
Qed.
End LifecycleFacts.

(** ** Witnesses *)

Lemma addLiquidity_requires_fee_reserve_witness :
  let w := demo_world (demo_ledger 10 20 (5 # 100) 100 [] []) 100 120 in
  addLiquidity w =
    (Throw (JsError insufficient_native_message),
     mkWorld (ledger w) (env w) (self w) (trace w ++ [EvCall (CGetBalance None) true;
                                             EvAlert ERROR (AlertInsufficientNative (5 # 100))])).
Proof.
  intros w. apply addLiquidity_requires_fee_reserve; reflexivity.
Defined.

Lemma addLiquidity_keeps_stale_range_witness :
  let w := demo_world (demo_ledger 10 20 1 100 [] []) 100 120 in
  let w' := snd (addLiquidity (H := LaggingChain) w) in
  fst (addLiquidity (H := LaggingChain) w) = Ok tt /\
  (currLowerBinId (self w') = currLowerBinId (self w) /\
   currUpperBinId (self w') = currUpperBinId (self w) /\
   exists sfx pool a b ri, trace w' = trace w ++ sfx /\
     In (EvCall (CAddLiquidity pool a b ri) true) sfx).
Proof.
  intros w w'. split; [vm_compute; reflexivity|].
  apply (addLiquidity_keeps_stale_range (H := LaggingChain)).
  - intros pool l. left. reflexivity.
  - subst w'. vm_compute. reflexivity.
Defined.

(** A fresh agent on an empty pool creates a position and reports it. *)
Lemma loadInitialState_contract_witness :
  let w := fresh_world (demo_ledger 10 20 1 100 [] []) in
  fst (loadInitialState w) = Ok true /\
  exists s, trace (snd (loadInitialState w)) = trace w ++ s /\
    (true = false -> Forall keeps_funds s) /\
    (true = true -> exists pool a b ri, In (EvCall (CAddLiquidity pool a b ri) true) s).
Proof.
  intros w. split; [vm_compute; reflexivity|].
  apply loadInitialState_contract. vm_compute. reflexivity.
Defined.

(** A fresh agent on a pool that shows the position [[100, 120]] adopts it. *)
Lemma loadInitialState_adopts_witness :
  let w := fresh_world (demo_ledger 10 20 1 110 [] []) in
  let w' := snd (loadInitialState (H := ShowingChain [position_100_120]) w) in
  fst (loadInitialState (H := ShowingChain [position_100_120]) w) = Ok false /\
  (false = false /\ currLowerBinId (self w') = 100%Z /\ currUpperBinId (self w') = 120%Z).
Proof.
  intros w w'. split; [vm_compute; reflexivity|].
  apply (loadInitialState_adopts (H := ShowingChain [position_100_120]) position_100_120 []
           (fun pool l => eq_refl) w).
  subst w'. vm_compute. reflexivity.
Defined.

(** The pool already holds the position [[100, 120]]; with the indexer
    down, [loadInitialState] opens a second one. *)
Lemma loadInitialState_opens_during_outage_witness :
  let w := fresh_world (demo_ledger 10 20 1 110 [slot_100_120] []) in
  let w' := snd (loadInitialState (H := OutageChain) w) in
  (forall pool l, exists e,
     fst (getPositionsFromPool (Chain := OutageChain) pool l) = Throw e /\
     insufficient_funds e = false) /\
  loadInitialState (H := OutageChain) w = (Ok true, w') /\
  length (l_slots (ledger w')) = 2%nat /\
  (true = true /\ exists s pool a b ri, trace w' = trace w ++ s /\
     In (EvCall (CAddLiquidity pool a b ri) true) s).
Proof.
  intros w w'.
  assert (down : forall pool l, exists e,
     fst (getPositionsFromPool (Chain := OutageChain) pool l) = Throw e /\
     insufficient_funds e = false) by (intros; exists rpc_down; split; reflexivity).
  assert (Hrun : loadInitialState (H := OutageChain) w = (Ok true, w'))
    by (subst w'; vm_compute; reflexivity).
  split; [exact down|]. split; [exact Hrun|]. split; [subst w'; vm_compute; reflexivity|].
  exact (loadInitialState_opens_during_outage (H := OutageChain) down w w' true Hrun).
Defined.

Lemma addLiquidity_deposits_usable_witness :
  let w := demo_world (demo_ledger 10 20 1 100 [] []) 100 120 in
  _poolDetails (self w) = Some demo_details /\ assetASymbol demo_details <> assetBSymbol demo_details /\
  getBalance None (ledger w) = (Ok 1, ledger w) /\
  getBalance (Some (assetAMintAddress demo_details)) (ledger w) = (Ok 10, ledger w) /\
  getBalance (Some (assetBMintAddress demo_details)) (ledger w) = (Ok 20, ledger w) /\
  (let buffer := NATIVE_TOKEN_FEE_BUFFER (env w) in
   exists s, trace (snd (addLiquidity w)) = trace w ++ s /\
     Forall (deposits (usable_amount (is_native_symbol (assetASymbol demo_details)) buffer 10)
                      (usable_amount (is_native_symbol (assetBSymbol demo_details)) buffer 20)) s).
Proof.
  intros w.
  assert (Hne : assetASymbol demo_details <> assetBSymbol demo_details) by discriminate.
  assert (Hn : getBalance None (ledger w) = (Ok 1, ledger w)) by reflexivity.
  assert (Ha : getBalance (Some (assetAMintAddress demo_details)) (ledger w) = (Ok 10, ledger w))
    by reflexivity.
  assert (Hb : getBalance (Some (assetBMintAddress demo_details)) (ledger w) = (Ok 20, ledger w))
    by reflexivity.
  do 5 (split; [assumption || reflexivity|]).
  exact (addLiquidity_deposits_usable w demo_details 1 10 20 (ledger w) (ledger w) (ledger w)
           eq_refl Hne Hn Ha Hb).
Defined.

Lemma addLiquidity_adopts_new_range_witness :
  let w := demo_world (demo_ledger 10 20 1 100 [] []) 0 0 in
  let w' := snd (addLiquidity (H := ShowingChain [position_100_120]) w) in
  addLiquidity (H := ShowingChain [position_100_120]) w = (Ok tt, w') /\
  (currLowerBinId (self w') = 100%Z /\ currUpperBinId (self w') = 120%Z /\
   exists sfx pool a b ri, trace w' = trace w ++ sfx /\
     In (EvCall (CAddLiquidity pool a b ri) true) sfx).
Proof.
  intros w w'.
  assert (Hr : addLiquidity (H := ShowingChain [position_100_120]) w = (Ok tt, w'))
    by (subst w'; vm_compute; reflexivity).
  split; [exact Hr|].
  exact (addLiquidity_adopts_new_range (H := ShowingChain [position_100_120]) position_100_120 []
           (fun pool l => eq_refl) w w' Hr).
Defined.
