(* ===== verification/DecisionLoop.v ===== *)
(** * The rebalance decision loop and the driver

    [rebalance()] (logger.ts 587-628) reads the active bin (with [retry]);
    outside the cached range [currLowerBinId, currUpperBinId] it logs the
    breach and relocates (remove, rebalance 50/50, check the fee reserve,
    add), returning [true]; inside it returns [false].  Any error is caught:
    one mentioning ["No positions found in this pool"] first re-runs
    [loadInitialState] (whose own errors escape), then an ERROR alert is
    sent and [false] returned.  The driver ([examples/example.ts],
    part_000 131-222) validates the environment, loads the initial state
    and then polls every 10 s; an error that escapes [rebalance] and does
    not mention ["Bad request"] is rethrown out of the timer callback and
    ends the process.  The unbounded loop is modelled for a given number of
    cycles. *)

From S2P Require Import Prelude Monad Effects DemoLedger Retry.
From S2P Require Import Trace Balances RangeSizing AssetBalancer PoolMetadata Lifecycle.

Local Open Scope Q_scope.
Open Scope rebal_scope.

(** [activeBin.binId < lower || activeBin.binId > upper] (line 597). *)
Definition out_of_range (binId lower upper : Z) : bool :=
  (binId <? lower)%Z || (upper <? binId)%Z.

Section Loop.
Context {L : Type} `{Chain L}.

(** Lines 605-608: the relocation sequence. *)
Definition relocate : M (World L) unit :=
  removeLiquidity ;;
  rebalancePosition ;;
  verifyNativeTokenBufferForPositions ;;
  addLiquidity.

(** The [try] block of [rebalance] (lines 589-615). *)
Definition rebalance_body : M (World L) bool :=
  r <- this ;;
  (if String.eqb (poolAddress r) "" then throw (JsError "No working pool address found")
   else ret tt) ;;
  activeBin <- retry (meteora_getActiveBin (poolAddress r)) 5 5000 ;;
  r' <- this ;;
  if out_of_range (binId activeBin) (currLowerBinId r') (currUpperBinId r')
  then log (LogAction (ActOutOfRange (binId activeBin) (currLowerBinId r') (currUpperBinId r'))) ;;
       relocate ;;
       ret true
  else ret false.

(** The [catch] block of [rebalance] (lines 616-627). *)
Definition rebalance_handler (error : exn) : M (World L) bool :=
  (if is_error_with error "No positions found in this pool"
   then _ <- loadInitialState ;; ret tt
   else ret tt) ;;
  sendAlert ERROR (AlertRebalance error) ;;
  ret false.

(** [rebalance()] *)
Definition rebalance : M (World L) bool := catch rebalance_body rebalance_handler.

(** [runRebalanceLoop()] (part_000 172-194), for [cycles] cycles. *)
Fixpoint runRebalanceLoop (cycles : nat) : M (World L) unit :=
  match cycles with
  | O => ret tt
  | S n =>
      catch (_ <- rebalance ;; ret tt)
        (fun error =>
           if is_error_with error "Bad request"
           then sendAlert ERROR (AlertExpectedError error)
           else throw error) ;;
      delay 10000 ;;
      runRebalanceLoop n
  end.
End Loop.

(** ** The process *)

(** How the process ends: [process.exit(code)], still polling, or an
    unhandled rejection out of the timer callback. *)
Inductive Outcome :=
| Exited (code : Z)
| Running
| Crashed (e : exn).

Definition defaultRpcUrl : string := "https://api.mainnet-beta.solana.com".

(** [!process.env.X]: unset or empty. *)
Definition env_missing (o : option string) : bool :=
  match o with None => true | Some s => String.eqb s "" end.

(** Lines 141-156: the environment checks, returning the pool address. *)
Definition check_env (e : Env) : res string :=
  if env_missing (SOLANA_PRIVATE_KEY e) then Throw (JsError "SOLANA_PRIVATE_KEY is not set")
  else if env_missing (METEORA_POOL_ADDRESS e) then Throw (JsError "METEORA_POOL_ADDRESS is not set")
  else if env_missing (SOLANA_RPC_URL e) then Throw (JsError "SOLANA_RPC_URL is not set")
  else if String.eqb (default "" (SOLANA_RPC_URL e)) defaultRpcUrl
  then Throw (JsError "Warning: Using default Solana RPC URL which is known to have issues.
Please use a different RPC provider to avoid 410 Gone errors")
  else Ok (default "" (METEORA_POOL_ADDRESS e)).

Section Process.
Context {L : Type} `{Chain L}.

(** [main()] (lines 139-203) followed by [cycles] cycles of the loop it
    schedules: a startup error leads to [cleanupAndExit(1)]; an error
    escaping the loop is an unhandled rejection. *)
Definition main (cycles : nat) : M (World L) Outcome :=
  started <- catch (
      e <- process_env ;;
      pool <- (match check_env e with Ok p => ret p | Throw err => throw err end) ;;
      sendAlert INFO AlertInitializing ;;
      (match new_rebalancer e pool with
       | Ok r => update_this (fun _ => r)
       | Throw err => throw err
       end) ;;
      _ <- loadInitialState ;;
      ret true)
    (fun _ => ret false) ;;
  if started
  then catch (delay 10000 ;; runRebalanceLoop cycles ;; ret Running)
             (fun e => ret (Crashed e))
  else ret (Exited 1).

Definition insufficient_native_startup_message : string :=
  "Insufficient native token balance for transaction and position creation fees".

(** [main().catch(...)] (lines 205-222). *)
Definition main_rejection_handler (error : exn) : M (World L) Outcome :=
  if is_error_with error insufficient_native_startup_message
  then sendAlert ERROR AlertNotEnoughNativeToStart ;; ret (Exited 1)
  else ret (Exited 1).

Definition run_main (cycles : nat) : M (World L) Outcome :=
  catch (main cycles) main_rejection_handler.
End Process.

(** ** Helpers *)

Section Helpers.
Context {L : Type} `{Chain L}.

(** The handler of [rebalance] never reports a change. *)
Lemma rebalance_handler_false e (w : World L) b w' :
  rebalance_handler e w = (Ok b, w') -> b = false.
Proof.
  intros Hr. unfold rebalance_handler in Hr. inv_ok Hr.
  unfold sendAlert, emit, modify, bind, ret in Hr. congruence.
Qed.

(** The handler of [rebalance] throws only what the re-synchronising
    [loadInitialState] throws. *)
Lemma rebalance_handler_throw e (w : World L) e' w' :
  rebalance_handler e w = (Throw e', w') ->
  is_error_with e "No positions found in this pool" = true /\
  loadInitialState w = (Throw e', w').
Proof.
  intros Hr. unfold rebalance_handler in Hr.
  apply bind_throw_inv in Hr as [Hr|[a [w1 [_ Hr]]]].
  - destruct (is_error_with e _); [|discriminate]. split; [reflexivity|].
    apply bind_throw_inv in Hr as [Hr|[a [w1 [_ Hr]]]]; [exact Hr | discriminate].
  - unfold sendAlert, emit, modify, bind, ret in Hr. discriminate.
Qed.

Lemma relocate_prefix_emits pool :
  emits not_swap_or_add (retry (meteora_getActiveBin pool) 5 5000).
Proof. emits_tac; reflexivity. Qed.

(** The relocation opens at most one position, and an error it throws
    after doing so is the retry's "Insufficient funds". *)
Lemma relocate_adds : adds_spec 1 (fun e => e = JsError "Insufficient funds") relocate.
Proof.
  unfold relocate. do 3 (apply adds_spec_bind0; [emits_tac; try reflexivity|intros]).
  apply addLiquidity_adds.
Qed.

(** The [try] block opens at most one position, and an error it throws
    after doing so is not the one the handler re-synchronises on. *)
Lemma rebalance_body_adds :
  adds_spec 1 (fun e => is_error_with e "No positions found in this pool" = false) rebalance_body.
Proof.
  unfold rebalance_body.
  do 4 (apply adds_spec_bind0; [emits_tac; try reflexivity|intros]).
  destruct (out_of_range _ _ _); [|apply adds_spec_emits; emits_tac].
  apply adds_spec_bind0; [emits_tac; reflexivity|intros].
  apply (adds_spec_bind_last (fun e => e = JsError "Insufficient funds"));
    [apply relocate_adds | intros e ->; reflexivity | intros; emits_tac | intros; throws_tac].
Qed.

(** The handler opens at most one position (through [loadInitialState]). *)
Lemma rebalance_handler_adds e : adds_spec 1 (fun _ => True) (rebalance_handler e).
Proof.
  unfold rebalance_handler.
  apply (adds_spec_bind_last (fun _ => True));
    [| tauto | intros; emits_tac; reflexivity | intros; throws_tac].
  try (destruct (is_error_with e _); [|apply adds_spec_emits; emits_tac]).
  apply (adds_spec_bind_last (fun _ => True));
    [apply loadInitialState_adds | tauto | intros; emits_tac | intros; throws_tac].
Qed.
End Helpers.

(** ** Properties *)

Section LoopFacts.
Context {L : Type} `{Chain L}.

(** C2. Inside the range nothing happens: when the active bin read
    succeeds with a bin in [[currLowerBinId, currUpperBinId]], [rebalance]
    returns [false] after exactly that one read: no relocation, no log,
    no alert, and the object is unchanged. *)
Theorem rebalance_in_range (w : World L) bin l' :
  poolAddress (self w) <> "" ->
  getActiveBin (poolAddress (self w)) (ledger w) = (Ok bin, l') ->
  (currLowerBinId (self w) <= binId bin <= currUpperBinId (self w))%Z ->
  rebalance w =
    (Ok false, mkWorld l' (env w) (self w) (trace w ++ [EvCall (CGetActiveBin (poolAddress (self w))) true])).
Proof.
  intros Hp Hbin Hin. unfold rebalance. apply run_catch_ok.
  unfold rebalance_body. rewrite (run_bind_ok _ _ w (self w) w) by reflexivity.
  apply String.eqb_neq in Hp. rewrite Hp.
  rewrite (run_bind_ok _ _ w tt w) by reflexivity.
  erewrite run_bind_ok.
  2: { unfold retry. apply retry_loop_ok. unfold meteora_getActiveBin.
       rewrite ext_run, Hbin. reflexivity. }
  unfold this, gets, bind. cbn [self].
  replace (out_of_range _ _ _) with false; [reflexivity|].
  unfold out_of_range. symmetry. apply orb_false_iff. split; apply Z.ltb_ge; lia.
Qed.

(** C1. A cycle that reports a change has relocated, in order: the trace
    it appends starts with a part that closes the cached position (a
    successful remove-liquidity call on the pool) and makes no swap and no
    add, followed by a part that opens a new position (a successful
    add-liquidity call).  A swap or an add never precedes the removal. *)
Theorem rebalance_true_relocated (w w' : World L) :
  rebalance w = (Ok true, w') ->
  exists s1 s2, trace w' = trace w ++ s1 ++ s2 /\
    In (EvCall (CRemoveLiquidity (poolAddress (self w))) true) s1 /\
    Forall not_swap_or_add s1 /\
    exists pool a b ri, In (EvCall (CAddLiquidity pool a b ri) true) s2.
Proof.
  intros Hr. unfold rebalance in Hr.
  apply catch_ok_inv in Hr as [Hr|[e [w1 [_ Hh]]]];
    [|apply rebalance_handler_false in Hh; discriminate].
  unfold rebalance_body in Hr.
  apply bind_ok_inv in Hr as [r [wa [Ha Hr]]].
  unfold this, gets in Ha. injection Ha as <- <-.
  apply bind_ok_inv in Hr as [u [wb [Hb Hr]]].
  assert (wb = w) as ->.
  { destruct (String.eqb _ _); [discriminate|]. unfold ret in Hb. congruence. }
  apply bind_ok_inv in Hr as [bin [wc [Hc Hr]]].
  apply bind_ok_inv in Hr as [r' [wd [Hd Hr]]].
  unfold this, gets in Hd. injection Hd as <- <-.
  destruct (out_of_range _ _ _); [|unfold ret in Hr; congruence].
  apply bind_ok_inv in Hr as [u1 [we [He Hr]]].
  apply bind_ok_inv in Hr as [u2 [wf [Hf Hr]]].
  unfold ret in Hr. injection Hr as <-.
  unfold relocate in Hf.
  apply bind_ok_inv in Hf as [u3 [wg [Hg Hf]]].
  apply bind_ok_inv in Hf as [u4 [wh [Hh Hf]]].
  apply bind_ok_inv in Hf as [u5 [wi [Hi Hf]]].
  destruct u2. apply addLiquidity_ok_added in Hf as [sadd [pool [x [y [ri [Eadd Hadd]]]]]].
  destruct u3. apply removeLiquidity_ok_removed in Hg as [srem [Erem [Hin Frem]]].
  pose proof Hc as Hk. self_of Hk. pose proof He as Hk'. self_of Hk'.
  emits_of Hc not_swap_or_add. emits_of He not_swap_or_add.
  trace_of Hh. trace_of Hi.
  exists (s ++ s0 ++ srem), (s1 ++ s2 ++ sadd). split; [chain_traces|].
  split; [rewrite !in_app_iff; rewrite Hk', Hk in Hin; auto|].
  split; [rewrite !Forall_app; auto|].
  exists pool, x, y, ri. rewrite !in_app_iff; auto.
Qed.

(** C3. Error policy of [rebalance]: it throws only when the caught error
    mentions ["No positions found in this pool"] and the re-synchronising
    [loadInitialState] itself throws (that error escapes); any other
    failure of the cycle is reported by one ERROR alert and [false]. *)
Theorem rebalance_error_policy (w : World L) :
  (forall e w', rebalance w = (Throw e, w') ->
     exists e0 w1, rebalance_body w = (Throw e0, w1) /\
                   is_error_with e0 "No positions found in this pool" = true /\
                   loadInitialState w1 = (Throw e, w')) /\
  (forall e0 w1, rebalance_body w = (Throw e0, w1) ->
     is_error_with e0 "No positions found in this pool" = false ->
     rebalance w = (Ok false, mkWorld (ledger w1) (env w1) (self w1)
                                (trace w1 ++ [EvAlert ERROR (AlertRebalance e0)]))).
Proof.
  split.
  - intros e w' Hr. unfold rebalance in Hr.
    apply catch_throw_inv in Hr as [e0 [w1 [Hb Hh]]].
    apply rebalance_handler_throw in Hh as [Hm Hl]. eauto.
  - intros e0 w1 Hb Hm. unfold rebalance. rewrite (run_catch_throw _ _ _ _ _ Hb).
    unfold rebalance_handler. rewrite Hm. reflexivity.
Qed.

(** C16. One escaped error stops the agent: when [rebalance] throws (the
    re-synchronisation failed) with an error that does not mention
    ["Bad request"], the driver's loop rethrows it out of the timer
    callback and no further cycle runs, although the spec requires that a
    single failure never stops the unattended agent. *)
Theorem runRebalanceLoop_stops (n : nat) (w w1 : World L) e :
  rebalance w = (Throw e, w1) -> is_error_with e "Bad request" = false ->
  runRebalanceLoop (S n) w = (Throw e, w1).
Proof.
  intros Hr Hb. simpl. unfold bind at 1, catch.
  rewrite (run_bind_throw _ _ _ _ _ Hr), Hb. reflexivity.
Qed.
(** C4. At most one position per polling cycle: whatever the ledger
    does, [n] cycles of [runRebalanceLoop] append at most [n] successful
    add-liquidity calls to the trace, so the agent never stacks positions.
    Within one [rebalance], the relocation's add and the handler's
    re-synchronisation through [loadInitialState] exclude each other:
    every error thrown after the relocation's add is "Insufficient funds",
    on which the handler does not re-synchronise. *)
Theorem runRebalanceLoop_at_most_one_add_per_cycle n (w : World L) :
  exists s, trace (snd (runRebalanceLoop n w)) = trace w ++ s /\ (adds s <= n)%nat.
Proof.
  assert (Hc : adds_spec 1 (fun _ => True) rebalance).
  { apply (adds_spec_catch (fun e => is_error_with e "No positions found in this pool" = false)
                           (fun _ => True));
      [apply rebalance_body_adds | | apply rebalance_handler_adds].
    intros e He. unfold rebalance_handler. rewrite He. emits_tac; reflexivity. }
  assert (Hl : adds_spec n (fun _ => True) (runRebalanceLoop n)).
  { induction n as [|n IH]; cbn [runRebalanceLoop]; [apply adds_spec_emits; emits_tac|].
    apply (adds_spec_bind_sum 1 n); intros.
    - apply adds_spec_catch_emits; [|intros; emits_tac; reflexivity].
      apply (adds_spec_bind_sum 1 0); [exact Hc | intros; apply adds_spec_emits; emits_tac].
    - apply adds_spec_bind0; [emits_tac; reflexivity | intros; exact IH]. }
  destruct (Hl w) as [s [E [A _]]]. eauto.
Qed.

End LoopFacts.

Section MainFacts.
Context {L : Type} `{Chain L}.

(** C32. The startup handler for a missing fee reserve is dead code: [main]
    never rejects (its own [catch] turns every startup error into exit
    code 1, and the polling loop's errors are not awaited by it), and the
    message [verifyNativeTokenBufferForPositions] throws does not contain
    the text the handler looks for, so even a rejection carrying it would
    exit without the "Please fund the wallet" alert. *)
Theorem main_rejection_handler_unreachable n :
  total (main (L := L) n) /\
  is_error_with (JsError insufficient_native_message) insufficient_native_startup_message = false /\
  (forall w : World L, main_rejection_handler (JsError insufficient_native_message) w = (Ok (Exited 1), w)).
Proof.
  split; [|split; [reflexivity | intros w; reflexivity]].
  unfold main. apply total_bind; [apply total_catch; intros; apply total_ret|].
  intros [|]; [apply total_catch; intros; apply total_ret | apply total_ret].
Qed.
(** C33. Configuration errors end the process with exit code 1 before
    any collaborator call: a missing wallet key, pool address or RPC URL,
    or the known-bad default RPC URL, leaves the world untouched; a
    missing or non-numeric range fraction, with the other variables
    valid, is caught from the constructor: the process exits with code 1
    after the "initializing" alert and before any ledger access. *)
Theorem main_config_errors_exit n (w : World L) :
  (env_missing (SOLANA_PRIVATE_KEY (env w)) = true \/
   env_missing (METEORA_POOL_ADDRESS (env w)) = true \/
   env_missing (SOLANA_RPC_URL (env w)) = true \/
   SOLANA_RPC_URL (env w) = Some defaultRpcUrl ->
   main n w = (Ok (Exited 1), w)) /\
  (env_missing (SOLANA_PRIVATE_KEY (env w)) = false ->
   env_missing (METEORA_POOL_ADDRESS (env w)) = false ->
   env_missing (SOLANA_RPC_URL (env w)) = false ->
   SOLANA_RPC_URL (env w) <> Some defaultRpcUrl ->
   METEORA_POSITION_RANGE_PER_SIDE_RELATIVE (env w) = None ->
   main n w = (Ok (Exited 1),
               mkWorld (ledger w) (env w) (self w) (trace w ++ [EvAlert INFO AlertInitializing]))).
Proof.
  unfold main, catch, bind, process_env, gets. cbn [fst snd]. unfold check_env.
  split.
  - intros Hc.
    destruct (env_missing (SOLANA_PRIVATE_KEY (env w))) eqn:Hk; [reflexivity|].
    destruct (env_missing (METEORA_POOL_ADDRESS (env w))) eqn:Hp; [reflexivity|].
    destruct (env_missing (SOLANA_RPC_URL (env w))) eqn:Hu; [reflexivity|].
    destruct Hc as [Hc|[Hc|[Hc|Hc]]]; try discriminate.
    rewrite Hc. reflexivity.
  - intros Hk Hp Hu Hd Hr. rewrite Hk, Hp, Hu.
    destruct (SOLANA_RPC_URL (env w)) as [u|]; [|discriminate].
    cbn [default]; unfold id. destruct (String.eqb_spec u defaultRpcUrl) as [->|_]; [congruence|].
    unfold new_rebalancer. rewrite Hr. reflexivity.
Qed.
End MainFacts.

(** ** End-to-end scenarios *)


(** Regression: the spec's end-to-end scenarios, run on a ledger that executes
    swaps at the bin price and opens positions of [rangeInterval] bins
    around the active bin: with no position and enough funds,
    [loadInitialState] opens one position and returns [true]; with the
    position [[100, 120]] and the active bin at 110, [rebalance] returns
    [false] after one read; at bin 130 it removes, rebalances, re-adds,
    returns [true], and the cached range becomes the ledger's report for
    the new position, [[110, 150]]. *)
Theorem spec_scenarios :
  fst (loadInitialState (fresh_world (demo_ledger 10 0 1 100 [] []))) = Ok true /\
  map slot_position (l_slots (ledger (snd (loadInitialState (fresh_world (demo_ledger 10 0 1 100 [] []))))))
    = [mkPosition (mkPositionData 80 120)] /\
  rebalance (demo_world (demo_ledger 0 0 1 110 [slot_100_120] []) 100 120)
    = (Ok false, mkWorld (demo_ledger 0 0 1 110 [slot_100_120] []) demo_env (demo_self 100 120)
                   [EvCall (CGetActiveBin "POOL") true]) /\
  fst (rebalance (demo_world (demo_ledger 0 0 1 130 [slot_100_120] []) 100 120)) = Ok true /\
  (currLowerBinId (self (snd (rebalance (demo_world (demo_ledger 0 0 1 130 [slot_100_120] []) 100 120)))),
   currUpperBinId (self (snd (rebalance (demo_world (demo_ledger 0 0 1 130 [slot_100_120] []) 100 120)))))
    = (110%Z, 150%Z) /\
  map slot_position (l_slots (ledger (snd (rebalance (demo_world (demo_ledger 0 0 1 130 [slot_100_120] []) 100 120)))))
    = [mkPosition (mkPositionData 110 150)].
Proof. vm_compute. repeat split. Qed.

(** ** Witnesses *)

Lemma rebalance_in_range_witness :
  let w := demo_world (demo_ledger 0 0 1 110 [slot_100_120] []) 100 120 in
  rebalance w = (Ok false, mkWorld (demo_ledger 0 0 1 110 [slot_100_120] []) (env w) (self w)
                             (trace w ++ [EvCall (CGetActiveBin (poolAddress (self w))) true])).
Proof.
  intros w. apply (rebalance_in_range w (mkBin 110 2)); [discriminate | reflexivity | simpl; lia].
Defined.

Lemma rebalance_true_relocated_witness :
  let w := demo_world (demo_ledger 0 0 1 130 [slot_100_120] []) 100 120 in
  fst (rebalance w) = Ok true /\
  exists s1 s2, trace (snd (rebalance w)) = trace w ++ s1 ++ s2 /\
    In (EvCall (CRemoveLiquidity (poolAddress (self w))) true) s1 /\
    Forall not_swap_or_add s1 /\
    exists pool a b ri, In (EvCall (CAddLiquidity pool a b ri) true) s2.
Proof.
  split; [vm_compute; reflexivity|].
  apply rebalance_true_relocated. vm_compute. reflexivity.
Defined.

Lemma rebalance_error_policy_witness :
  fst (rebalance closed_externally) = Throw (JsError "Failed to get pool details for pool: POOL") /\
  (forall e w', rebalance closed_externally = (Throw e, w') ->
     exists e0 w1, rebalance_body closed_externally = (Throw e0, w1) /\
                   is_error_with e0 "No positions found in this pool" = true /\
                   loadInitialState w1 = (Throw e, w')) /\
  (forall e0 w1, rebalance_body closed_externally = (Throw e0, w1) ->
     is_error_with e0 "No positions found in this pool" = false ->
     rebalance closed_externally = (Ok false, mkWorld (ledger w1) (env w1) (self w1)
                                      (trace w1 ++ [EvAlert ERROR (AlertRebalance e0)]))).
Proof.
  split; [vm_compute; reflexivity|]. apply rebalance_error_policy.
Defined.

Lemma runRebalanceLoop_stops_witness :
  is_error_with (JsError "Failed to get pool details for pool: POOL") "Bad request" = false /\
  runRebalanceLoop 100 closed_externally
  = (Throw (JsError "Failed to get pool details for pool: POOL"), snd (rebalance closed_externally)).
Proof.
  split; [reflexivity|].
  apply (runRebalanceLoop_stops 99); [vm_compute; reflexivity | reflexivity].
Defined.

Lemma main_config_errors_exit_witness :
  let w1 := mkWorld (demo_ledger 10 0 1 100 [] []) env_no_key (demo_self 0 0) [] in
  let w2 := mkWorld (demo_ledger 10 0 1 100 [] []) env_no_range (demo_self 0 0) [] in
  main 3 w1 = (Ok (Exited 1), w1) /\
  main 3 w2 = (Ok (Exited 1), mkWorld (ledger w2) (env w2) (self w2)
                                (trace w2 ++ [EvAlert INFO AlertInitializing])).
Proof.
  intros w1 w2. split.
  { exact (proj1 (main_config_errors_exit 3 w1) (or_introl eq_refl)). }
  exact (proj2 (main_config_errors_exit 3 w2) eq_refl eq_refl eq_refl
           ltac:(vm_compute; congruence) eq_refl).
Defined.
